(** * PoEDynamicLootFilter: the command-line backend (backend_cli.py)

    A shallow embedding of the change-log compactor, the shell-style
    tokenizer it relies on, the command dispatcher and the exit-code
    wrapper, together with the properties the specification states about
    them. *)

From Stdlib Require Import List String Ascii Bool Arith Lia ZArith Permutation.
From Stdlib Require Import DecimalString.
Import ListNotations.
Open Scope string_scope.
Open Scope list_scope.
Open Scope nat_scope.

Set Warnings "-register-all".

(** ** Python exceptions and results *)

(** The exception classes that can end a run.  The first six derive from
    Python's [Exception] and are the ones the modelled code raises itself.
    KeyboardInterrupt and SystemExit derive from BaseException only: no
    statement of backend_cli.py raises them, but they can come out of any
    collaborator (an interrupt of the user while a filter is parsed, a
    sys.exit of a library), and the handler of main does not catch them. *)
Inductive exn : Type :=
| IndexError
| KeyError
| TypeError
| ValueError
| AttributeError
| RuntimeError
| KeyboardInterrupt
| SystemExit.

(** [isinstance(e, Exception)]: what [except Exception] catches. *)
Definition derives_from_Exception (e : exn) : bool :=
  match e with
  | KeyboardInterrupt | SystemExit => false
  | _ => true
  end.

Inductive result (A : Type) : Type :=
| Ok (a : A)
| Raise (e : exn).

Arguments Ok {A} a.
Arguments Raise {A} e.

Definition rbind {A B : Type} (r : result A) (k : A -> result B) : result B :=
  match r with
  | Ok a => k a
  | Raise e => Raise e
  end.

Declare Scope result_scope.
Delimit Scope result_scope with result.
Notation "'let*' x ':=' r 'in' k" := (rbind r (fun x => k))
  (at level 61, x name, r at next level, right associativity) : result_scope.
Open Scope result_scope.

Definition is_ok {A : Type} (r : result A) : bool :=
  match r with Ok _ => true | Raise _ => false end.

(** ** kFunctionInfoMap *)

Record FunctionInfo : Type := mkInfo {
  NumParamsOptions : list nat;
  HasProfileParam : bool;
  ModifiesFilter : bool;
  NumParamsForMatch : option nat   (* the key is absent for non-mutators *)
}.

Definition query (opts : list nat) (profile : bool) : FunctionInfo :=
  mkInfo opts profile false None.

Definition mutator (opts : list nat) (num_match : nat) : FunctionInfo :=
  mkInfo opts true true (Some num_match).

Definition kFunctionInfoMap : list (string * FunctionInfo) :=
  [ ("is_first_launch", query [0] false);
    ("get_all_profile_names", query [0] false);
    ("create_new_profile", query [1] false);
    ("rename_profile", query [2] false);
    ("delete_profile", query [1] false);
    ("set_active_profile", query [1] false);
    ("check_filters_exist", query [0] true);
    ("import_downloaded_filter", query [0] true);
    ("load_input_filter", query [0] true);
    ("run_batch", query [0] true);
    ("get_rule_matching_item", query [0] true);
    ("set_rule_visibility", mutator [3] 2);
    ("set_currency_to_tier", mutator [2] 1);
    ("get_tier_of_currency", query [1] true);
    ("get_all_currency_tiers", query [0] true);
    ("set_currency_tier_min_visible_stack_size", mutator [2] 1);
    ("get_currency_tier_min_visible_stack_size", query [1] true);
    ("get_all_essence_tier_visibilities", query [0] true);
    ("set_hide_essences_above_tier", mutator [1] 0);
    ("get_hide_essences_above_tier", query [0] true);
    ("get_all_div_card_tier_visibilities", query [0] true);
    ("set_hide_div_cards_above_tier", mutator [1] 0);
    ("get_hide_div_cards_above_tier", query [0] true);
    ("get_all_unique_item_tier_visibilities", query [0] true);
    ("set_hide_unique_items_above_tier", mutator [1] 0);
    ("get_hide_unique_items_above_tier", query [0] true);
    ("get_all_unique_map_tier_visibilities", query [0] true);
    ("set_hide_unique_maps_above_tier", mutator [1] 0);
    ("get_hide_unique_maps_above_tier", query [0] true);
    ("set_lowest_visible_oil", mutator [1] 0);
    ("get_lowest_visible_oil", query [0] true);
    ("set_gem_min_quality", mutator [1] 0);
    ("get_gem_min_quality", query [0] true);
    ("set_flask_min_quality", mutator [1] 0);
    ("get_flask_min_quality", query [0] true);
    ("set_hide_maps_below_tier", mutator [1] 0);
    ("get_hide_maps_below_tier", query [0] true);
    ("set_basetype_visibility", mutator [2; 3] 2);
    ("get_basetype_visibility", query [1] true);
    ("get_all_visible_basetypes", query [0] true);
    ("set_flask_visibility", mutator [2; 3] 2);
    ("get_flask_visibility", query [1] true);
    ("get_all_visible_flasks", query [0] true);
    ("add_remove_socket_rule", mutator [2; 3] 2);
    ("get_all_added_socket_rules", query [0] true);
    ("set_rgb_item_max_size", mutator [1] 0);
    ("get_rgb_item_max_size", query [0] true);
    ("set_chaos_recipe_enabled_for", mutator [2] 1);
    ("is_chaos_recipe_enabled_for", query [1] true);
    ("get_all_chaos_recipe_statuses", query [0] true) ].

(** [d[key]] on a Python dict given by its items: [KeyError] when absent. *)
Fixpoint dict_get {V : Type} (key : string) (d : list (string * V)) : option V :=
  match d with
  | [] => None
  | (k, v) :: d' => if String.eqb k key then Some v else dict_get key d'
  end.

Definition dict_item {V : Type} (key : string) (d : list (string * V)) : result V :=
  match dict_get key d with
  | Some v => Ok v
  | None => Raise KeyError
  end.

(** [kFunctionInfoMap[name]['NumParamsForMatch']] *)
Definition num_params_for_match (name : string) : result nat :=
  let* info := dict_item name kFunctionInfoMap in
  match NumParamsForMatch info with
  | Some k => Ok k
  | None => Raise KeyError
  end.

(** [kFunctionInfoMap[name]['ModifiesFilter']] *)
Definition modifies_filter (name : string) : result bool :=
  let* info := dict_item name kFunctionInfoMap in
  Ok (ModifiesFilter info).

(** ** The change-log trie: a chain of OrderedDicts ending in a string *)

Inductive node : Type :=
| Leaf (last_param : string)
| Dict (items : list (string * node)).

(** An OrderedDict is the list of its items in iteration order. *)
Definition changes_dict : Type := list (string * node).

(** [key in d] *)
Definition od_mem {V : Type} (key : string) (d : list (string * V)) : bool :=
  match dict_get key d with Some _ => true | None => false end.

(** [d[key] = v]: an existing key keeps its place, a new key goes last. *)
Fixpoint od_set {V : Type} (key : string) (v : V) (d : list (string * V))
  : list (string * V) :=
  match d with
  | [] => [(key, v)]
  | (k, v') :: d' =>
      if String.eqb k key then (k, v) :: d' else (k, v') :: od_set key v d'
  end.

(** The loop of AddFunctionToChangesDict from index [i] on, where
    [remaining = num_params_for_match - i], [tokens = function_tokens[i:]]
    and [current] is the object [current_dict] points to.  The nested
    dictionaries are mutated in place in the source; here the spine is
    rebuilt with [od_set], which keeps every key where it is.  When the
    source raises, the dictionaries it has already created stay behind;
    the only caller lets the exception end the run, so the model returns
    the exception alone. *)
Fixpoint add_tokens (remaining : nat) (tokens : list string) (current : node)
  : result node :=
  match tokens with
  | [] => Raise IndexError                      (* function_tokens[i] *)
  | current_token :: rest =>
      match remaining with
      | 0 =>
          match rest with
          | [] => Raise IndexError              (* function_tokens[i + 1] *)
          | value :: _ =>
              match current with
              | Dict items => Ok (Dict (od_set current_token (Leaf value) items))
              | Leaf _ => Raise TypeError       (* item assignment on a str *)
              end
          end
      | S remaining' =>
          match current with
          | Leaf _ => Raise TypeError           (* a str cannot be descended *)
          | Dict items =>
              let items1 :=
                if od_mem current_token items then items
                else od_set current_token (Dict []) items in
              let* sub := dict_item current_token items1 in
              let* sub' := add_tokens remaining' rest sub in
              Ok (Dict (od_set current_token sub' items1))
          end
      end
  end.

Definition AddFunctionToChangesDict (function_tokens : list string)
  (changes : changes_dict) : result changes_dict :=
  match function_tokens with
  | [] => Raise IndexError                      (* function_tokens[0] *)
  | function_name :: _ =>
      let* k := num_params_for_match function_name in
      let* n := add_tokens k function_tokens (Dict changes) in
      match n with
      | Dict items => Ok items
      | Leaf _ => Raise TypeError
      end
  end.

Fixpoint ConvertChangesDictToFunctionListRec (changes : node)
  (current_prefix_list : list string) : list (list string) :=
  match changes with
  | Leaf last_param => [current_prefix_list ++ [last_param]]
  | Dict items =>
      flat_map (fun '(param, subdict) =>
                  ConvertChangesDictToFunctionListRec subdict
                    (current_prefix_list ++ [param]))
               items
  end.

(** The [for] loop of UpdateProfileChangesFile over the token lists. *)
Fixpoint fold_changes (token_lists : list (list string)) (changes : changes_dict)
  : result changes_dict :=
  match token_lists with
  | [] => Ok changes
  | tokens :: rest =>
      let* changes' := AddFunctionToChangesDict tokens changes in
      fold_changes rest changes'
  end.

Definition flatten (changes : changes_dict) : list (list string) :=
  ConvertChangesDictToFunctionListRec (Dict changes) [].

(** ** What the specification says about the change log *)

(** Each element once, at the place of its first occurrence. *)
Fixpoint first_insertion_order (l : list string) : list string :=
  match l with
  | [] => []
  | x :: l' =>
      x :: filter (fun y => negb (String.eqb x y)) (first_insertion_order l')
  end.

Definition head_is (h : string) (e : list string) : bool :=
  match e with
  | [] => false
  | x :: _ => String.eqb x h
  end.

(** The children of a trie level holding the entries [es], in the order
    in which they were first inserted. *)
Definition heads (es : list (list string)) : list string :=
  first_insertion_order (map (hd "") es).

(** The entries below the child [h], in merge order. *)
Definition sub (h : string) (es : list (list string)) : list (list string) :=
  map (@tl string) (filter (head_is h) es).

(** The part of a command that AddFunctionToChangesDict stores: the
    function name, the parameters that form the key, and the value. *)
Definition entry_of (tokens : list string) : list string :=
  match tokens with
  | [] => []
  | function_name :: _ =>
      match num_params_for_match function_name with
      | Ok k => firstn (k + 2) tokens
      | Raise _ => []
      end
  end.

Definition cmd_key (tokens : list string) : list string :=
  removelast (entry_of tokens).

Definition cmd_value (tokens : list string) : string :=
  last (entry_of tokens) "".

Definition list_eqb (a b : list string) : bool :=
  if list_eq_dec string_dec a b then true else false.

(** The value of the last entry of [es] whose key is [key]. *)
Fixpoint last_value (es : list (list string)) (key : list string)
  : option string :=
  match es with
  | [] => None
  | e :: es' =>
      match last_value es' key with
      | Some v => Some v
      | None => if list_eqb (removelast e) key then Some (last e "") else None
      end
  end.

(** Modelled after the specification's Flatten: a depth-first traversal
    that visits the children of every level in first-insertion order and
    emits one line per key, carrying the value merged last.  [k] is the
    number of key tokens still to come. *)
Fixpoint spec_lines (k : nat) (es : list (list string)) : list (list string) :=
  match k with
  | 0 => [last es []]
  | S k' =>
      flat_map (fun h => map (cons h) (spec_lines k' (sub h es))) (heads es)
  end.

Definition spec_flatten (cmds : list (list string)) : list (list string) :=
  let es := map entry_of cmds in
  flat_map (fun f =>
              match num_params_for_match f with
              | Ok k => map (cons f) (spec_lines k (sub f es))
              | Raise _ => []
              end)
           (heads es).

(** Replacing the value of the line of one key, every line staying in
    its place. *)
Definition overwrite_line (key : list string) (value : string)
  (lines : list (list string)) : list (list string) :=
  map (fun l => if list_eqb (removelast l) key then key ++ [value] else l) lines.








(** ** Quoting and tokenizing change-log lines *)

Infix "+++" := String.append (right associativity, at level 60).

Definition double_quote : ascii := Ascii.ascii_of_nat 34.
Definition single_quote : ascii := Ascii.ascii_of_nat 39.
Definition backslash : ascii := Ascii.ascii_of_nat 92.
Definition space : ascii := Ascii.ascii_of_nat 32.
Definition tab : ascii := Ascii.ascii_of_nat 9.
Definition line_feed : ascii := Ascii.ascii_of_nat 10.
Definition carriage_return : ascii := Ascii.ascii_of_nat 13.

(** [c in s] for a one-character string [c] *)
Fixpoint contains (c : ascii) (s : string) : bool :=
  match s with
  | EmptyString => false
  | String c' s' => Ascii.eqb c' c || contains c s'
  end.

Definition QuoteStringIfRequired (input_string : string) : string :=
  if contains space input_string || contains single_quote input_string
  then String double_quote (input_string +++ String double_quote EmptyString)
  else input_string.

Definition JoinParams (params_list : list string) : string :=
  String.concat " " (map QuoteStringIfRequired params_list).

(** shlex.split(s) of Python's standard library: a POSIX-mode lexer with
    [whitespace_split = True] and no comment characters.  The lexer's
    whitespace is space, tab, carriage return and line feed; its quotes
    are the single and the double quote; its escape is the backslash;
    and only the double quote is an escaped quote. *)
Inductive lex_state : Type :=
| StWhite                 (* state ' ': between tokens *)
| StWord                  (* state 'a': inside a word *)
| StQuote (q : ascii)     (* state is the opening quote character *)
| StEscape                (* state is the escape character *)
| StEof.                  (* state None: past the end of the input *)

Definition is_whitespace (c : ascii) : bool :=
  Ascii.eqb c space || Ascii.eqb c tab
  || Ascii.eqb c carriage_return || Ascii.eqb c line_feed.

Definition is_quote (c : ascii) : bool :=
  Ascii.eqb c single_quote || Ascii.eqb c double_quote.

Definition is_escape (c : ascii) : bool := Ascii.eqb c backslash.

Definition snoc (token : string) (c : ascii) : string :=
  token +++ String c EmptyString.

(** The end of read_token: a token that is empty and was never quoted
    is the end-of-input marker, which stops the iteration; any other
    token is yielded and the next call of read_token follows. *)
Definition emit (token : string) (quoted : bool) (next : result (list string))
  : result (list string) :=
  if negb quoted && String.eqb token "" then Ok []
  else let* tokens := next in Ok (token :: tokens).

(** The loop of shlex.read_token, iterated by [list(lex)].  [escapedstate]
    is the state to return to after an escaped character. *)
Fixpoint read_tokens (input : string) (state escapedstate : lex_state)
  (token : string) (quoted : bool) : result (list string) :=
  match input with
  | EmptyString =>
      match state with
      | StEof => Ok []
      | StWhite | StWord => emit token quoted (Ok [])
      | StQuote _ => Raise ValueError           (* No closing quotation *)
      | StEscape => Raise ValueError            (* No escaped character *)
      end
  | String nextchar rest =>
      match state with
      | StEof => Ok []
      | StWhite =>
          if is_whitespace nextchar then
            if negb (String.eqb token "") || quoted
            then emit token quoted (read_tokens rest StWhite StWhite "" false)
            else read_tokens rest StWhite escapedstate token quoted
          else if is_escape nextchar then
            read_tokens rest StEscape StWord token quoted
          else if is_quote nextchar then
            read_tokens rest (StQuote nextchar) escapedstate token quoted
          else
            read_tokens rest StWord escapedstate (String nextchar EmptyString) quoted
      | StQuote q =>
          if Ascii.eqb nextchar q then
            read_tokens rest StWord escapedstate token true
          else if is_escape nextchar && Ascii.eqb q double_quote then
            read_tokens rest StEscape (StQuote q) token true
          else
            read_tokens rest (StQuote q) escapedstate (snoc token nextchar) true
      | StEscape =>
          let token1 :=
            match escapedstate with
            | StQuote q =>
                if negb (Ascii.eqb nextchar backslash) && negb (Ascii.eqb nextchar q)
                then snoc token backslash else token
            | _ => token
            end in
          read_tokens rest escapedstate escapedstate (snoc token1 nextchar) quoted
      | StWord =>
          if is_whitespace nextchar then
            if negb (String.eqb token "") || quoted
            then emit token quoted (read_tokens rest StWhite StWhite "" false)
            else read_tokens rest StWhite escapedstate token quoted
          else if is_quote nextchar then
            read_tokens rest (StQuote nextchar) escapedstate token quoted
          else if is_escape nextchar then
            read_tokens rest StEscape StWord token quoted
          else
            read_tokens rest StWord escapedstate (snoc token nextchar) quoted
      end
  end.

Definition shlex_split (s : string) : result (list string) :=
  read_tokens s StWhite StWhite "" false.

(** ** Python built-ins used by the dispatcher *)

Definition newline : string := String line_feed EmptyString.

(** Code points 9-13, 28-32, 133 and 160: what Python's str.strip()
    treats as whitespace among the first 256 code points. *)
Definition is_py_space (c : ascii) : bool :=
  let n := nat_of_ascii c in
  ((9 <=? n) && (n <=? 13)) || ((28 <=? n) && (n <=? 32))
  || (n =? 133) || (n =? 160).

Fixpoint py_lstrip (s : string) : string :=
  match s with
  | EmptyString => EmptyString
  | String c s' => if is_py_space c then py_lstrip s' else s
  end.

Fixpoint py_rstrip (s : string) : string :=
  match s with
  | EmptyString => EmptyString
  | String c s' =>
      match py_rstrip s' with
      | EmptyString => if is_py_space c then EmptyString else String c EmptyString
      | r => String c r
      end
  end.

(** [s.strip()] *)
Definition py_strip (s : string) : string := py_rstrip (py_lstrip s).

Definition is_digit (c : ascii) : bool :=
  let n := nat_of_ascii c in (48 <=? n) && (n <=? 57).

Definition digit_value (c : ascii) : Z := Z.of_nat (nat_of_ascii c - 48).

(** Decimal digits, single underscores allowed between two digits. *)
Fixpoint parse_digits (s : string) (acc : Z) (after_digit : bool) : option Z :=
  match s with
  | EmptyString => if after_digit then Some acc else None
  | String c s' =>
      if is_digit c then parse_digits s' (10 * acc + digit_value c)%Z true
      else if Ascii.eqb c "_" && after_digit then parse_digits s' acc false
      else None
  end.

(** Code points 9-13, 32, 133 and 160: the whitespace int() skips around
    a number.  Among the first 256 code points these are the ones the C
    locale's isspace accepts, and the two above 127 that int() turns into
    a space first; the separators 28-31, which str.strip() removes, are
    not among them. *)
Definition is_int_space (c : ascii) : bool :=
  let n := nat_of_ascii c in
  ((9 <=? n) && (n <=? 13)) || (n =? 32) || (n =? 133) || (n =? 160).

Fixpoint int_lstrip (s : string) : string :=
  match s with
  | EmptyString => EmptyString
  | String c s' => if is_int_space c then int_lstrip s' else s
  end.

Fixpoint int_rstrip (s : string) : string :=
  match s with
  | EmptyString => EmptyString
  | String c s' =>
      match int_rstrip s' with
      | EmptyString => if is_int_space c then EmptyString else String c EmptyString
      | r => String c r
      end
  end.

(** [int(s)] on a string: surrounding whitespace, an optional sign, then
    decimal digits; [ValueError] for anything else. *)
Definition py_int (s : string) : result Z :=
  let body :=
    match int_rstrip (int_lstrip s) with
    | String c s' =>
        if Ascii.eqb c "-" then option_map Z.opp (parse_digits s' 0%Z false)
        else if Ascii.eqb c "+" then parse_digits s' 0%Z false
        else parse_digits (String c s') 0%Z false
    | EmptyString => None
    end in
  match body with
  | Some z => Ok z
  | None => Raise ValueError
  end.

(** [bool(int(s))] *)
Definition py_bool_int (s : string) : result bool :=
  let* z := py_int s in Ok (negb (Z.eqb z 0)).

(** [str(n)] for an int *)
Definition str_Z (z : Z) : string := DecimalString.NilZero.string_of_int (Z.to_int z).
Definition str_nat (n : nat) : string := str_Z (Z.of_nat n).

(** [str(int(flag))] for a bool *)
Definition str_flag (flag : bool) : string := if flag then "1" else "0".

(** [str(x)] for a value that is a string or None *)
Definition str_option (x : option string) : string :=
  match x with Some v => v | None => "None" end.

Definition join_lines (lines : list string) : string := String.concat newline lines.

Fixpoint concat_strings (l : list string) : string :=
  match l with
  | [] => EmptyString
  | x :: l' => x +++ concat_strings l'
  end.

(** [s[-1]]: IndexError on the empty string *)
Fixpoint last_char (s : string) : result ascii :=
  match s with
  | EmptyString => Raise IndexError
  | String c EmptyString => Ok c
  | String _ s' => last_char s'
  end.

(** [s[:-1]] *)
Fixpoint drop_last (s : string) : string :=
  match s with
  | EmptyString => EmptyString
  | String c EmptyString => EmptyString
  | String c s' => String c (drop_last s')
  end.

(** [if (s[-1] == '\n'): s = s[:-1]] *)
Definition remove_final_newline (output_string : string) : result string :=
  let* c := last_char output_string in
  Ok (if Ascii.eqb c line_feed then drop_last output_string else output_string).

(** [if ((len(s) > 0) and (s[-1] == '\n')): s = s[:-1]] *)
Definition remove_final_newline_guarded (output_string : string) : result string :=
  if 0 <? String.length output_string
  then remove_final_newline output_string
  else Ok output_string.

Definition CheckNumParams (params_list : list string) (required_num_params : nat)
  : result unit :=
  if List.length params_list =? required_num_params then Ok tt
  else Raise RuntimeError.

(** [for x in xs: acc = step(acc, x)] with a step that may raise *)
Fixpoint for_each {A S : Type} (xs : list A) (step : S -> A -> result S) (acc : S)
  : result S :=
  match xs with
  | [] => Ok acc
  | x :: xs' => let* acc' := step acc x in for_each xs' step acc'
  end.

(** ** The collaborators of the dispatcher

    The loot filter, the profile module, the rule objects and the
    constants of consts.py are not part of backend_cli.py; the dispatcher
    is modelled over an arbitrary implementation of them. *)

Inductive InputFilterSource : Type := kDownload | kInput | kOutput.

Record Backend : Type := mkBackend {
  LootFilter : Type;
  Env : Type;                       (* profiles and filter files on disk *)
  Rule : Type;
  RuleVisibility : Type;
  kShow : RuleVisibility;
  kHide : RuleVisibility;
  kDisabledAny : RuleVisibility;
  visibility_eqb : RuleVisibility -> RuleVisibility -> bool;
  (* consts.py *)
  kNumCurrencyTiersExcludingScrolls : nat;
  kNumEssenceTiers : nat;
  kNumDivCardTiers : nat;
  kNumUniqueItemTiers : nat;
  kNumUniqueMapTiers : nat;
  kItemSlots : list string;
  (* list(set(a) - set(b)): the iteration order of a set is Python's *)
  set_difference_list : list string -> list string -> list string;
  (* os.path.isfile on the three filter paths of the profile *)
  FiltersExist : LootFilter -> Env -> bool * bool * bool;
  (* profile.py *)
  GetAllProfileNames : Env -> result (list string);
  CreateNewProfile : string -> list string -> Env -> result (Env * bool);
  RenameProfile : string -> string -> Env -> result Env;
  DeleteProfile : string -> Env -> result Env;
  SetActiveProfile : string -> Env -> result Env;
  ProfileExists : string -> Env -> bool;
  (* loot_filter.py *)
  NewLootFilter : string -> InputFilterSource -> Env -> result LootFilter;
  GetRuleMatchingItem : list string -> LootFilter -> result (option string * option string);
  GetRule : string -> string -> LootFilter -> result Rule;
  text_lines : Rule -> list string;
  SetVisibility : Rule -> RuleVisibility -> LootFilter -> result LootFilter;
  SetCurrencyToTier : string -> Z -> LootFilter -> result LootFilter;
  GetTierOfCurrency : string -> LootFilter -> result Z;
  GetAllCurrencyInTier : nat -> LootFilter -> result (list string);
  SetCurrencyTierMinVisibleStackSize : string -> string -> LootFilter -> result LootFilter;
  GetCurrencyTierMinVisibleStackSize : string -> LootFilter -> result string;
  GetEssenceTierVisibility : nat -> LootFilter -> result RuleVisibility;
  SetHideEssencesAboveTierTier : Z -> LootFilter -> result LootFilter;
  GetHideEssencesAboveTierTier : LootFilter -> result Z;
  GetDivCardTierVisibility : nat -> LootFilter -> result RuleVisibility;
  SetHideDivCardsAboveTierTier : Z -> LootFilter -> result LootFilter;
  GetHideDivCardsAboveTierTier : LootFilter -> result Z;
  GetUniqueItemTierVisibility : nat -> LootFilter -> result RuleVisibility;
  SetHideUniqueItemsAboveTierTier : Z -> LootFilter -> result LootFilter;
  GetHideUniqueItemsAboveTierTier : LootFilter -> result Z;
  GetUniqueMapTierVisibility : nat -> LootFilter -> result RuleVisibility;
  SetHideUniqueMapsAboveTierTier : Z -> LootFilter -> result LootFilter;
  GetHideUniqueMapsAboveTierTier : LootFilter -> result Z;
  SetLowestVisibleOil : string -> LootFilter -> result LootFilter;
  GetLowestVisibleOil : LootFilter -> result string;
  SetGemMinQuality : Z -> LootFilter -> result LootFilter;
  GetGemMinQuality : LootFilter -> result Z;
  SetFlaskMinQuality : Z -> LootFilter -> result LootFilter;
  GetFlaskMinQuality : LootFilter -> result Z;
  SetHideMapsBelowTierTier : Z -> LootFilter -> result LootFilter;
  GetHideMapsBelowTierTier : LootFilter -> result Z;
  SetBaseTypeRuleEnabledFor : string -> bool -> bool -> LootFilter -> result LootFilter;
  IsBaseTypeRuleEnabledFor : string -> bool -> LootFilter -> result bool;
  GetAllVisibleBaseTypes : bool -> LootFilter -> result (list string);
  SetFlaskRuleEnabledFor : string -> bool -> bool -> LootFilter -> result LootFilter;
  IsFlaskRuleEnabledFor : string -> bool -> LootFilter -> result bool;
  GetAllVisibleFlaskTypes : bool -> LootFilter -> result (list string);
  AddSocketRule : string -> string -> LootFilter -> result LootFilter;
  RemoveSocketRule : string -> string -> LootFilter -> result LootFilter;
  GetAllAddedSocketRules : LootFilter -> result (list (string * string));
  SetRgbItemMaxSize : string -> LootFilter -> result LootFilter;
  GetRgbItemMaxSize : LootFilter -> result string;
  SetChaosRecipeEnabledFor : string -> bool -> LootFilter -> result LootFilter;
  IsChaosRecipeEnabledFor : string -> LootFilter -> result bool
}.

(** ** DelegateFunctionCall: the branches of the dispatcher *)

Section Dispatcher.

Context (B : Backend).

Local Notation "'LF'" := (LootFilter B).

(** What a branch leaves behind: the profile state, the loot filter, the
    output string and the (possibly extended) parameter list. *)
Definition outcome : Type := (Env B * option LF * string * list string)%type.

(** An attribute of [loot_filter], which is None without a profile. *)
Definition the_filter (loot_filter : option LF) : result LF :=
  match loot_filter with
  | Some lf => Ok lf
  | None => Raise AttributeError
  end.

(** [config_values[...]], where [config_values] is None without a profile. *)
Definition the_config (loot_filter : option LF) : result LF :=
  match loot_filter with
  | Some lf => Ok lf
  | None => Raise TypeError
  end.

Definition param (i : nat) (function_params : list string) : string :=
  nth i function_params "".

(** A branch that only reads the filter. *)
Definition getter (env : Env B) (loot_filter : option LF)
  (function_params : list string) (num_params : nat)
  (read : LF -> result string) : result outcome :=
  let* _ := CheckNumParams function_params num_params in
  let* lf := the_filter loot_filter in
  let* output_string := read lf in
  Ok (env, loot_filter, output_string, function_params).

(** A branch that mutates the filter and writes no output. *)
Definition setter (env : Env B) (loot_filter : option LF)
  (function_params : list string) (update : LF -> result LF) : result outcome :=
  let* lf := the_filter loot_filter in
  let* lf' := update lf in
  Ok (env, Some lf', "", function_params).

(** [set_hide_..._tier <tier: int>] and the two quality setters *)
Definition int_setter (env : Env B) (loot_filter : option LF)
  (function_params : list string) (update : Z -> LF -> result LF) : result outcome :=
  let* _ := CheckNumParams function_params 1 in
  let* value := py_int (param 0 function_params) in
  setter env loot_filter function_params (update value).

(** [for tier in range(1, n + 1): output_string += str(tier) + ';' + ... + '\n'],
    then the final newline is removed without a length check. *)
Definition tier_visibilities (env : Env B) (loot_filter : option LF)
  (function_params : list string) (num_tiers : nat)
  (visibility : nat -> LF -> result (RuleVisibility B)) : result outcome :=
  let* _ := CheckNumParams function_params 0 in
  let* output_string :=
    for_each (seq 1 num_tiers)
      (fun output_string tier =>
         let* lf := the_filter loot_filter in
         let* v := visibility tier lf in
         Ok (output_string +++ str_nat tier +++ ";"
             +++ str_flag (visibility_eqb B v (kShow B)) +++ newline))
      "" in
  let* output_string := remove_final_newline output_string in
  Ok (env, loot_filter, output_string, function_params).

Definition check_filters_exist (env : Env B) (loot_filter : option LF)
  (function_params : list string) : result outcome :=
  let* _ := CheckNumParams function_params 0 in
  let* lf := the_config loot_filter in
  let '(downloaded, input, output) := FiltersExist B lf env in
  Ok (env, loot_filter,
      join_lines [str_flag downloaded; str_flag input; str_flag output],
      function_params).

Definition is_first_launch (env : Env B) (loot_filter : option LF)
  (function_params : list string) : result outcome :=
  let* _ := CheckNumParams function_params 0 in
  let* profile_names_list := GetAllProfileNames B env in
  Ok (env, loot_filter, str_flag (List.length profile_names_list =? 0), function_params).

Definition get_all_profile_names (env : Env B) (loot_filter : option LF)
  (function_params : list string) : result outcome :=
  let* _ := CheckNumParams function_params 0 in
  let* profile_names_list := GetAllProfileNames B env in
  Ok (env, loot_filter, join_lines profile_names_list, function_params).

Definition create_new_profile (input_lines : list string) (env : Env B)
  (loot_filter : option LF) (function_params : list string) : result outcome :=
  let* _ := CheckNumParams function_params 1 in
  let* created := CreateNewProfile B (param 0 function_params) input_lines env in
  Ok (fst created, loot_filter, str_flag (snd created), function_params).

Definition rename_profile (env : Env B) (loot_filter : option LF)
  (function_params : list string) : result outcome :=
  let* _ := CheckNumParams function_params 2 in
  let* env' := RenameProfile B (param 0 function_params) (param 1 function_params) env in
  Ok (env', loot_filter, "", function_params).

Definition delete_profile (env : Env B) (loot_filter : option LF)
  (function_params : list string) : result outcome :=
  let* _ := CheckNumParams function_params 1 in
  let* env' := DeleteProfile B (param 0 function_params) env in
  Ok (env', loot_filter, "", function_params).

Definition set_active_profile (env : Env B) (loot_filter : option LF)
  (function_params : list string) : result outcome :=
  let* _ := CheckNumParams function_params 1 in
  let* env' := SetActiveProfile B (param 0 function_params) env in
  Ok (env', loot_filter, "", function_params).

Definition get_rule_matching_item (input_lines : list string) (env : Env B)
  (loot_filter : option LF) (function_params : list string) : result outcome :=
  let* _ := CheckNumParams function_params 0 in
  let* lf := the_filter loot_filter in
  let* tags := GetRuleMatchingItem B input_lines lf in
  let output_string :=
    "type_tag:" +++ str_option (fst tags) +++ newline
    +++ "tier_tag:" +++ str_option (snd tags) +++ newline in
  match tags with
  | (Some type_tag, Some tier_tag) =>
      let* matched_rule := GetRule B type_tag tier_tag lf in
      Ok (env, loot_filter, output_string +++ join_lines (text_lines B matched_rule),
          function_params)
  | _ => Ok (env, loot_filter, output_string, function_params)
  end.

(** [visibility_map[visibility_string]] *)
Definition visibility_map (visibility_string : string) : result (RuleVisibility B) :=
  dict_item visibility_string
    [("show", kShow B); ("hide", kHide B); ("disable", kDisabledAny B)].

Definition set_rule_visibility (env : Env B) (loot_filter : option LF)
  (function_params : list string) : result outcome :=
  let* _ := CheckNumParams function_params 3 in
  let type_tag := param 0 function_params in
  let tier_tag := param 1 function_params in
  let visibility_string := param 2 function_params in
  let* lf := the_filter loot_filter in
  let* rule := GetRule B type_tag tier_tag lf in
  let* visibility := visibility_map visibility_string in
  let* lf' := SetVisibility B rule visibility lf in
  Ok (env, Some lf', "", function_params).

Definition set_currency_to_tier (env : Env B) (loot_filter : option LF)
  (function_params : list string) : result outcome :=
  let* _ := CheckNumParams function_params 2 in
  let currency_name := param 0 function_params in
  let* target_tier := py_int (param 1 function_params) in
  setter env loot_filter function_params (SetCurrencyToTier B currency_name target_tier).

Definition get_all_currency_tiers (env : Env B) (loot_filter : option LF)
  (function_params : list string) : result outcome :=
  let* _ := CheckNumParams function_params 0 in
  let* output_string :=
    for_each (seq 1 (kNumCurrencyTiersExcludingScrolls B))
      (fun output_string tier =>
         let* lf := the_filter loot_filter in
         let* currency_names := GetAllCurrencyInTier B tier lf in
         Ok (output_string
             +++ concat_strings
                   (map (fun currency_name =>
                           currency_name +++ ";" +++ str_nat tier +++ newline)
                        currency_names)))
      "" in
  let* output_string := remove_final_newline output_string in
  Ok (env, loot_filter, output_string, function_params).

Definition set_currency_tier_min_visible_stack_size (env : Env B)
  (loot_filter : option LF) (function_params : list string) : result outcome :=
  let* _ := CheckNumParams function_params 2 in
  setter env loot_filter function_params
    (SetCurrencyTierMinVisibleStackSize B (param 0 function_params)
       (param 1 function_params)).

(** [set_basetype_visibility] and [set_flask_visibility]: the optional
    third flag defaults to '0'. *)
Definition set_two_flag_visibility (env : Env B) (loot_filter : option LF)
  (function_params : list string)
  (update : string -> bool -> bool -> LF -> result LF) : result outcome :=
  let function_params :=
    if List.length function_params =? 2 then function_params ++ ["0"]
    else function_params in
  let* _ := CheckNumParams function_params 3 in
  let base_type := param 0 function_params in
  let* enable_flag := py_bool_int (param 1 function_params) in
  let* narrow_flag := py_bool_int (param 2 function_params) in
  setter env loot_filter function_params (update base_type enable_flag narrow_flag).

(** [get_basetype_visibility] and [get_flask_visibility] *)
Definition get_two_flag_visibility (env : Env B) (loot_filter : option LF)
  (function_params : list string)
  (enabled : string -> bool -> LF -> result bool) : result outcome :=
  getter env loot_filter function_params 1
    (fun lf =>
       let* any_visibility_flag := enabled (param 0 function_params) false lf in
       let* narrow_visibility_flag := enabled (param 0 function_params) true lf in
       Ok (str_flag any_visibility_flag +++ " " +++ str_flag narrow_visibility_flag)).

Definition flag_lines (flag : string) (names : list string) : string :=
  concat_strings (map (fun name => name +++ ";" +++ flag +++ newline) names).

Definition get_all_visible_basetypes (env : Env B) (loot_filter : option LF)
  (function_params : list string) : result outcome :=
  getter env loot_filter function_params 0
    (fun lf =>
       let* visible_base_types_any := GetAllVisibleBaseTypes B false lf in
       let* visible_base_types_rare := GetAllVisibleBaseTypes B true lf in
       let visible_base_types_rare_only :=
         set_difference_list B visible_base_types_rare visible_base_types_any in
       remove_final_newline_guarded
         (flag_lines "0" visible_base_types_any
          +++ flag_lines "1" visible_base_types_rare_only)).

Definition get_all_visible_flasks (env : Env B) (loot_filter : option LF)
  (function_params : list string) : result outcome :=
  getter env loot_filter function_params 0
    (fun lf =>
       let* visible_flask_types_any_ilvl := GetAllVisibleFlaskTypes B false lf in
       let* visible_flask_types_high_ilvl := GetAllVisibleFlaskTypes B true lf in
       remove_final_newline_guarded
         (flag_lines "0" visible_flask_types_any_ilvl
          +++ flag_lines "1" visible_flask_types_high_ilvl)).

Definition add_remove_socket_rule (env : Env B) (loot_filter : option LF)
  (function_params : list string) : result outcome :=
  let function_params :=
    match function_params with
    | [socket_string; add_flag_string] => [socket_string; "any"; add_flag_string]
    | _ => function_params
    end in
  let* _ := CheckNumParams function_params 3 in
  let socket_string := param 0 function_params in
  let item_slot := param 1 function_params in
  let* add_flag := py_bool_int (param 2 function_params) in
  setter env loot_filter function_params
    (if add_flag then AddSocketRule B socket_string item_slot
     else RemoveSocketRule B socket_string item_slot).

Definition get_all_added_socket_rules (env : Env B) (loot_filter : option LF)
  (function_params : list string) : result outcome :=
  getter env loot_filter function_params 0
    (fun lf =>
       let* rules := GetAllAddedSocketRules B lf in
       Ok (join_lines (map (fun pair => fst pair +++ ";" +++ snd pair) rules))).

Definition set_chaos_recipe_enabled_for (env : Env B) (loot_filter : option LF)
  (function_params : list string) : result outcome :=
  let* _ := CheckNumParams function_params 2 in
  let item_slot := param 0 function_params in
  let* enable_flag := py_bool_int (param 1 function_params) in
  setter env loot_filter function_params (SetChaosRecipeEnabledFor B item_slot enable_flag).

Definition get_all_chaos_recipe_statuses (env : Env B) (loot_filter : option LF)
  (function_params : list string) : result outcome :=
  let* _ := CheckNumParams function_params 0 in
  let* output_string :=
    for_each (kItemSlots B)
      (fun output_string item_slot =>
         let* lf := the_filter loot_filter in
         let* enabled := IsChaosRecipeEnabledFor B item_slot lf in
         Ok (output_string +++ item_slot +++ ";" +++ str_flag enabled +++ newline))
      "" in
  let* output_string := remove_final_newline output_string in
  Ok (env, loot_filter, output_string, function_params).

Definition map_result {A C : Type} (f : A -> C) (r : result A) : result C :=
  let* a := r in Ok (f a).

(** The if/elif chain of DelegateFunctionCall after the two branches that
    need [not in_batch] (import and run_batch, see DelegateFunctionCall
    below).  A name that no branch matches is not supported. *)
Definition command_body (input_lines : list string) (env : Env B)
  (loot_filter : option LF) (function_name : string) (function_params : list string)
  : result outcome :=
  let name_is := String.eqb function_name in
  let get := getter env loot_filter function_params in
  let set_int := int_setter env loot_filter function_params in
  if name_is "check_filters_exist" then
    check_filters_exist env loot_filter function_params
  else if name_is "is_first_launch" then
    is_first_launch env loot_filter function_params
  else if name_is "get_all_profile_names" then
    get_all_profile_names env loot_filter function_params
  else if name_is "create_new_profile" then
    create_new_profile input_lines env loot_filter function_params
  else if name_is "rename_profile" then
    rename_profile env loot_filter function_params
  else if name_is "delete_profile" then
    delete_profile env loot_filter function_params
  else if name_is "set_active_profile" then
    set_active_profile env loot_filter function_params
  else if name_is "get_rule_matching_item" then
    get_rule_matching_item input_lines env loot_filter function_params
  else if name_is "set_rule_visibility" then
    set_rule_visibility env loot_filter function_params
  else if name_is "set_currency_to_tier" then
    set_currency_to_tier env loot_filter function_params
  else if name_is "get_tier_of_currency" then
    get 1 (fun lf => map_result str_Z (GetTierOfCurrency B (param 0 function_params) lf))
  else if name_is "get_all_currency_tiers" then
    get_all_currency_tiers env loot_filter function_params
  else if name_is "set_currency_tier_min_visible_stack_size" then
    set_currency_tier_min_visible_stack_size env loot_filter function_params
  else if name_is "get_currency_tier_min_visible_stack_size" then
    get 1 (GetCurrencyTierMinVisibleStackSize B (param 0 function_params))
  else if name_is "get_all_essence_tier_visibilities" then
    tier_visibilities env loot_filter function_params (kNumEssenceTiers B)
      (GetEssenceTierVisibility B)
  else if name_is "set_hide_essences_above_tier" then
    set_int (SetHideEssencesAboveTierTier B)
  else if name_is "get_hide_essences_above_tier" then
    get 0 (fun lf => map_result str_Z (GetHideEssencesAboveTierTier B lf))
  else if name_is "get_all_div_card_tier_visibilities" then
    tier_visibilities env loot_filter function_params (kNumDivCardTiers B)
      (GetDivCardTierVisibility B)
  else if name_is "set_hide_div_cards_above_tier" then
    set_int (SetHideDivCardsAboveTierTier B)
  else if name_is "get_hide_div_cards_above_tier" then
    get 0 (fun lf => map_result str_Z (GetHideDivCardsAboveTierTier B lf))
  else if name_is "get_all_unique_item_tier_visibilities" then
    tier_visibilities env loot_filter function_params (kNumUniqueItemTiers B)
      (GetUniqueItemTierVisibility B)
  else if name_is "set_hide_unique_items_above_tier" then
    set_int (SetHideUniqueItemsAboveTierTier B)
  else if name_is "get_hide_unique_items_above_tier" then
    get 0 (fun lf => map_result str_Z (GetHideUniqueItemsAboveTierTier B lf))
  else if name_is "get_all_unique_map_tier_visibilities" then
    tier_visibilities env loot_filter function_params (kNumUniqueMapTiers B)
      (GetUniqueMapTierVisibility B)
  else if name_is "set_hide_unique_maps_above_tier" then
    set_int (SetHideUniqueMapsAboveTierTier B)
  else if name_is "get_hide_unique_maps_above_tier" then
    get 0 (fun lf => map_result str_Z (GetHideUniqueMapsAboveTierTier B lf))
  else if name_is "set_lowest_visible_oil" then
    let* _ := CheckNumParams function_params 1 in
    setter env loot_filter function_params (SetLowestVisibleOil B (param 0 function_params))
  else if name_is "get_lowest_visible_oil" then
    get 0 (GetLowestVisibleOil B)
  else if name_is "set_gem_min_quality" then
    set_int (SetGemMinQuality B)
  else if name_is "get_gem_min_quality" then
    get 0 (fun lf => map_result str_Z (GetGemMinQuality B lf))
  else if name_is "set_flask_min_quality" then
    set_int (SetFlaskMinQuality B)
  else if name_is "get_flask_min_quality" then
    get 0 (fun lf => map_result str_Z (GetFlaskMinQuality B lf))
  else if name_is "set_hide_maps_below_tier" then
    set_int (SetHideMapsBelowTierTier B)
  else if name_is "get_hide_maps_below_tier" then
    get 0 (fun lf => map_result str_Z (GetHideMapsBelowTierTier B lf))
  else if name_is "set_basetype_visibility" then
    set_two_flag_visibility env loot_filter function_params (SetBaseTypeRuleEnabledFor B)
  else if name_is "get_basetype_visibility" then
    get_two_flag_visibility env loot_filter function_params (IsBaseTypeRuleEnabledFor B)
  else if name_is "get_all_visible_basetypes" then
    get_all_visible_basetypes env loot_filter function_params
  else if name_is "set_flask_visibility" then
    set_two_flag_visibility env loot_filter function_params (SetFlaskRuleEnabledFor B)
  else if name_is "get_flask_visibility" then
    get_two_flag_visibility env loot_filter function_params (IsFlaskRuleEnabledFor B)
  else if name_is "get_all_visible_flasks" then
    get_all_visible_flasks env loot_filter function_params
  else if name_is "add_remove_socket_rule" then
    add_remove_socket_rule env loot_filter function_params
  else if name_is "get_all_added_socket_rules" then
    get_all_added_socket_rules env loot_filter function_params
  else if name_is "set_rgb_item_max_size" then
    let* _ := CheckNumParams function_params 1 in
    setter env loot_filter function_params (SetRgbItemMaxSize B (param 0 function_params))
  else if name_is "get_rgb_item_max_size" then
    get 0 (GetRgbItemMaxSize B)
  else if name_is "set_chaos_recipe_enabled_for" then
    set_chaos_recipe_enabled_for env loot_filter function_params
  else if name_is "is_chaos_recipe_enabled_for" then
    get 1 (fun lf => map_result str_flag
                       (IsChaosRecipeEnabledFor B (param 0 function_params) lf))
  else if name_is "get_all_chaos_recipe_statuses" then
    get_all_chaos_recipe_statuses env loot_filter function_params
  else
    Raise RuntimeError.                         (* command not supported *)

(** *** UpdateProfileChangesFile *)

(** [p in s] for two strings *)
Definition is_substring (p s : string) : bool :=
  match String.index 0 p s with Some _ => true | None => false end.

(** The search for a function of the changes file that matches the new
    one.  Its result is not used, but its indexing can raise.
    [k] counts the parameters still to compare. *)
Fixpoint match_existing_walk (k : nat) (new_function_params : list string)
  (current_dict : node) : result unit :=
  match k with
  | 0 => Ok tt
  | S k' =>
      match new_function_params with
      | [] => Raise IndexError                  (* new_function_params[i] *)
      | current_param :: rest =>
          match current_dict with
          | Dict items =>
              match dict_get current_param items with
              | None => Ok tt                   (* match_flag = False; break *)
              | Some next => match_existing_walk k' rest next
              end
          | Leaf s =>
              if is_substring current_param s
              then Raise TypeError              (* a str indexed by a str *)
              else Ok tt
          end
      end
  end.

Definition match_existing (new_function_name : string)
  (new_function_params : list string) (parsed_changes_dict : changes_dict)
  : result unit :=
  let* k := num_params_for_match new_function_name in
  match dict_get new_function_name parsed_changes_dict with
  | Some current_dict => match_existing_walk k new_function_params current_dict
  | None => Ok tt
  end.

(** The changes file is parsed line by line into the trie. *)
Definition parse_changes (changes_lines_list : list string) : result changes_dict :=
  for_each changes_lines_list
    (fun parsed_changes_dict line =>
       let* tokens_list := shlex_split (py_strip line) in
       AddFunctionToChangesDict tokens_list parsed_changes_dict)
    [].

Definition ConvertChangesDictToFunctionList (changes : changes_dict) : list string :=
  map JoinParams (ConvertChangesDictToFunctionListRec (Dict changes) []).

(** The new content of the changes file, or the exception raised before
    the file is written. *)
Definition updated_changes (changes_lines_list : list string)
  (new_function_name : string) (new_function_params : list string)
  : result (list string) :=
  let* parsed_changes_dict := parse_changes changes_lines_list in
  let* _ := match_existing new_function_name new_function_params parsed_changes_dict in
  let* parsed_changes_dict :=
    AddFunctionToChangesDict (new_function_name :: new_function_params)
      parsed_changes_dict in
  Ok (ConvertChangesDictToFunctionList parsed_changes_dict).

(** *** The files and the effects of a run *)

Inductive event : Type :=
| WriteOutput (output_string : string)
| AppendFunctionOutput (function_output_string : string)
| WriteChanges (changes_list : list string)
| SaveToFile (loot_filter : LF).

(** file_helper.ReadFile gives the lines that file_helper.WriteToFile
    stored.  An exception raised inside a branch ends the run; what the
    collaborators had changed before raising is not kept. *)
Record World : Type := mkWorld {
  env : Env B;
  changes_file : list string;       (* the lines of Profile.changes *)
  input_file : list string;         (* the lines of backend_cli.input *)
  events : list event               (* in the order they happened *)
}.

Definition log_event (e : event) (w : World) : World :=
  mkWorld (env w) (changes_file w) (input_file w) (events w ++ [e]).

Definition with_env (env' : Env B) (w : World) : World :=
  mkWorld env' (changes_file w) (input_file w) (events w).

Definition UpdateProfileChangesFile (new_function_name : string)
  (new_function_params : list string) (w : World) : World * result unit :=
  match updated_changes (changes_file w) new_function_name new_function_params with
  | Ok changes_list =>
      (mkWorld (env w) changes_list (input_file w)
         (events w ++ [WriteChanges changes_list]),
       Ok tt)
  | Raise e => (w, Raise e)
  end.

(** [loot_filter.SaveToFile()] *)
Definition save_filter (loot_filter : option LF) (w : World) : World * result unit :=
  match the_filter loot_filter with
  | Ok lf => (log_event (SaveToFile lf) w, Ok tt)
  | Raise e => (w, Raise e)
  end.

(** *** DelegateFunctionCall *)

(** A call with [in_batch = True]: the branch, the output, and the
    update of the changes file; never a save. *)
Definition DelegateFunctionCall_in_batch (suppress_output : bool)
  (loot_filter : option LF) (function_name : string) (function_params : list string)
  (w : World) : World * result (option LF) :=
  match command_body (input_file w) (env w) loot_filter function_name function_params with
  | Raise e => (w, Raise e)
  | Ok (env', loot_filter', output_string, function_params') =>
      let w1 := with_env env' w in
      let w2 :=
        if suppress_output then w1
        else log_event (AppendFunctionOutput (output_string +++ newline +++ "@" +++ newline)) w1 in
      match modifies_filter function_name with
      | Raise e => (w2, Raise e)
      | Ok modifies =>
          if modifies && negb suppress_output then
            match the_config loot_filter' with
            | Raise e => (w2, Raise e)
            | Ok _ =>
                let (w3, r) := UpdateProfileChangesFile function_name function_params' w2 in
                (w3, let* _ := r in Ok loot_filter')
            end
          else (w2, Ok loot_filter')
      end
  end.

(** [_function_name, *_function_params = shlex.split(function_call_string)] *)
Definition split_call (function_call_string : string) : result (string * list string) :=
  let* tokens := shlex_split function_call_string in
  match tokens with
  | [] => Raise ValueError                      (* not enough values to unpack *)
  | function_name :: function_params => Ok (function_name, function_params)
  end.

(** The loop of import_downloaded_filter and load_input_filter. *)
Fixpoint replay_changes (changes_lines : list string) (loot_filter : option LF)
  (w : World) : World * result (option LF) :=
  match changes_lines with
  | [] => (w, Ok loot_filter)
  | function_call_string :: rest =>
      match split_call function_call_string with
      | Raise e => (w, Raise e)
      | Ok (function_name, function_params) =>
          match DelegateFunctionCall_in_batch true loot_filter function_name
                  function_params w with
          | (w', Ok loot_filter') => replay_changes rest loot_filter' w'
          | (w', Raise e) => (w', Raise e)
          end
      end
  end.

(** The loop of run_batch; [contains_mutator] is the flag of the source. *)
Fixpoint run_batch_loop (function_call_list : list string) (contains_mutator : bool)
  (loot_filter : option LF) (w : World) : World * result (bool * option LF) :=
  match function_call_list with
  | [] => (w, Ok (contains_mutator, loot_filter))
  | function_call_string :: rest =>
      if String.eqb (py_strip function_call_string) "" then
        run_batch_loop rest contains_mutator loot_filter w
      else
        match split_call function_call_string with
        | Raise e => (w, Raise e)
        | Ok (function_name, function_params) =>
            match modifies_filter function_name with
            | Raise e => (w, Raise e)
            | Ok modifies =>
                match DelegateFunctionCall_in_batch false loot_filter function_name
                        function_params w with
                | (w', Ok loot_filter') =>
                    run_batch_loop rest (modifies || contains_mutator) loot_filter' w'
                | (w', Raise e) => (w', Raise e)
                end
            end
        end
  end.

Definition import_or_load (loot_filter : option LF) (function_params : list string)
  (w : World) : World * result (option LF) :=
  match CheckNumParams function_params 0 with
  | Raise e => (w, Raise e)
  | Ok _ =>
      match the_config loot_filter with
      | Raise e => (w, Raise e)
      | Ok _ =>
          match replay_changes (changes_file w) loot_filter w with
          | (w', Raise e) => (w', Raise e)
          | (w', Ok loot_filter') =>
              let (w'', r) := save_filter loot_filter' w' in
              (w'', let* _ := r in Ok loot_filter')
          end
      end
  end.

Definition run_batch (loot_filter : option LF) (function_params : list string)
  (w : World) : World * result (option LF) :=
  match CheckNumParams function_params 0 with
  | Raise e => (w, Raise e)
  | Ok _ =>
      let w0 := log_event (WriteOutput "") w in
      match run_batch_loop (input_file w0) false loot_filter w0 with
      | (w', Raise e) => (w', Raise e)
      | (w', Ok (contains_mutator, loot_filter')) =>
          if contains_mutator then
            let (w'', r) := save_filter loot_filter' w' in
            (w'', let* _ := r in Ok loot_filter')
          else (w', Ok loot_filter')
      end
  end.

(** A call with [in_batch = False], the way main_impl calls it. *)
Definition DelegateFunctionCall (loot_filter : option LF) (function_name : string)
  (function_params : list string) (w : World) : World * result (option LF) :=
  let branch :=
    if String.eqb function_name "import_downloaded_filter"
       || String.eqb function_name "load_input_filter" then
      match import_or_load loot_filter function_params w with
      | (w', Ok loot_filter') => (w', Ok (loot_filter', "", function_params))
      | (w', Raise e) => (w', Raise e)
      end
    else if String.eqb function_name "run_batch" then
      match run_batch loot_filter function_params w with
      | (w', Ok loot_filter') => (w', Ok (loot_filter', "", function_params))
      | (w', Raise e) => (w', Raise e)
      end
    else
      match command_body (input_file w) (env w) loot_filter function_name
              function_params with
      | Ok (env', loot_filter', output_string, function_params') =>
          (with_env env' w, Ok (loot_filter', output_string, function_params'))
      | Raise e => (w, Raise e)
      end in
  match branch with
  | (w1, Raise e) => (w1, Raise e)
  | (w1, Ok (loot_filter', output_string, function_params')) =>
      let w2 :=
        if String.eqb function_name "run_batch" then w1
        else log_event (WriteOutput output_string) w1 in
      match modifies_filter function_name with
      | Raise e => (w2, Raise e)
      | Ok modifies =>
          if modifies then
            match save_filter loot_filter' w2 with
            | (w3, Raise e) => (w3, Raise e)
            | (w3, Ok _) =>
                match the_config loot_filter' with
                | Raise e => (w3, Raise e)
                | Ok _ =>
                    let (w4, r) :=
                      UpdateProfileChangesFile function_name function_params' w3 in
                    (w4, let* _ := r in Ok loot_filter')
                end
            end
          else (w2, Ok loot_filter')
      end
  end.

(** *** main *)

(** ValidateAndParseArguments over [sys.argv]: the function name, its
    parameters and the profile name (None without a profile parameter). *)
Definition ValidateAndParseArguments (argv : list string) (e : Env B)
  : result (string * list string * option string) :=
  match argv with
  | [] | [_] => Raise RuntimeError              (* No function specified *)
  | _ :: function_name :: remaining_params =>
      let* info := dict_item function_name kFunctionInfoMap in
      let* parsed :=
        if HasProfileParam info then
          match remaining_params with
          | [] => Raise RuntimeError            (* No profile specified *)
          | _ => Ok (removelast remaining_params, Some (last remaining_params ""))
          end
        else Ok (remaining_params, None) in
      let '(function_params, profile_name) := parsed in
      if negb (existsb (Nat.eqb (List.length function_params)) (NumParamsOptions info))
      then Raise RuntimeError                   (* Invalid number of parameters *)
      else
        match profile_name with
        | Some name =>
            if ProfileExists B name e
            then Ok (function_name, function_params, profile_name)
            else Raise RuntimeError             (* profile does not exist *)
        | None => Ok (function_name, function_params, profile_name)
        end
  end.

Definition main_impl (argv : list string) (w : World) : World * result unit :=
  match ValidateAndParseArguments argv (env w) with
  | Raise e => (w, Raise e)
  | Ok (function_name, function_params, profile_name) =>
      let input_filter_source :=
        if String.eqb function_name "import_downloaded_filter" then kDownload
        else if String.eqb function_name "load_input_filter" then kInput
        else kOutput in
      let made :=
        match profile_name with
        | Some name =>
            if String.eqb name "" then Ok None  (* an empty name is falsy *)
            else map_result Some (NewLootFilter B name input_filter_source (env w))
        | None => Ok None
        end in
      match made with
      | Raise e => (w, Raise e)
      | Ok loot_filter =>
          let (w', r) := DelegateFunctionCall loot_filter function_name function_params w in
          (w', let* _ := r in Ok tt)
      end
  end.

(** What main itself does around main_impl. *)
Inductive main_event : Type :=
| WriteExitCode (code : string)       (* file_helper.WriteToFile(code, kExitCodeFilename) *)
| LogTraceback (e : exn)              (* logger.Log(traceback.format_exc()) *)
| Inside (ev : event).                (* an effect of main_impl *)

(** The world at the start of a run: no effect has happened yet. *)
Definition at_start (w : World) : World :=
  mkWorld (env w) (changes_file w) (input_file w) [].

(** main: the effects in order, the world it leaves, and whether it
    returns or raises.  [except Exception] handles the exceptions that
    derive from Exception; any other passes through main untouched. *)
Definition main (argv : list string) (w : World)
  : list main_event * World * result unit :=
  match main_impl argv (at_start w) with
  | (w', Raise e) =>
      if derives_from_Exception e then
        ([WriteExitCode "-1"] ++ map Inside (events w')
           ++ [LogTraceback e; WriteExitCode "1"],
         w', Raise e)
      else
        ([WriteExitCode "-1"] ++ map Inside (events w'), w', Raise e)
  | (w', Ok _) =>
      ([WriteExitCode "-1"] ++ map Inside (events w') ++ [WriteExitCode "0"],
       w', Ok tt)
  end.

(** The content of backend_cli.exit_code after a sequence of effects. *)
Fixpoint exit_code_file (evs : list main_event) (content : option string)
  : option string :=
  match evs with
  | [] => content
  | WriteExitCode code :: evs' => exit_code_file evs' (Some code)
  | _ :: evs' => exit_code_file evs' content
  end.

End Dispatcher.

Arguments env {B} w.
Arguments changes_file {B} w.
Arguments input_file {B} w.
Arguments events {B} w.

(** ** A small backend to run the dispatcher on

    The loot filter is the list of the mutations applied to it, one line
    each; there is one rule per pair of tags except for the type tag
    "missing"; the profile "Corrupt" has a filter that cannot be parsed;
    the user interrupts the loading of the profile "Interrupted";
    [currency tier] lists the currency names of a tier. *)

Definition note (call : list string) (lf : list string) : result (list string) :=
  Ok (lf ++ [String.concat " " call]).

Definition toy_backend (currency : nat -> list string) : Backend :=
  {| LootFilter := list string;
     Env := unit;
     Rule := string * string;
     RuleVisibility := nat;
     kShow := 0;
     kHide := 1;
     kDisabledAny := 2;
     visibility_eqb := Nat.eqb;
     kNumCurrencyTiersExcludingScrolls := 9;
     kNumEssenceTiers := 7;
     kNumDivCardTiers := 8;
     kNumUniqueItemTiers := 5;
     kNumUniqueMapTiers := 4;
     kItemSlots := ["Weapons"; "Body Armours"; "Helmets"; "Gloves";
                    "Boots"; "Amulets"; "Rings"; "Belts"];
     set_difference_list :=
       fun a b => filter (fun x => negb (existsb (String.eqb x) b)) a;
     FiltersExist := fun _ _ => (true, true, true);
     GetAllProfileNames := fun _ => Ok ["Profile"];
     CreateNewProfile := fun _ _ e => Ok (e, false);
     RenameProfile := fun _ _ e => Ok e;
     DeleteProfile := fun _ e => Ok e;
     SetActiveProfile := fun _ e => Ok e;
     ProfileExists := fun _ _ => true;
     NewLootFilter :=
       fun name _ _ =>
         if String.eqb name "Corrupt" then Raise KeyError
         else if String.eqb name "Interrupted" then Raise KeyboardInterrupt
         else Ok [];
     GetRuleMatchingItem := fun _ _ => Ok (None, None);
     GetRule :=
       fun type_tag tier_tag _ =>
         if String.eqb type_tag "missing" then Raise KeyError
         else Ok (type_tag, tier_tag);
     text_lines := fun _ => [];
     SetVisibility :=
       fun rule v => note ["SetVisibility"; fst rule; snd rule; str_nat v];
     SetCurrencyToTier := fun name tier => note ["SetCurrencyToTier"; name; str_Z tier];
     GetTierOfCurrency := fun _ _ => Ok 1%Z;
     GetAllCurrencyInTier := fun tier _ => Ok (currency tier);
     SetCurrencyTierMinVisibleStackSize :=
       fun tier size => note ["SetCurrencyTierMinVisibleStackSize"; tier; size];
     GetCurrencyTierMinVisibleStackSize := fun _ _ => Ok "1";
     GetEssenceTierVisibility := fun _ _ => Ok 0;
     SetHideEssencesAboveTierTier :=
       fun tier => note ["SetHideEssencesAboveTierTier"; str_Z tier];
     GetHideEssencesAboveTierTier := fun _ => Ok 1%Z;
     GetDivCardTierVisibility := fun _ _ => Ok 0;
     SetHideDivCardsAboveTierTier :=
       fun tier => note ["SetHideDivCardsAboveTierTier"; str_Z tier];
     GetHideDivCardsAboveTierTier := fun _ => Ok 1%Z;
     GetUniqueItemTierVisibility := fun _ _ => Ok 0;
     SetHideUniqueItemsAboveTierTier :=
       fun tier => note ["SetHideUniqueItemsAboveTierTier"; str_Z tier];
     GetHideUniqueItemsAboveTierTier := fun _ => Ok 1%Z;
     GetUniqueMapTierVisibility := fun _ _ => Ok 0;
     SetHideUniqueMapsAboveTierTier :=
       fun tier => note ["SetHideUniqueMapsAboveTierTier"; str_Z tier];
     GetHideUniqueMapsAboveTierTier := fun _ => Ok 1%Z;
     SetLowestVisibleOil := fun oil => note ["SetLowestVisibleOil"; oil];
     GetLowestVisibleOil := fun _ => Ok "Clear Oil";
     SetGemMinQuality := fun q => note ["SetGemMinQuality"; str_Z q];
     GetGemMinQuality := fun _ => Ok 1%Z;
     SetFlaskMinQuality := fun q => note ["SetFlaskMinQuality"; str_Z q];
     GetFlaskMinQuality := fun _ => Ok 1%Z;
     SetHideMapsBelowTierTier := fun tier => note ["SetHideMapsBelowTierTier"; str_Z tier];
     GetHideMapsBelowTierTier := fun _ => Ok 1%Z;
     SetBaseTypeRuleEnabledFor :=
       fun base enable rare =>
         note ["SetBaseTypeRuleEnabledFor"; base; str_flag enable; str_flag rare];
     IsBaseTypeRuleEnabledFor := fun _ _ _ => Ok false;
     GetAllVisibleBaseTypes := fun _ _ => Ok [];
     SetFlaskRuleEnabledFor :=
       fun base enable high =>
         note ["SetFlaskRuleEnabledFor"; base; str_flag enable; str_flag high];
     IsFlaskRuleEnabledFor := fun _ _ _ => Ok false;
     GetAllVisibleFlaskTypes := fun _ _ => Ok [];
     AddSocketRule := fun sockets slot => note ["AddSocketRule"; sockets; slot];
     RemoveSocketRule := fun sockets slot => note ["RemoveSocketRule"; sockets; slot];
     GetAllAddedSocketRules := fun _ => Ok [];
     SetRgbItemMaxSize := fun size => note ["SetRgbItemMaxSize"; size];
     GetRgbItemMaxSize := fun _ => Ok "none";
     SetChaosRecipeEnabledFor :=
       fun slot enable => note ["SetChaosRecipeEnabledFor"; slot; str_flag enable];
     IsChaosRecipeEnabledFor := fun _ _ => Ok true |}.

Definition no_currency (tier : nat) : list string := [].

Definition some_currency (tier : nat) : list string :=
  if tier =? 5 then ["Chromatic Orb"] else [].

Definition toy_world (B : Backend) (e : Env B) (changes input : list string) : World B :=
  mkWorld B e changes input [].

(** ** Predicates and functions used to state and prove the properties *)

(** The entries a trie level holds: its keys are the heads of the entries
    in first-insertion order, and every child holds the entries below it. *)
Definition level_ok (P : string -> node -> list (list string) -> Prop)
  (items : list (string * node)) (es : list (list string)) : Prop :=
  map fst items = heads es /\
  forall h n, dict_get h items = Some n -> P h n (sub h es).

(** [Repr k n es]: the node [n], with [k] key tokens still to come, holds
    exactly the entries [es] (each of [k] key tokens and a value). *)
Fixpoint Repr (k : nat) (n : node) (es : list (list string)) : Prop :=
  Forall (fun e => List.length e = S k) es /\
  match k with
  | 0 => exists es0 v, n = Leaf v /\ es = es0 ++ [[v]]
  | S k' => exists items, n = Dict items /\ level_ok (fun _ => Repr k') items es
  end.

Definition entry_wf (e : list string) : Prop :=
  exists f rest k,
    e = f :: rest /\ num_params_for_match f = Ok k /\ List.length e = k + 2.

Definition ReprRoot (t : changes_dict) (es : list (list string)) : Prop :=
  Forall entry_wf es /\
  level_ok (fun f n es' => exists k, num_params_for_match f = Ok k /\ Repr k n es')
           t es.

Definition root_lines (f : string) (es : list (list string)) : list (list string) :=
  match num_params_for_match f with
  | Ok k => spec_lines k es
  | Raise _ => []
  end.

Definition lines_ok (L es : list (list string)) : Prop :=
  NoDup (map (@removelast string) L) /\
  forall l, In l L <->
            exists key v, l = key ++ [v] /\ last_value es key = Some v.




Definition plain_char (c : ascii) : bool :=
  negb (is_whitespace c) && negb (is_quote c) && negb (is_escape c).

Fixpoint all_chars (P : ascii -> bool) (s : string) : bool :=
  match s with
  | EmptyString => true
  | String c s' => P c && all_chars P s'
  end.

Definition quotable_char (c : ascii) : bool :=
  negb (Ascii.eqb c double_quote) && negb (is_escape c).

Definition needs_quote (s : string) : bool :=
  contains space s || contains single_quote s.

Definition nonempty (s : string) : bool :=
  match s with EmptyString => false | String _ _ => true end.

(** The strings that survive quoting and tokenizing. *)
Definition token_safe (s : string) : bool :=
  negb (contains double_quote s) && negb (contains backslash s)
  && (needs_quote s
      || (nonempty s && negb (contains tab s)
          && negb (contains carriage_return s) && negb (contains line_feed s))).

(** The three ways in which a line of the changes file is malformed. *)
Definition malformed (line : string) : Prop :=
  (exists e, shlex_split (py_strip line) = Raise e) \/
  (exists f rest, shlex_split (py_strip line) = Ok (f :: rest) /\
                  dict_get f kFunctionInfoMap = None) \/
  (exists f rest k, shlex_split (py_strip line) = Ok (f :: rest) /\
                    num_params_for_match f = Ok k /\
                    List.length (f :: rest) < k + 2).

(** One iteration of the loop of get_all_currency_tiers. *)
Definition currency_step (B : Backend) (lf : LootFilter B)
  (output_string : string) (tier : nat) : result string :=
  let* lf0 := the_filter B (Some lf) in
  let* currency_names := GetAllCurrencyInTier B tier lf0 in
  Ok (output_string
      +++ concat_strings
            (map (fun currency_name =>
                    currency_name +++ ";" +++ str_nat tier +++ newline)
                 currency_names)).

Definition is_exit_code_write {B : Backend} (ev : main_event B) : bool :=
  match ev with WriteExitCode _ _ => true | _ => false end.

Definition is_save {B : Backend} (ev : event B) : bool :=
  match ev with SaveToFile _ _ => true | _ => false end.

(** The number of SaveToFile calls so far. *)
Definition saves {B : Backend} (w : World B) : nat :=
  List.length (filter is_save (events w)).

(** Some line of the batch that is not blank calls a command with
    ModifiesFilter true. *)
Definition batch_contains_mutator (function_call_list : list string) : bool :=
  existsb (fun function_call_string =>
             negb (String.eqb (py_strip function_call_string) "")
             && match split_call function_call_string with
                | Ok (function_name, _) =>
                    match modifies_filter function_name with
                    | Ok modifies => modifies
                    | Raise _ => false
                    end
                | Raise _ => false
                end)
          function_call_list.

(** The lines of a batch executed one after the other, the blank ones
    skipped, each call dispatched with in_batch = True on the filter and
    the files that the previous one left, and none raising. *)
Inductive batch_steps (B : Backend)
  : list string -> option (LootFilter B) -> World B
    -> option (LootFilter B) -> World B -> Prop :=
| steps_done (lf : option (LootFilter B)) (w : World B) :
    batch_steps B [] lf w lf w
| steps_blank (line : string) (rest : list string)
    (lf lf' : option (LootFilter B)) (w w' : World B) :
    String.eqb (py_strip line) "" = true ->
    batch_steps B rest lf w lf' w' ->
    batch_steps B (line :: rest) lf w lf' w'
| steps_call (line : string) (rest : list string) (name : string)
    (params : list string) (lf lf1 lf' : option (LootFilter B)) (w w1 w' : World B) :
    String.eqb (py_strip line) "" = false ->
    split_call line = Ok (name, params) ->
    DelegateFunctionCall_in_batch B false lf name params w = (w1, Ok lf1) ->
    batch_steps B rest lf1 w1 lf' w' ->
    batch_steps B (line :: rest) lf w lf' w'.

Definition mutator_names : list string :=
  ["set_rule_visibility"; "set_currency_to_tier";
   "set_currency_tier_min_visible_stack_size"; "set_hide_essences_above_tier";
   "set_hide_div_cards_above_tier"; "set_hide_unique_items_above_tier";
   "set_hide_unique_maps_above_tier"; "set_lowest_visible_oil";
   "set_gem_min_quality"; "set_flask_min_quality"; "set_hide_maps_below_tier";
   "set_basetype_visibility"; "set_flask_visibility"; "add_remove_socket_rule";
   "set_rgb_item_max_size"; "set_chaos_recipe_enabled_for"].

(** Case analysis on a name that is compared with string literals. *)
Ltac name_cases name :=
  repeat match goal with
         | |- context [String.eqb ?lit name] =>
             let E := fresh "E" in
             destruct (String.eqb lit name) eqn:E;
             [apply String.eqb_eq in E; subst name|]
         | |- context [String.eqb name ?lit] =>
             let E := fresh "E" in
             destruct (String.eqb name lit) eqn:E;
             [apply String.eqb_eq in E; subst name|]
         end.

(** Splits the result of a branch along the calls that may raise. *)
Ltac split_branch H :=
  unfold rbind in H;
  repeat match type of H with
         | context [match ?x with _ => _ end] =>
             let E := fresh "E" in destruct x eqn:E; try discriminate H
         end.

Definition table_entry_ok (entry : string * FunctionInfo) : bool :=
  let info := snd entry in
  if ModifiesFilter info then
    match NumParamsForMatch info with
    | Some k => list_max (NumParamsOptions info) =? k + 1
    | None => false
    end
  else true.

Definition tier_setters : list string :=
  ["set_hide_essences_above_tier"; "set_hide_div_cards_above_tier";
   "set_hide_unique_items_above_tier"; "set_hide_unique_maps_above_tier";
   "set_hide_maps_below_tier"].

(** One replayed command, as it acts on the profile state and the
    filter: the branch of the dispatcher, with no output and no save. *)
Definition apply_call (B : Backend) (input : list string)
  (state : Env B * option (LootFilter B)) (call : list string)
  : result (Env B * option (LootFilter B)) :=
  match call with
  | [] => Raise ValueError
  | function_name :: function_params =>
      let* o := command_body B input (fst state) (snd state) function_name
                  function_params in
      Ok (fst (fst (fst o)), snd (fst (fst o)))
  end.

(** A backslash between double quotes must be followed by a character
    other than a backslash: it is then kept with that character. *)
Fixpoint escapes_ok (s : string) : bool :=
  match s with
  | EmptyString => true
  | String c s' =>
      if is_escape c then
        match s' with
        | EmptyString => false
        | String c' s'' => negb (is_escape c') && escapes_ok s''
        end
      else escapes_ok s'
  end.

(** The strings that QuoteStringIfRequired and shlex.split give back:
    a string that gets quoted, with well-placed backslashes; or a string
    that is written as it is, non-empty and with no backslash, tab,
    carriage return or line feed. *)
Definition roundtrip_ok (s : string) : bool :=
  if contains space s || contains single_quote s then escapes_ok s
  else nonempty s && negb (contains backslash s) && negb (contains tab s)
       && negb (contains carriage_return s) && negb (contains line_feed s).

(** The total length of the tokens of a result; used to tell a result
    from the expected one. *)
Fixpoint total_length (tokens : list string) : nat :=
  match tokens with
  | [] => 0
  | t :: ts => String.length t + total_length ts
  end.

(** The result is an exception or tokens of total length below [n]. *)
Definition short (r : result (list string)) (n : nat) : Prop :=
  match r with
  | Raise _ => True
  | Ok tokens => total_length tokens < n
  end.

(** As [short], with a bound that is strict when [strict] is 1. *)
Definition bounded (r : result (list string)) (strict n : nat) : Prop :=
  match r with
  | Raise _ => True
  | Ok tokens => total_length tokens + strict <= n
  end.

Definition is_special (c : ascii) : bool :=
  is_escape c || Ascii.eqb c tab || Ascii.eqb c carriage_return || Ascii.eqb c line_feed.

(** 1 when the string holds a backslash, a tab, a carriage return or a
    line feed, else 0. *)
Fixpoint strictness (s : string) : nat :=
  match s with
  | EmptyString => 0
  | String c s' => if is_special c then 1 else strictness s'
  end.

Definition unquoted_char (c : ascii) : bool :=
  negb (Ascii.eqb c space) && negb (is_quote c).

(** The tries that a sequence of AddFunctionToChangesDict calls builds
    from the empty OrderedDict. *)
Inductive reachable : changes_dict -> Prop :=
| reachable_empty : reachable []
| reachable_add (tokens : list string) (t t' : changes_dict) :
    reachable t -> AddFunctionToChangesDict tokens t = Ok t' -> reachable t'.

(** ** Further predicates and functions used to state properties *)

(** The characters of a parameter that survives a trip through the
    changes file: no double quote, no backslash, and no white space other
    than the space itself. *)
Definition line_char (c : ascii) : bool :=
  negb (Ascii.eqb c double_quote) && negb (is_escape c)
  && (negb (is_py_space c) || Ascii.eqb c space).

(** A parameter that is written to the changes file and read back
    unchanged. *)
Definition file_safe (s : string) : bool := nonempty s && all_chars line_char s.

(** Several runs of the program, each recording one mutator call in the
    changes file. *)
Fixpoint record_all (B : Backend) (calls : list (string * list string)) (w : World B)
  : World B * result unit :=
  match calls with
  | [] => (w, Ok tt)
  | (function_name, function_params) :: rest =>
      match UpdateProfileChangesFile B function_name function_params w with
      | (w', Ok _) => record_all B rest w'
      | (w', Raise e) => (w', Raise e)
      end
  end.

(** A call as the token list that UpdateProfileChangesFile records. *)
Definition call_tokens (call : string * list string) : list string :=
  fst call :: snd call.

(** The lexer is inside a token: the token read so far will be yielded. *)
Definition in_token (state escapedstate : lex_state) (token : string) (quoted : bool)
  : Prop :=
  match state with
  | StWord => token <> "" \/ quoted = true
  | StQuote _ => True
  | StEscape => escapedstate = StWord \/ exists q, escapedstate = StQuote q
  | StWhite | StEof => False
  end.

(** The content of backend_cli.output after a sequence of effects:
    WriteOutput opens the file with 'w', AppendFunctionOutput with 'a'. *)
Fixpoint output_file {B : Backend} (evs : list (event B)) (content : string) : string :=
  match evs with
  | [] => content
  | WriteOutput _ output_string :: evs' => output_file evs' output_string
  | AppendFunctionOutput _ text :: evs' => output_file evs' (content +++ text)
  | _ :: evs' => output_file evs' content
  end.

(** The text that AppendFunctionOutput writes for one output. *)
Definition output_block (function_output_string : string) : string :=
  function_output_string +++ newline +++ "@" +++ newline.

(** The lines of a batch that run_batch executes. *)
Definition executed_lines (function_call_list : list string) : list string :=
  filter (fun function_call_string =>
            negb (String.eqb (py_strip function_call_string) ""))
         function_call_list.

(** The texts appended to the output file by a sequence of effects
    that holds no WriteOutput; None when it holds one. *)
Fixpoint appended {B : Backend} (evs : list (event B)) : option (list string) :=
  match evs with
  | [] => Some []
  | WriteOutput _ _ :: _ => None
  | AppendFunctionOutput _ text :: evs' => option_map (cons text) (appended evs')
  | _ :: evs' => appended evs'
  end.

(** The last arguments of the command line: the profile name, if any. *)
Definition profile_part (profile_name : option string) : list string :=
  match profile_name with Some name => [name] | None => [] end.

(** [profile_name != None] *)
Definition has_profile (profile_name : option string) : bool :=
  match profile_name with Some _ => true | None => false end.

(** One line of a tier-visibility report. *)
Definition tier_line (B : Backend) (vis : nat -> RuleVisibility B) (tier : nat) : string :=
  str_nat tier +++ ";" +++ str_flag (visibility_eqb B (vis tier) (kShow B)).

(** The lines of the currency report: the names of tier 1, then those of
    tier 2, and so on. *)
Definition currency_lines (names : nat -> list string) (num_tiers : nat) : list string :=
  flat_map (fun tier => map (fun currency_name => currency_name +++ ";" +++ str_nat tier)
                            (names tier))
           (seq 1 num_tiers).

(** The lines `<name>;<flag>` of a list of names. *)
Definition tagged (flag : string) (names : list string) : list string :=
  map (fun name => name +++ ";" +++ flag) names.

(** What a tier-visibility report returns for [num_tiers] tiers whose
    visibilities are [vis]. *)
Definition tier_report (B : Backend) (e : Env B) (lf : LootFilter B)
  (num_tiers : nat) (vis : nat -> RuleVisibility B) : result (outcome B) :=
  if num_tiers =? 0 then Raise IndexError
  else Ok (e, Some lf, join_lines (map (tier_line B vis) (seq 1 num_tiers)), []).

(** * Proofs *)

(** ** The model on concrete inputs *)

Example scenario_B :
  rbind (fold_changes [["set_hide_maps_below_tier"; "10"];
                       ["set_hide_maps_below_tier"; "14"]] [])
        (fun t => Ok (flatten t))
  = Ok [["set_hide_maps_below_tier"; "14"]].
Proof. reflexivity. Qed.

Example grouped_by_name :
  rbind (fold_changes [["set_currency_to_tier"; "Chaos Orb"; "3"];
                       ["set_hide_maps_below_tier"; "10"];
                       ["set_currency_to_tier"; "Exalted Orb"; "1"];
                       ["set_currency_to_tier"; "Chaos Orb"; "5"]] [])
        (fun t => Ok (flatten t))
  = Ok [["set_currency_to_tier"; "Chaos Orb"; "5"];
        ["set_currency_to_tier"; "Exalted Orb"; "1"];
        ["set_hide_maps_below_tier"; "10"]].
Proof. reflexivity. Qed.

Example spec_flatten_example :
  spec_flatten [["set_currency_to_tier"; "Chaos Orb"; "3"];
                ["set_hide_maps_below_tier"; "10"];
                ["set_currency_to_tier"; "Exalted Orb"; "1"];
                ["set_currency_to_tier"; "Chaos Orb"; "5"]]
  = [["set_currency_to_tier"; "Chaos Orb"; "5"];
     ["set_currency_to_tier"; "Exalted Orb"; "1"];
     ["set_hide_maps_below_tier"; "10"]].
Proof. reflexivity. Qed.

Example shlex_split_quoted :
  shlex_split ("set_currency_to_tier " +++ String double_quote "Chaos Orb"
               +++ String double_quote " 3")
  = Ok ["set_currency_to_tier"; "Chaos Orb"; "3"].
Proof. reflexivity. Qed.

Example JoinParams_example :
  JoinParams ["set_currency_to_tier"; "Chaos Orb"; "3"]
  = "set_currency_to_tier " +++ String double_quote "Chaos Orb" +++ String double_quote " 3".
Proof. reflexivity. Qed.

Example run_batch_example :
  let B := toy_backend some_currency in
  main B ["backend_cli.py"; "run_batch"; "Profile"]
    (toy_world B tt []
       [JoinParams ["set_currency_to_tier"; "Chaos Orb"; "3"];
        "";
        "get_all_currency_tiers";
        JoinParams ["set_currency_to_tier"; "Chaos Orb"; "5"]])
  = ([WriteExitCode B "-1";
      Inside B (WriteOutput B "");
      Inside B (AppendFunctionOutput B (newline +++ "@" +++ newline));
      Inside B (WriteChanges B [JoinParams ["set_currency_to_tier"; "Chaos Orb"; "3"]]);
      Inside B (AppendFunctionOutput B ("Chromatic Orb;5" +++ newline +++ "@" +++ newline));
      Inside B (AppendFunctionOutput B (newline +++ "@" +++ newline));
      Inside B (WriteChanges B [JoinParams ["set_currency_to_tier"; "Chaos Orb"; "5"]]);
      Inside B (SaveToFile B ["SetCurrencyToTier Chaos Orb 3";
                              "SetCurrencyToTier Chaos Orb 5"]);
      WriteExitCode B "0"],
     mkWorld B tt [JoinParams ["set_currency_to_tier"; "Chaos Orb"; "5"]]
       [JoinParams ["set_currency_to_tier"; "Chaos Orb"; "3"];
        "";
        "get_all_currency_tiers";
        JoinParams ["set_currency_to_tier"; "Chaos Orb"; "5"]]
       [WriteOutput B "";
        AppendFunctionOutput B (newline +++ "@" +++ newline);
        WriteChanges B [JoinParams ["set_currency_to_tier"; "Chaos Orb"; "3"]];
        AppendFunctionOutput B ("Chromatic Orb;5" +++ newline +++ "@" +++ newline);
        AppendFunctionOutput B (newline +++ "@" +++ newline);
        WriteChanges B [JoinParams ["set_currency_to_tier"; "Chaos Orb"; "5"]];
        SaveToFile B ["SetCurrencyToTier Chaos Orb 3"; "SetCurrencyToTier Chaos Orb 5"]],
     Ok tt).
Proof. reflexivity. Qed.

Example invalid_tier_example :
  let B := toy_backend some_currency in
  main B ["backend_cli.py"; "set_currency_to_tier"; "Chaos Orb"; "a"; "Profile"]
    (toy_world B tt [] [])
  = ([WriteExitCode B "-1"; LogTraceback B ValueError; WriteExitCode B "1"],
     toy_world B tt [] [], Raise ValueError).
Proof. reflexivity. Qed.

Example py_int_examples :
  py_int "14" = Ok 14%Z /\ py_int " -3 " = Ok (-3)%Z /\ py_int "1_000" = Ok 1000%Z /\
  py_int "a" = Raise ValueError /\ py_int "" = Raise ValueError /\
  py_int "1__0" = Raise ValueError /\ py_int "+" = Raise ValueError /\
  py_int (String (Ascii.ascii_of_nat 11) "7") = Ok 7%Z /\
  py_int (String (Ascii.ascii_of_nat 160) "7") = Ok 7%Z /\
  py_int (String (Ascii.ascii_of_nat 28) "7") = Raise ValueError /\
  py_strip (String (Ascii.ascii_of_nat 28) "7") = "7".
Proof. repeat split. Qed.

(** ** Lists of strings *)

Lemma eqb_sym_false (x y : string) : String.eqb x y = false -> String.eqb y x = false.
Proof. rewrite !String.eqb_neq. congruence. Qed.

Lemma list_eqb_true (a b : list string) : list_eqb a b = true <-> a = b.
Proof. unfold list_eqb. destruct (list_eq_dec string_dec a b); split; congruence. Qed.

Lemma list_eqb_refl (a : list string) : list_eqb a a = true.
Proof. now apply list_eqb_true. Qed.

Lemma list_eqb_false (a b : list string) : list_eqb a b = false <-> a <> b.
Proof. unfold list_eqb. destruct (list_eq_dec string_dec a b); split; congruence. Qed.

Lemma existsb_eqb_In (x : string) (l : list string) :
  existsb (String.eqb x) l = true <-> In x l.
Proof.
  rewrite existsb_exists. split.
  - intros [y [Hy E]]. apply String.eqb_eq in E. now subst.
  - intros H. exists x. split; [assumption | apply String.eqb_refl].
Qed.

Lemma first_insertion_order_In (x : string) (l : list string) :
  In x (first_insertion_order l) <-> In x l.
Proof.
  induction l as [|a l IH]; simpl; [tauto|].
  rewrite filter_In, IH, negb_true_iff, String.eqb_neq.
  destruct (string_dec a x); intuition congruence.
Qed.

Lemma NoDup_filter {A : Type} (f : A -> bool) (l : list A) :
  NoDup l -> NoDup (filter f l).
Proof.
  induction 1 as [|a l Hn Hd IH]; simpl; [constructor|].
  destruct (f a); [constructor|]; auto.
  rewrite filter_In. tauto.
Qed.

Lemma first_insertion_order_NoDup (l : list string) : NoDup (first_insertion_order l).
Proof.
  induction l as [|a l IH]; simpl; constructor.
  - rewrite filter_In, negb_true_iff, String.eqb_neq. tauto.
  - now apply NoDup_filter.
Qed.

Lemma first_insertion_order_snoc (l : list string) (x : string) :
  first_insertion_order (l ++ [x]) =
  if existsb (String.eqb x) l then first_insertion_order l
  else first_insertion_order l ++ [x].
Proof.
  induction l as [|a l IH]; simpl; [reflexivity|].
  rewrite IH. destruct (existsb (String.eqb x) l) eqn:E.
  - now rewrite orb_true_r.
  - rewrite orb_false_r, filter_app. simpl.
    rewrite (String.eqb_sym x a).
    destruct (String.eqb a x); simpl; [now rewrite app_nil_r | reflexivity].
Qed.

(** ** OrderedDict operations *)

Lemma dict_get_od_set {V : Type} (k h : string) (v : V) (d : list (string * V)) :
  dict_get h (od_set k v d) = if String.eqb k h then Some v else dict_get h d.
Proof.
  induction d as [|[k' v'] d IH]; simpl.
  - destruct (String.eqb k h); reflexivity.
  - destruct (String.eqb k' k) eqn:E; simpl.
    + apply String.eqb_eq in E. subst k'. destruct (String.eqb k h); reflexivity.
    + destruct (String.eqb k' h) eqn:E'; [|exact IH].
      apply String.eqb_eq in E'. subst k'.
      now rewrite (eqb_sym_false _ _ E).
Qed.

Lemma od_mem_In {V : Type} (k : string) (d : list (string * V)) :
  od_mem k d = true <-> In k (map fst d).
Proof.
  unfold od_mem. induction d as [|[k' v'] d IH]; simpl.
  - split; [discriminate | tauto].
  - destruct (String.eqb k' k) eqn:E.
    + apply String.eqb_eq in E. tauto.
    + apply String.eqb_neq in E. rewrite IH. tauto.
Qed.

Lemma od_set_keys {V : Type} (k : string) (v : V) (d : list (string * V)) :
  map fst (od_set k v d) =
  if od_mem k d then map fst d else map fst d ++ [k].
Proof.
  unfold od_mem. induction d as [|[k' v'] d IH]; simpl; [reflexivity|].
  destruct (String.eqb k' k) eqn:E; simpl; [reflexivity|].
  rewrite IH. destruct (dict_get k d); reflexivity.
Qed.

Lemma dict_get_In {V : Type} (h : string) (n : V) (d : list (string * V)) :
  dict_get h d = Some n -> In (h, n) d.
Proof.
  induction d as [|[k' v'] d IH]; simpl; [discriminate|].
  destruct (String.eqb k' h) eqn:E.
  - apply String.eqb_eq in E. intros [= ->]. left. now subst.
  - auto.
Qed.

Lemma In_dict_get {V : Type} (h : string) (n : V) (d : list (string * V)) :
  NoDup (map fst d) -> In (h, n) d -> dict_get h d = Some n.
Proof.
  induction d as [|[k' v'] d IH]; simpl; [tauto|].
  intros Hnd [E|Hin]; inversion Hnd as [|? ? Hni Hnd']; subst.
  - inversion E; subst. now rewrite String.eqb_refl.
  - destruct (String.eqb k' h) eqn:E; [|auto].
    apply String.eqb_eq in E. subst k'. exfalso. apply Hni.
    change h with (fst (h, n)). now apply in_map.
Qed.

(** ** Levels of the trie and the entries they hold *)

Lemma heads_snoc (es : list (list string)) (e : list string) :
  heads (es ++ [e]) =
  if existsb (String.eqb (hd "" e)) (map (hd "") es) then heads es
  else heads es ++ [hd "" e].
Proof. unfold heads. rewrite map_app. simpl. apply first_insertion_order_snoc. Qed.

Lemma heads_NoDup (es : list (list string)) : NoDup (heads es).
Proof. apply first_insertion_order_NoDup. Qed.

Lemma sub_snoc (h : string) (es : list (list string)) (e : list string) :
  sub h (es ++ [e]) = sub h es ++ (if head_is h e then [tl e] else []).
Proof.
  unfold sub. rewrite filter_app, map_app. simpl.
  destruct (head_is h e); reflexivity.
Qed.

Lemma sub_nil_of_not_head (h : string) (es : list (list string)) :
  Forall (fun e => e <> []) es -> ~ In h (heads es) -> sub h es = [].
Proof.
  unfold heads, sub. rewrite first_insertion_order_In.
  induction 1 as [|e es He Hes IH]; simpl; [reflexivity|].
  intros Hn. destruct e as [|x e]; [congruence|]. simpl in *.
  destruct (String.eqb x h) eqn:E.
  - apply String.eqb_eq in E. tauto.
  - apply IH. tauto.
Qed.

Lemma sub_length (h : string) (m : nat) (es : list (list string)) :
  Forall (fun e => List.length e = S m) es ->
  Forall (fun e => List.length e = m) (sub h es).
Proof.
  unfold sub. induction 1 as [|e es He Hes IH]; simpl; [constructor|].
  destruct (head_is h e); simpl; [constructor|]; auto.
  destruct e; simpl in *; lia.
Qed.

Lemma Forall_length_nonempty (m : nat) (es : list (list string)) :
  Forall (fun e => List.length e = S m) es -> Forall (fun e => e <> []) es.
Proof. apply Forall_impl. intros [|x e]; simpl; [lia | congruence]. Qed.

Lemma entry_wf_nonempty (es : list (list string)) :
  Forall entry_wf es -> Forall (fun e => e <> []) es.
Proof. apply Forall_impl. intros e (f & rest & k & -> & _). congruence. Qed.

Lemma sub_entry_wf (f : string) (k : nat) (es : list (list string)) :
  Forall entry_wf es -> num_params_for_match f = Ok k ->
  Forall (fun e => List.length e = S k) (sub f es).
Proof.
  unfold sub. intros H Hk. induction H as [|e es He Hes IH]; simpl; [constructor|].
  destruct (head_is f e) eqn:E; simpl; [constructor|]; auto.
  destruct He as (f' & rest & k' & -> & Hk' & Hl). simpl in *.
  apply String.eqb_eq in E. subst f'. rewrite Hk in Hk'. inversion Hk'. lia.
Qed.

Lemma od_mem_heads (P : string -> node -> list (list string) -> Prop)
  (items : list (string * node)) (es : list (list string)) (h : string) :
  level_ok P items es ->
  od_mem h items = existsb (String.eqb h) (map (hd "") es).
Proof.
  intros [Hk _]. apply eq_true_iff_eq.
  rewrite od_mem_In, Hk, existsb_eqb_In. apply first_insertion_order_In.
Qed.

Lemma level_ok_set (P : string -> node -> list (list string) -> Prop)
  (items : list (string * node)) (es : list (list string))
  (h : string) (e' : list string) (n' : node) :
  level_ok P items es ->
  P h n' (sub h es ++ [e']) ->
  level_ok P (od_set h n' items) (es ++ [h :: e']).
Proof.
  intros Hl Hn. pose proof (od_mem_heads _ _ _ h Hl) as Hm. destruct Hl as [Hk Hc]. split.
  - rewrite od_set_keys, heads_snoc, Hm, Hk. reflexivity.
  - intros h0 n0. rewrite dict_get_od_set, sub_snoc. simpl.
    destruct (String.eqb h h0) eqn:E.
    + apply String.eqb_eq in E. subst h0. intros [= <-]. exact Hn.
    + rewrite app_nil_r. apply Hc.
Qed.

Lemma od_set_od_set {V : Type} (k : string) (v v' : V) (d : list (string * V)) :
  od_set k v' (od_set k v d) = od_set k v' d.
Proof.
  induction d as [|[k0 v0] d IH]; simpl.
  - now rewrite String.eqb_refl.
  - destruct (String.eqb k0 k) eqn:E; simpl; rewrite E; [reflexivity | now rewrite IH].
Qed.

(** One iteration of the loop that descends into (or creates) a child. *)
Lemma add_tokens_descend (P : string -> node -> list (list string) -> Prop)
  (k' : nat) (tok : string) (rest e' : list string)
  (items : list (string * node)) (es : list (list string)) (n' : node) :
  level_ok P items es ->
  Forall (fun e => e <> []) es ->
  (~ In tok (heads es) -> P tok (Dict []) []) ->
  (forall sub0 sub', P tok sub0 (sub tok es) ->
     add_tokens k' rest sub0 = Ok sub' -> P tok sub' (sub tok es ++ [e'])) ->
  add_tokens (S k') (tok :: rest) (Dict items) = Ok n' ->
  exists items', n' = Dict items' /\ level_ok P items' (es ++ [tok :: e']).
Proof.
  intros Hl Hne Hempty Hstep. simpl.
  pose proof Hl as [Hk Hc].
  destruct (od_mem tok items) eqn:Hm.
  - unfold dict_item. unfold od_mem in Hm.
    destruct (dict_get tok items) as [sub0|] eqn:Hg; [|discriminate]. simpl.
    destruct (add_tokens k' rest sub0) as [sub'|] eqn:Ha; simpl; [|discriminate].
    intros [= <-]. eexists. split; [reflexivity|].
    apply level_ok_set; [assumption|]. eapply Hstep; eauto.
  - unfold dict_item. rewrite dict_get_od_set, String.eqb_refl. simpl.
    destruct (add_tokens k' rest (Dict [])) as [sub'|] eqn:Ha; simpl; [|discriminate].
    intros [= <-]. eexists. split; [reflexivity|].
    rewrite od_set_od_set. apply level_ok_set; [assumption|].
    assert (Hni : ~ In tok (heads es)).
    { rewrite <- Hk, <- od_mem_In, Hm. discriminate. }
    eapply Hstep; [|exact Ha].
    rewrite (sub_nil_of_not_head _ _ Hne Hni). auto.
Qed.

Lemma Repr_empty_dict (k : nat) : Repr (S k) (Dict []) [].
Proof. split; [constructor|]. exists []. split; [reflexivity|]. split; [reflexivity|]. discriminate. Qed.

Lemma add_tokens_Repr (k : nat) :
  forall (tokens : list string) (n n' : node) (es : list (list string)),
    Repr (S k) n es ->
    add_tokens k tokens n = Ok n' ->
    Repr (S k) n' (es ++ [firstn (k + 2) tokens]) /\ k + 2 <= List.length tokens.
Proof.
  induction k as [|k IH]; intros tokens n n' es [Hlen (items & -> & Hl)] Hadd.
  - destruct tokens as [|tok [|v rest]]; simpl in Hadd; try discriminate.
    inversion Hadd; subst n'. simpl. split; [|lia].
    split; [apply Forall_app; split; [assumption | repeat constructor]|].
    eexists. split; [reflexivity|].
    apply level_ok_set; [assumption|].
    split; [|now exists (sub tok es), v].
    apply Forall_app. split; [now apply sub_length | repeat constructor].
  - destruct tokens as [|tok rest]; [discriminate|].
    assert (Hrest : forall sub0 sub', Repr (S k) sub0 (sub tok es) ->
              add_tokens k rest sub0 = Ok sub' ->
              Repr (S k) sub' (sub tok es ++ [firstn (k + 2) rest])).
    { intros sub0 sub' H0 Ha. now apply (IH rest sub0 sub'). }
    assert (Hlenrest : k + 2 <= List.length rest).
    { simpl in Hadd. unfold dict_item in Hadd.
      destruct (od_mem tok items) eqn:Hm.
      - unfold od_mem in Hm. destruct (dict_get tok items) as [sub0|] eqn:Hg; [|discriminate].
        simpl in Hadd.
        destruct (add_tokens k rest sub0) as [sub'|] eqn:Ha; [|discriminate].
        destruct Hl as [_ Hc]. apply (IH rest sub0 sub' (sub tok es)); auto.
      - rewrite dict_get_od_set, String.eqb_refl in Hadd. simpl in Hadd.
        destruct (add_tokens k rest (Dict [])) as [sub'|] eqn:Ha; [|discriminate].
        apply (IH rest (Dict []) sub' []); auto using Repr_empty_dict. }
    destruct (add_tokens_descend (fun _ => Repr (S k)) k tok rest (firstn (k + 2) rest)
                items es n' Hl (Forall_length_nonempty _ _ Hlen)
                (fun _ => Repr_empty_dict k) Hrest Hadd)
      as (items' & -> & Hl').
    split; [|simpl; lia].
    split; [|now exists items'].
    apply Forall_app. split; [assumption|]. constructor; [|constructor].
    simpl. rewrite firstn_length_le; lia.
Qed.

Lemma add_tokens_ok_length (k : nat) :
  forall (tokens : list string) (n n' : node),
    add_tokens k tokens n = Ok n' -> k + 2 <= List.length tokens.
Proof.
  induction k as [|k IH]; intros [|tok rest] n n' H; try discriminate.
  - destruct rest; [discriminate | simpl; lia].
  - simpl in H. destruct n as [|items]; [discriminate|].
    destruct (dict_item tok _) as [sub0|]; [simpl in H | discriminate].
    destruct (add_tokens k rest sub0) as [sub'|] eqn:Ha; [|discriminate].
    apply IH in Ha. simpl. lia.
Qed.

Lemma entry_of_cons (f : string) (rest : list string) (k : nat) :
  num_params_for_match f = Ok k ->
  entry_of (f :: rest) = f :: firstn (k + 1) rest.
Proof. intros H. unfold entry_of. rewrite H. now replace (k + 2) with (S (k + 1)) by lia. Qed.

Lemma AddFunctionToChangesDict_ok (tokens : list string) (t t' : changes_dict) :
  AddFunctionToChangesDict tokens t = Ok t' ->
  exists f rest k,
    tokens = f :: rest /\ num_params_for_match f = Ok k /\
    k + 2 <= List.length tokens /\ add_tokens k tokens (Dict t) = Ok (Dict t').
Proof.
  destruct tokens as [|f rest]; [discriminate|]. unfold AddFunctionToChangesDict.
  destruct (num_params_for_match f) as [k|] eqn:Hk; [simpl | discriminate].
  destruct (add_tokens k (f :: rest) (Dict t)) as [[|items]|] eqn:Ha; simpl; try discriminate.
  intros [= <-]. exists f, rest, k. repeat split; auto.
  exact (add_tokens_ok_length _ _ _ _ Ha).
Qed.

Lemma AddFunctionToChangesDict_ReprRoot (tokens : list string)
  (t t' : changes_dict) (es : list (list string)) :
  ReprRoot t es ->
  AddFunctionToChangesDict tokens t = Ok t' ->
  ReprRoot t' (es ++ [entry_of tokens]).
Proof.
  intros [Hwf Hl] Hadd.
  destruct (AddFunctionToChangesDict_ok _ _ _ Hadd) as (f & rest & k & -> & Hk & Hlen & Ha).
  rewrite (entry_of_cons _ rest _ Hk). simpl in Hlen.
  assert (Hwf' : Forall entry_wf (es ++ [f :: firstn (k + 1) rest])).
  { apply Forall_app. split; [assumption|]. constructor; [|constructor].
    exists f, (firstn (k + 1) rest), k. repeat split; auto.
    simpl. rewrite firstn_length_le; lia. }
  split; [assumption|].
  destruct k as [|k].
  - destruct rest as [|v rest]; [discriminate|]. simpl in Ha. inversion Ha; subst t'.
    simpl. apply level_ok_set; [assumption|].
    exists 0. split; [assumption|]. split; [|now exists (sub f es), v].
    apply Forall_app. split; [now apply sub_entry_wf | repeat constructor].
  - destruct (add_tokens_descend
                (fun f n es' => exists k, num_params_for_match f = Ok k /\ Repr k n es')
                k f rest (firstn (S k + 1) rest) t es (Dict t') Hl
                (entry_wf_nonempty _ Hwf)) as (items' & E & Hl'); auto.
    + intros _. exists (S k). split; [assumption | apply Repr_empty_dict].
    + intros sub0 sub' (k0 & Hk0 & Hr) Hs. rewrite Hk in Hk0. inversion Hk0; subst k0.
      exists (S k). split; [assumption|].
      replace (S k + 1) with (k + 2) by lia.
      now apply (add_tokens_Repr k rest sub0 sub').
    + inversion E; subst items'. exact Hl'.
Qed.

Lemma ReprRoot_empty : ReprRoot [] [].
Proof. split; [constructor|]. split; [reflexivity | discriminate]. Qed.

Lemma fold_changes_ReprRoot (cmds : list (list string)) :
  forall (t t' : changes_dict) (es : list (list string)),
    ReprRoot t es ->
    fold_changes cmds t = Ok t' ->
    ReprRoot t' (es ++ map entry_of cmds).
Proof.
  induction cmds as [|c cmds IH]; intros t t' es Hr; simpl.
  - intros [= <-]. now rewrite app_nil_r.
  - destruct (AddFunctionToChangesDict c t) as [t1|] eqn:Ha; simpl; [|discriminate].
    intros Hf. replace (es ++ entry_of c :: map entry_of cmds)
      with ((es ++ [entry_of c]) ++ map entry_of cmds) by now rewrite <- app_assoc.
    eapply IH; [|exact Hf]. eapply AddFunctionToChangesDict_ReprRoot; eauto.
Qed.

Lemma reachable_ReprRoot (cmds : list (list string)) (t : changes_dict) :
  fold_changes cmds [] = Ok t -> ReprRoot t (map entry_of cmds).
Proof. intros H. exact (fold_changes_ReprRoot cmds [] t [] ReprRoot_empty H). Qed.

(** ** Flattening a trie that holds the entries [es] *)


Lemma map_flat_map {A B C : Type} (f : B -> C) (g : A -> list B) (l : list A) :
  map f (flat_map g l) = flat_map (fun x => map f (g x)) l.
Proof. induction l as [|a l IH]; simpl; [reflexivity|]. now rewrite map_app, IH. Qed.

Lemma flat_map_ext_in {A B : Type} (f g : A -> list B) (l : list A) :
  (forall a, In a l -> f a = g a) -> flat_map f l = flat_map g l.
Proof.
  induction l as [|a l IH]; simpl; intros H; [reflexivity|].
  rewrite (H a), IH; auto.
Qed.

Lemma flat_map_items {B : Type} (F : string -> node -> list B)
  (items : list (string * node)) :
  NoDup (map fst items) ->
  flat_map (fun '(p, s) => F p s) items =
  flat_map (fun h => match dict_get h items with Some s => F h s | None => [] end)
           (map fst items).
Proof.
  induction items as [|[k v] items IH]; simpl; [reflexivity|].
  intros Hnd. inversion Hnd as [|? ? Hni Hnd']; subst.
  rewrite String.eqb_refl. f_equal. rewrite (IH Hnd').
  apply flat_map_ext_in. intros h Hh.
  destruct (String.eqb k h) eqn:E; [|reflexivity].
  apply String.eqb_eq in E. subst. contradiction.
Qed.

Lemma level_ok_NoDup (P : string -> node -> list (list string) -> Prop)
  (items : list (string * node)) (es : list (list string)) :
  level_ok P items es -> NoDup (map fst items).
Proof. intros [-> _]. apply heads_NoDup. Qed.

Lemma level_ok_child (P : string -> node -> list (list string) -> Prop)
  (items : list (string * node)) (es : list (list string)) (h : string) :
  level_ok P items es -> In h (heads es) ->
  exists n, dict_get h items = Some n /\ P h n (sub h es).
Proof.
  intros [Hk Hc] Hin. rewrite <- Hk, <- od_mem_In in Hin. unfold od_mem in Hin.
  destruct (dict_get h items) as [n|] eqn:E; [|discriminate].
  exists n. auto.
Qed.

Lemma flatten_level (P : string -> node -> list (list string) -> Prop)
  (G : string -> list (list string) -> list (list string))
  (items : list (string * node)) (es : list (list string)) (prefix : list string) :
  level_ok P items es ->
  (forall h n, P h n (sub h es) ->
     ConvertChangesDictToFunctionListRec n (prefix ++ [h]) =
     map (app (prefix ++ [h])) (G h (sub h es))) ->
  ConvertChangesDictToFunctionListRec (Dict items) prefix =
  map (app prefix) (flat_map (fun h => map (cons h) (G h (sub h es))) (heads es)).
Proof.
  intros Hl HG. simpl.
  rewrite (flat_map_items (fun p s => ConvertChangesDictToFunctionListRec s (prefix ++ [p]))
             items (level_ok_NoDup _ _ _ Hl)).
  rewrite map_flat_map. destruct Hl as [Hk Hc]. rewrite Hk.
  apply flat_map_ext_in. intros h Hh.
  destruct (level_ok_child P items es h (conj Hk Hc) Hh) as (n & -> & Hn).
  rewrite (HG h n Hn), map_map. apply map_ext. intros l.
  now rewrite <- app_assoc.
Qed.

Lemma Rec_Repr (k : nat) :
  forall (n : node) (es : list (list string)) (prefix : list string),
    Repr k n es ->
    ConvertChangesDictToFunctionListRec n prefix = map (app prefix) (spec_lines k es).
Proof.
  induction k as [|k IH]; intros n es prefix [Hlen Hr].
  - destruct Hr as (es0 & v & -> & ->). simpl. now rewrite last_last.
  - destruct Hr as (items & -> & Hl).
    apply (flatten_level (fun _ => Repr k) (fun _ => spec_lines k)); [assumption|].
    intros h n Hn. now apply IH.
Qed.

Lemma spec_flatten_root_lines (cmds : list (list string)) :
  spec_flatten cmds =
  flat_map (fun f => map (cons f) (root_lines f (sub f (map entry_of cmds))))
           (heads (map entry_of cmds)).
Proof.
  unfold spec_flatten, root_lines. apply flat_map_ext. intros f.
  destruct (num_params_for_match f); reflexivity.
Qed.

Lemma flatten_ReprRoot (t : changes_dict) (cmds : list (list string)) :
  ReprRoot t (map entry_of cmds) -> flatten t = spec_flatten cmds.
Proof.
  intros [Hwf Hl]. unfold flatten. rewrite spec_flatten_root_lines.
  rewrite (flatten_level _ root_lines t (map entry_of cmds) [] Hl).
  - rewrite <- (map_id (flat_map _ _)) at 2. reflexivity.
  - intros h n (k & Hk & Hr). unfold root_lines. rewrite Hk. now apply Rec_Repr.
Qed.


(** ** One line per key, carrying the value merged last *)


Lemma last_value_nonempty (es : list (list string)) (key : list string) (v : string) :
  last_value es key = Some v -> es <> [].
Proof. destruct es; [discriminate | congruence]. Qed.

Lemma last_value_singletons (es : list (list string)) (key : list string) :
  Forall (fun e => List.length e = 1) es ->
  last_value es key =
  match es, key with
  | _ :: _, [] => Some (last (last es []) "")
  | _, _ => None
  end.
Proof.
  induction 1 as [|e es He Hes IH]; [destruct key; reflexivity|].
  cbn [last_value]. rewrite IH.
  destruct e as [|x [|y e]]; simpl in He; try discriminate.
  destruct es as [|e2 es], key as [|a key]; reflexivity.
Qed.

Lemma last_value_nil_key (es : list (list string)) :
  Forall (fun e => 2 <= List.length e) es -> last_value es [] = None.
Proof.
  induction 1 as [|e es He Hes IH]; [reflexivity|]. simpl. rewrite IH.
  destruct e as [|x [|y e]]; simpl in He; try lia.
  destruct (list_eqb _ []) eqn:E; [|reflexivity].
  apply list_eqb_true in E. discriminate.
Qed.

Lemma last_value_sub (es : list (list string)) (h : string) (key : list string) :
  Forall (fun e => 2 <= List.length e) es ->
  last_value es (h :: key) = last_value (sub h es) key.
Proof.
  unfold sub. induction 1 as [|e es He Hes IH]; [reflexivity|].
  cbn [last_value filter]. rewrite IH.
  destruct e as [|x [|y e]]; simpl in He; try lia.
  cbn [head_is]. destruct (String.eqb x h) eqn:E.
  - apply String.eqb_eq in E. subst x. cbn [map tl last_value].
    destruct (last_value _ key); [reflexivity|].
    change (removelast (h :: y :: e)) with (h :: removelast (y :: e)).
    change (last (h :: y :: e) "") with (last (y :: e) "").
    destruct (list_eqb (removelast (y :: e)) key) eqn:E1.
    + apply list_eqb_true in E1. rewrite E1, list_eqb_refl. reflexivity.
    + apply list_eqb_false in E1.
      destruct (list_eqb (h :: _) (h :: key)) eqn:E2; [|reflexivity].
      apply list_eqb_true in E2. congruence.
  - destruct (last_value _ key); [reflexivity|].
    change (removelast (x :: y :: e)) with (x :: removelast (y :: e)).
    destruct (list_eqb (x :: _) (h :: key)) eqn:E2; [|reflexivity].
    apply list_eqb_true in E2. apply String.eqb_neq in E. congruence.
Qed.

Lemma heads_of_sub_nonempty (h : string) (es : list (list string)) :
  sub h es <> [] -> In h (heads es).
Proof.
  unfold sub, heads. rewrite first_insertion_order_In.
  induction es as [|e es IH]; simpl; [congruence|].
  destruct e as [|x e]; simpl; [tauto|].
  destruct (String.eqb x h) eqn:E; [|tauto].
  apply String.eqb_eq in E. auto.
Qed.

Lemma sub_nonempty_of_heads (h : string) (es : list (list string)) :
  Forall (fun e => e <> []) es -> In h (heads es) -> sub h es <> [].
Proof.
  unfold sub, heads. rewrite first_insertion_order_In.
  induction 1 as [|e es He Hes IH]; simpl; [tauto|].
  destruct e as [|x e]; [congruence|]. simpl.
  destruct (String.eqb x h) eqn:E; [discriminate|].
  apply String.eqb_neq in E. intros [?|?]; [congruence | auto].
Qed.

Lemma removelast_cons_snoc (h : string) (key : list string) (v : string) :
  removelast (h :: key ++ [v]) = h :: key.
Proof. change (h :: key ++ [v]) with ((h :: key) ++ [v]). apply removelast_last. Qed.

Lemma NoDup_map_cons (h : string) (l : list (list string)) :
  NoDup l -> NoDup (map (cons h) l).
Proof.
  induction 1 as [|a l Hni Hnd IH]; simpl; constructor; [|assumption].
  rewrite in_map_iff. intros (b & E & Hb). inversion E; subst. contradiction.
Qed.

Lemma lines_ok_level (G : string -> list (list string) -> list (list string))
  (es : list (list string)) :
  Forall (fun e => 2 <= List.length e) es ->
  (forall h, In h (heads es) -> lines_ok (G h (sub h es)) (sub h es)) ->
  lines_ok (flat_map (fun h => map (cons h) (G h (sub h es))) (heads es)) es.
Proof.
  intros Hlen HG.
  assert (Hne : Forall (fun e => e <> []) es).
  { revert Hlen. apply Forall_impl. intros [|x e]; simpl; [lia | congruence]. }
  split.
  - pose proof (heads_NoDup es) as Hnd. revert HG.
    generalize (heads es) as hs, Hnd.
    induction 1 as [|h hs Hni Hnd' IH]; intros HG; simpl; [constructor|].
    rewrite map_app. apply NoDup_app.
    + destruct (HG h (or_introl eq_refl)) as [Hn Hm].
      rewrite map_map.
      assert (E : map (fun l => removelast (h :: l)) (G h (sub h es)) =
                  map (cons h) (map (@removelast string) (G h (sub h es)))).
      { rewrite map_map. apply map_ext_in. intros l Hl.
        apply Hm in Hl. destruct Hl as (key & v & -> & _).
        now rewrite removelast_cons_snoc, removelast_last. }
      rewrite E. now apply NoDup_map_cons.
    + apply IH. intros h' Hh'. apply HG. now right.
    + intros key. rewrite !in_map_iff.
      intros (l & <- & Hl) (l2 & E2 & Hl2).
      apply in_map_iff in Hl. destruct Hl as (l' & <- & Hl').
      apply in_flat_map in Hl2. destruct Hl2 as (h2 & Hh2 & Hl2).
      apply in_map_iff in Hl2. destruct Hl2 as (l2' & <- & Hl2').
      apply (HG h (or_introl eq_refl)) in Hl'. destruct Hl' as (k1 & v1 & -> & _).
      apply (HG h2 (or_intror Hh2)) in Hl2'. destruct Hl2' as (k2 & v2 & -> & _).
      rewrite !removelast_cons_snoc in E2. inversion E2; subst. contradiction.
  - intros l. rewrite in_flat_map. split.
    + intros (h & Hh & Hl). apply in_map_iff in Hl. destruct Hl as (l' & <- & Hl').
      apply (HG h Hh) in Hl'. destruct Hl' as (key & v & -> & Hv).
      exists (h :: key), v. split; [reflexivity|]. now rewrite last_value_sub.
    + intros (key & v & -> & Hv). destruct key as [|h key].
      * rewrite last_value_nil_key in Hv by assumption. discriminate.
      * rewrite last_value_sub in Hv by assumption.
        assert (Hh : In h (heads es)).
        { apply heads_of_sub_nonempty. eapply last_value_nonempty; eauto. }
        exists h. split; [assumption|]. apply in_map_iff.
        exists (key ++ [v]). split; [reflexivity|].
        apply (HG h Hh). eauto.
Qed.

Lemma spec_lines_ok (k : nat) :
  forall es, Forall (fun e => List.length e = S k) es -> es <> [] ->
             lines_ok (spec_lines k es) es.
Proof.
  induction k as [|k IH]; intros es Hlen Hne.
  - assert (Hlv := fun key => last_value_singletons es key Hlen).
    destruct (exists_last Hne) as (es0 & e & ->).
    assert (He : List.length e = 1).
    { apply Forall_app in Hlen. destruct Hlen as [_ H]. now inversion H. }
    destruct e as [|v [|? ?]]; try discriminate.
    simpl. rewrite last_last. split; [repeat constructor; simpl; tauto|].
    intros l. simpl. split.
    + intros [<-|[]]. exists [], v. split; [reflexivity|]. rewrite Hlv, last_last.
      destruct es0; reflexivity.
    + intros (key & v' & -> & Hv). rewrite Hlv, last_last in Hv.
      destruct (es0 ++ [[v]]) eqn:E; [discriminate|].
      destruct key; [|discriminate]. inversion Hv. now left.
  - simpl. apply (lines_ok_level (fun _ => spec_lines k)).
    + revert Hlen. apply Forall_impl. intros; lia.
    + intros h Hh. apply IH; [now apply sub_length|].
      apply sub_nonempty_of_heads; [|assumption].
      now apply (Forall_length_nonempty (S k)).
Qed.

Lemma heads_entry_wf (f : string) (es : list (list string)) :
  Forall entry_wf es -> In f (heads es) ->
  exists k, num_params_for_match f = Ok k.
Proof.
  unfold heads. rewrite first_insertion_order_In, in_map_iff.
  intros Hwf (e & <- & He). rewrite Forall_forall in Hwf.
  destruct (Hwf e He) as (f & rest & k & -> & Hk & _). now exists k.
Qed.

Lemma entry_wf_length (es : list (list string)) :
  Forall entry_wf es -> Forall (fun e => 2 <= List.length e) es.
Proof. apply Forall_impl. intros e (f & rest & k & _ & _ & H). lia. Qed.

Lemma root_lines_ok (es : list (list string)) (f : string) :
  Forall entry_wf es -> In f (heads es) ->
  lines_ok (root_lines f (sub f es)) (sub f es).
Proof.
  intros Hwf Hf. destruct (heads_entry_wf f es Hwf Hf) as [k Hk].
  unfold root_lines. rewrite Hk. apply spec_lines_ok.
  - now apply sub_entry_wf.
  - apply sub_nonempty_of_heads; [now apply entry_wf_nonempty | assumption].
Qed.

Lemma spec_flatten_ok (cmds : list (list string)) :
  Forall entry_wf (map entry_of cmds) ->
  lines_ok (spec_flatten cmds) (map entry_of cmds).
Proof.
  intros Hwf. rewrite spec_flatten_root_lines.
  apply (lines_ok_level root_lines); [now apply entry_wf_length|].
  intros f Hf. now apply root_lines_ok.
Qed.

(** ** Merging a key that is already present *)

Lemma overwrite_line_flat_map {A : Type} (key : list string) (v : string)
  (g : A -> list (list string)) (l : list A) :
  overwrite_line key v (flat_map g l) = flat_map (fun x => overwrite_line key v (g x)) l.
Proof. apply map_flat_map. Qed.

Lemma overwrite_line_other_head (h h0 : string) (key : list string) (v : string)
  (L : list (list string)) :
  h0 <> h ->
  overwrite_line (h :: key) v (map (cons h0) L) = map (cons h0) L.
Proof.
  intros Hne. unfold overwrite_line. rewrite map_map. apply map_ext. intros l.
  destruct (list_eqb _ _) eqn:E; [|reflexivity].
  apply list_eqb_true in E. destruct l; simpl in E; [discriminate | congruence].
Qed.

Lemma overwrite_line_same_head (h : string) (key : list string) (v : string)
  (L : list (list string)) :
  Forall (fun l => l <> []) L ->
  overwrite_line (h :: key) v (map (cons h) L) = map (cons h) (overwrite_line key v L).
Proof.
  intros HL. unfold overwrite_line. rewrite !map_map. apply map_ext_in. intros l Hl.
  rewrite Forall_forall in HL. specialize (HL l Hl).
  destruct l as [|x l]; [congruence|].
  change (removelast (h :: x :: l)) with (h :: removelast (x :: l)).
  destruct (list_eqb (removelast (x :: l)) key) eqn:E.
  - apply list_eqb_true in E. rewrite E, list_eqb_refl. reflexivity.
  - apply list_eqb_false in E.
    destruct (list_eqb (h :: _) (h :: key)) eqn:E2; [|reflexivity].
    apply list_eqb_true in E2. congruence.
Qed.

Lemma lines_ok_nonempty (L es : list (list string)) :
  lines_ok L es -> Forall (fun l => l <> []) L.
Proof.
  intros [_ Hm]. apply Forall_forall. intros l Hl. apply Hm in Hl.
  destruct Hl as (key & v & -> & _). destruct key; discriminate.
Qed.

Lemma overwrite_level (G : string -> list (list string) -> list (list string))
  (es : list (list string)) (h : string) (e' : list string) :
  Forall (fun e => e <> []) es ->
  e' <> [] ->
  sub h es <> [] ->
  Forall (fun l => l <> []) (G h (sub h es)) ->
  G h (sub h es ++ [e']) =
    overwrite_line (removelast e') (last e' "") (G h (sub h es)) ->
  flat_map (fun h0 => map (cons h0) (G h0 (sub h0 (es ++ [h :: e'])))) (heads (es ++ [h :: e']))
  = overwrite_line (removelast (h :: e')) (last (h :: e') "")
      (flat_map (fun h0 => map (cons h0) (G h0 (sub h0 es))) (heads es)).
Proof.
  intros Hne He' Hsub HL HG.
  assert (Hh : In h (heads es)) by now apply heads_of_sub_nonempty.
  rewrite heads_snoc. simpl.
  assert (Hex : existsb (String.eqb h) (map (hd "") es) = true).
  { apply existsb_eqb_In. exact (proj1 (first_insertion_order_In _ _) Hh). }
  rewrite Hex, overwrite_line_flat_map.
  apply flat_map_ext. intros h0. rewrite sub_snoc. simpl.
  destruct e' as [|x e']; [congruence|].
  change (removelast (h :: x :: e')) with (h :: removelast (x :: e')).
  change (last (h :: x :: e') "") with (last (x :: e') "").
  destruct (String.eqb h h0) eqn:E.
  - apply String.eqb_eq in E. subst h0.
    rewrite overwrite_line_same_head by assumption. now rewrite HG.
  - apply String.eqb_neq in E. rewrite app_nil_r.
    rewrite overwrite_line_other_head; [reflexivity | congruence].
Qed.

Lemma spec_lines_overwrite (k : nat) :
  forall (es : list (list string)) (e : list string),
    Forall (fun e => List.length e = S k) es ->
    List.length e = S k ->
    last_value es (removelast e) <> None ->
    spec_lines k (es ++ [e]) =
    overwrite_line (removelast e) (last e "") (spec_lines k es).
Proof.
  induction k as [|k IH]; intros es e Hlen He Hv.
  - destruct e as [|v [|? ?]]; try discriminate. simpl.
    rewrite last_last.
    assert (Hne : es <> []) by (intros ->; now apply Hv).
    destruct (exists_last Hne) as (es0 & e0 & ->). rewrite last_last.
    apply Forall_app in Hlen. destruct Hlen as [_ H]. inversion H as [|? ? H0 _]; subst.
    destruct e0 as [|v0 [|? ?]]; try discriminate. reflexivity.
  - destruct e as [|h e']; [discriminate|]. simpl in He.
    assert (He' : e' <> []) by (destruct e'; [simpl in He; lia | congruence]).
    assert (Hl2 : Forall (fun e => 2 <= List.length e) es).
    { revert Hlen. apply Forall_impl. intros; lia. }
    assert (Hrl : removelast (h :: e') = h :: removelast e').
    { destruct e'; [congruence | reflexivity]. }
    rewrite Hrl, last_value_sub in Hv by assumption.
    assert (Hsub : sub h es <> []).
    { intros E. rewrite E in Hv. now apply Hv. }
    assert (Hsl : Forall (fun e => List.length e = S k) (sub h es)) by now apply sub_length.
    apply (overwrite_level (fun _ => spec_lines k)); auto.
    + now apply (Forall_length_nonempty (S k)).
    + eapply lines_ok_nonempty. now apply spec_lines_ok.
Qed.

Lemma spec_flatten_overwrite (cmds : list (list string)) (c : list string) :
  Forall entry_wf (map entry_of cmds) ->
  entry_wf (entry_of c) ->
  last_value (map entry_of cmds) (cmd_key c) <> None ->
  spec_flatten (cmds ++ [c]) =
  overwrite_line (cmd_key c) (cmd_value c) (spec_flatten cmds).
Proof.
  intros Hwf (f & e' & k & Ec & Hk & Hlen) Hv.
  rewrite !spec_flatten_root_lines, map_app. simpl.
  unfold cmd_key, cmd_value in *. rewrite Ec in *. simpl in Hlen.
  assert (He' : e' <> []) by (destruct e'; [simpl in Hlen; lia | congruence]).
  assert (Hrl : removelast (f :: e') = f :: removelast e').
  { destruct e'; [congruence | reflexivity]. }
  rewrite Hrl, last_value_sub in Hv by now apply entry_wf_length.
  assert (Hsub : sub f (map entry_of cmds) <> []).
  { intros E. rewrite E in Hv. now apply Hv. }
  assert (Hsl : Forall (fun e => List.length e = S k) (sub f (map entry_of cmds)))
    by now apply sub_entry_wf.
  apply (overwrite_level root_lines); auto.
  - now apply entry_wf_nonempty.
  - unfold root_lines. rewrite Hk.
    eapply lines_ok_nonempty. now apply spec_lines_ok.
  - unfold root_lines. rewrite Hk. apply spec_lines_overwrite; auto. lia.
Qed.

(** ** Keys and values of the merged commands *)

Lemma last_value_none (es : list (list string)) (key : list string) :
  ~ In key (map (@removelast string) es) -> last_value es key = None.
Proof.
  induction es as [|e es IH]; simpl; [reflexivity|]. intros Hn.
  rewrite IH by tauto. destruct (list_eqb (removelast e) key) eqn:E; [|reflexivity].
  apply list_eqb_true in E. tauto.
Qed.

Lemma last_value_some_iff (es : list (list string)) (key : list string) :
  (exists v, last_value es key = Some v) <-> In key (map (@removelast string) es).
Proof.
  split.
  - intros [v Hv]. destruct (in_dec (list_eq_dec string_dec) key (map (@removelast string) es))
      as [H|H]; [assumption|]. rewrite last_value_none in Hv by assumption. discriminate.
  - induction es as [|e es IH]; simpl; [tauto|]. intros [E|Hin].
    + destruct (last_value es key); [eauto|]. subst key. rewrite list_eqb_refl. eauto.
    + destruct (IH Hin) as [v ->]. eauto.
Qed.

Lemma map_cmd_key (cmds : list (list string)) :
  map cmd_key cmds = map (@removelast string) (map entry_of cmds).
Proof. now rewrite map_map. Qed.

Lemma lines_ok_keys (L es : list (list string)) (key : list string) :
  lines_ok L es ->
  (In key (map (@removelast string) L) <-> In key (map (@removelast string) es)).
Proof.
  intros [_ Hm]. rewrite <- (last_value_some_iff es key), in_map_iff. split.
  - intros (l & <- & Hl). apply Hm in Hl. destruct Hl as (key & v & -> & Hv).
    rewrite removelast_last. eauto.
  - intros [v Hv]. exists (key ++ [v]). split; [apply removelast_last|].
    apply Hm. eauto.
Qed.


Lemma entry_wf_snoc_last (e : list string) :
  entry_wf e -> e = removelast e ++ [last e ""].
Proof. intros (f & rest & k & -> & _). apply app_removelast_last. discriminate. Qed.

Lemma ReprRoot_add_wf (t t' : changes_dict) (c : list string) :
  AddFunctionToChangesDict c t = Ok t' -> entry_wf (entry_of c).
Proof.
  intros Ha. destruct (AddFunctionToChangesDict_ok _ _ _ Ha) as (f & rest & k & -> & Hk & Hlen & _).
  rewrite (entry_of_cons _ rest _ Hk). exists f, (firstn (k + 1) rest), k.
  repeat split; auto. simpl in *. rewrite firstn_length_le; lia.
Qed.

Lemma flatten_add_present (cmds : list (list string)) (t t' : changes_dict)
  (c : list string) :
  fold_changes cmds [] = Ok t ->
  In (cmd_key c) (map cmd_key cmds) ->
  AddFunctionToChangesDict c t = Ok t' ->
  flatten t' = overwrite_line (cmd_key c) (cmd_value c) (flatten t).
Proof.
  intros Hf Hin Ha.
  pose proof (reachable_ReprRoot cmds t Hf) as Hr.
  pose proof (AddFunctionToChangesDict_ReprRoot c t t' _ Hr Ha) as Hr'.
  change [entry_of c] with (map entry_of [c]) in Hr'. rewrite <- map_app in Hr'.
  rewrite (flatten_ReprRoot _ _ Hr), (flatten_ReprRoot _ _ Hr').
  apply spec_flatten_overwrite.
  - apply Hr.
  - eapply ReprRoot_add_wf; eauto.
  - rewrite map_cmd_key in Hin. apply last_value_some_iff in Hin.
    destruct Hin as [v ->]. discriminate.
Qed.

Lemma compaction_flatten_facts (cmds : list (list string)) (t : changes_dict) :
  fold_changes cmds [] = Ok t ->
  NoDup (map (@removelast string) (flatten t)) /\
  (forall key, In key (map (@removelast string) (flatten t)) <->
               In key (map cmd_key cmds)).
Proof.
  intros Hf. pose proof (reachable_ReprRoot cmds t Hf) as Hr.
  pose proof (spec_flatten_ok cmds (proj1 Hr)) as Hok.
  rewrite <- (flatten_ReprRoot _ _ Hr) in Hok.
  split; [apply Hok|]. intros key. rewrite map_cmd_key. now apply lines_ok_keys.
Qed.



(** ** The levels of a reachable trie *)








Lemma overwrite_line_keys (key : list string) (v : string) (L : list (list string)) :
  map (@removelast string) (overwrite_line key v L) = map (@removelast string) L.
Proof.
  unfold overwrite_line. rewrite map_map. apply map_ext. intros l.
  destruct (list_eqb (removelast l) key) eqn:E; [|reflexivity].
  apply list_eqb_true in E. now rewrite removelast_last.
Qed.





(** ** Quoting and tokenizing *)

Lemma append_nil_r (s : string) : s +++ "" = s.
Proof. induction s as [|c s IH]; simpl; [reflexivity | now rewrite IH]. Qed.

Lemma append_assoc (a b c : string) : (a +++ b) +++ c = a +++ (b +++ c).
Proof. induction a as [|x a IH]; simpl; [reflexivity | now rewrite IH]. Qed.

Lemma snoc_append (token : string) (c : ascii) (s : string) :
  snoc token c +++ s = token +++ String c s.
Proof. unfold snoc. now rewrite append_assoc. Qed.

Lemma contains_false_all (c : ascii) (s : string) :
  contains c s = false <-> all_chars (fun x => negb (Ascii.eqb x c)) s = true.
Proof.
  induction s as [|x s IH]; simpl; [tauto|].
  rewrite orb_false_iff, andb_true_iff, negb_true_iff, IH. tauto.
Qed.

Lemma all_chars_and (P Q : ascii -> bool) (s : string) :
  all_chars P s = true -> all_chars Q s = true ->
  all_chars (fun c => P c && Q c) s = true.
Proof.
  induction s as [|x s IH]; simpl; [reflexivity|].
  rewrite !andb_true_iff. intros [? ?] [? ?]. auto.
Qed.

Lemma all_chars_impl (P Q : ascii -> bool) (s : string) :
  (forall c, P c = true -> Q c = true) ->
  all_chars P s = true -> all_chars Q s = true.
Proof.
  intros H. induction s as [|x s IH]; simpl; [reflexivity|].
  rewrite !andb_true_iff. intros [? ?]. auto.
Qed.

(** Inside a word, plain characters are appended to the token. *)
Lemma read_tokens_word (s : string) :
  forall (rest : string) (esc : lex_state) (token : string) (quoted : bool),
    all_chars plain_char s = true ->
    read_tokens (s +++ rest) StWord esc token quoted =
    read_tokens rest StWord esc (token +++ s) quoted.
Proof.
  induction s as [|c s IH]; intros rest esc token quoted H; simpl.
  - now rewrite append_nil_r.
  - simpl in H. apply andb_true_iff in H. destruct H as [Hc Hs].
    unfold plain_char in Hc. rewrite !andb_true_iff, !negb_true_iff in Hc.
    destruct Hc as [[-> ->] ->]. rewrite (IH rest esc _ quoted Hs).
    now rewrite snoc_append.
Qed.

(** A word that starts between two tokens. *)
Lemma read_tokens_word_start (c : ascii) (s rest : string) (esc : lex_state) :
  all_chars plain_char (String c s) = true ->
  read_tokens (String c s +++ rest) StWhite esc "" false =
  read_tokens rest StWord esc (String c s) false.
Proof.
  simpl. intros H. apply andb_true_iff in H. destruct H as [Hc Hs].
  unfold plain_char in Hc. rewrite !andb_true_iff, !negb_true_iff in Hc.
  destruct Hc as [[-> ->] ->]. now rewrite read_tokens_word.
Qed.

(** Between double quotes, every character but the double quote and the
    backslash is appended to the token. *)
Lemma read_tokens_quoted (s : string) :
  forall (rest : string) (esc : lex_state) (token : string) (quoted : bool),
    all_chars quotable_char s = true ->
    read_tokens (s +++ String double_quote rest) (StQuote double_quote) esc token quoted =
    read_tokens rest StWord esc (token +++ s) true.
Proof.
  induction s as [|c s IH]; intros rest esc token quoted H; simpl.
  - now rewrite append_nil_r.
  - simpl in H. apply andb_true_iff in H. destruct H as [Hc Hs].
    unfold quotable_char in Hc. rewrite andb_true_iff, !negb_true_iff in Hc.
    destruct Hc as [-> ->]. simpl. rewrite (IH rest esc _ true Hs).
    now rewrite snoc_append.
Qed.

Lemma token_safe_quotable (s : string) :
  token_safe s = true -> all_chars quotable_char s = true.
Proof.
  unfold token_safe. rewrite !andb_true_iff, !negb_true_iff.
  intros [[Hd Hb] _]. apply contains_false_all in Hd, Hb.
  now apply all_chars_and.
Qed.

Lemma token_safe_plain (s : string) :
  token_safe s = true -> needs_quote s = false ->
  all_chars plain_char s = true /\ nonempty s = true.
Proof.
  unfold token_safe, needs_quote. intros H Hq. rewrite Hq in H. simpl in H.
  rewrite !andb_true_iff, !negb_true_iff in H.
  destruct H as [[Hd Hb] [[[Hn Ht] Hr] Hl]]. split; [|assumption].
  apply orb_false_iff in Hq. destruct Hq as [Hs Hq].
  apply contains_false_all in Hd, Hb, Ht, Hr, Hl, Hs, Hq.
  clear Hn. induction s as [|c s IH]; simpl in *; [reflexivity|].
  repeat match goal with
         | H : _ && _ = true |- _ => apply andb_true_iff in H; destruct H
         end.
  rewrite IH by assumption. rewrite andb_true_r.
  unfold plain_char, is_whitespace, is_quote, is_escape.
  repeat match goal with
         | H : negb _ = true |- _ => apply negb_true_iff in H; rewrite H
         end.
  reflexivity.
Qed.

(** Reading one quoted parameter: the lexer is left inside a word whose
    token is the parameter. *)
Lemma read_tokens_param (s rest : string) (esc : lex_state) :
  token_safe s = true ->
  read_tokens (QuoteStringIfRequired s +++ rest) StWhite esc "" false =
  read_tokens rest StWord esc s (needs_quote s).
Proof.
  intros Hs. unfold QuoteStringIfRequired. fold (needs_quote s).
  destruct (needs_quote s) eqn:Hq.
  - cbn [String.append]. rewrite append_assoc. cbn [String.append].
    cbn [read_tokens]. 
    replace (is_whitespace double_quote) with false by reflexivity.
    replace (is_escape double_quote) with false by reflexivity.
    replace (is_quote double_quote) with true by reflexivity.
    cbv iota. rewrite read_tokens_quoted by now apply token_safe_quotable.
    reflexivity.
  - destruct (token_safe_plain s Hs Hq) as [Hp Hn].
    destruct s as [|c s]; [discriminate|].
    now apply read_tokens_word_start.
Qed.

Lemma emit_param (s : string) (next : result (list string)) :
  token_safe s = true ->
  emit s (needs_quote s) next = let* tokens := next in Ok (s :: tokens).
Proof.
  intros Hs. unfold emit. destruct (needs_quote s) eqn:Hq; [reflexivity|].
  destruct (token_safe_plain s Hs Hq) as [_ Hn].
  destruct s; [discriminate | reflexivity].
Qed.

Lemma shlex_split_JoinParams_from (params : list string) (esc : lex_state) :
  Forall (fun s => token_safe s = true) params ->
  read_tokens (JoinParams params) StWhite esc "" false = Ok params.
Proof.
  unfold JoinParams. intros H. revert esc.
  induction H as [|s params Hs Hps IH]; intros esc; [reflexivity|].
  cbn [map String.concat]. destruct (map QuoteStringIfRequired params) as [|q qs] eqn:E.
  - destruct params; [|discriminate].
    rewrite <- (append_nil_r (QuoteStringIfRequired s)).
    rewrite read_tokens_param by assumption.
    cbn [read_tokens]. now rewrite emit_param.
  - rewrite read_tokens_param by assumption.
    cbn [String.append read_tokens].
    replace (is_whitespace " ") with true by reflexivity. cbv iota.
    assert (Hem : negb (String.eqb s "") || needs_quote s = true).
    { destruct (needs_quote s) eqn:Hq; [apply orb_true_r|].
      destruct (token_safe_plain s Hs Hq) as [_ Hn]. destruct s; [discriminate | reflexivity]. }
    rewrite Hem, emit_param by assumption.
    specialize (IH StWhite). rewrite IH. reflexivity.
Qed.

Lemma shlex_split_JoinParams (params : list string) :
  Forall (fun s => token_safe s = true) params ->
  shlex_split (JoinParams params) = Ok params.
Proof. apply shlex_split_JoinParams_from. Qed.

(** C3 (as stated) fails: the empty string is written unquoted and read
    back as no token at all; a backslash outside quotes is read as an
    escape and dropped; a tab outside quotes splits the token; a
    backslash at the end of a quoted string escapes the closing quote.
    None of the four strings contains a double quote. *)
Lemma quote_roundtrip_counterexample :
  (contains double_quote "" = false /\
   shlex_split (QuoteStringIfRequired "") = Ok [] /\
   shlex_split (QuoteStringIfRequired "") <> Ok [""]) /\
  (contains double_quote (String "a" (String backslash "b")) = false /\
   shlex_split (QuoteStringIfRequired (String "a" (String backslash "b"))) = Ok ["ab"] /\
   shlex_split (QuoteStringIfRequired (String "a" (String backslash "b")))
     <> Ok [String "a" (String backslash "b")]) /\
  (contains double_quote (String "a" (String tab "b")) = false /\
   shlex_split (QuoteStringIfRequired (String "a" (String tab "b"))) = Ok ["a"; "b"] /\
   shlex_split (QuoteStringIfRequired (String "a" (String tab "b")))
     <> Ok [String "a" (String tab "b")]) /\
  (contains double_quote (String "a" (String space (String backslash ""))) = false /\
   shlex_split (QuoteStringIfRequired (String "a" (String space (String backslash ""))))
   = Raise ValueError).
Proof. repeat split; try reflexivity; discriminate. Qed.


(** ** UpdateProfileChangesFile fails before it writes *)

Lemma for_each_raises {A S : Type} (xs : list A) (step : S -> A -> result S) (x : A) :
  In x xs ->
  (forall acc, exists e, step acc x = Raise e) ->
  forall acc, exists e, for_each xs step acc = Raise e.
Proof.
  intros Hin Hx. induction xs as [|y xs IH]; [destruct Hin|]. intros acc. simpl.
  destruct (step acc y) as [acc'|e] eqn:E; simpl; [|eauto].
  destruct Hin as [->|Hin]; [|now apply IH].
  destruct (Hx acc) as [e He]. congruence.
Qed.

Lemma AddFunctionToChangesDict_short (f : string) (rest : list string) (k : nat)
  (t : changes_dict) :
  num_params_for_match f = Ok k ->
  List.length (f :: rest) < k + 2 ->
  exists e, AddFunctionToChangesDict (f :: rest) t = Raise e.
Proof.
  intros Hk Hlen. destruct (AddFunctionToChangesDict (f :: rest) t) as [t'|e] eqn:E; [|eauto].
  destruct (AddFunctionToChangesDict_ok _ _ _ E) as (f' & rest' & k' & E' & Hk' & Hlen' & _).
  inversion E'; subst. rewrite Hk in Hk'. inversion Hk'; subst. lia.
Qed.

Lemma AddFunctionToChangesDict_unknown (f : string) (rest : list string) (t : changes_dict) :
  dict_get f kFunctionInfoMap = None ->
  AddFunctionToChangesDict (f :: rest) t = Raise KeyError.
Proof.
  intros H. unfold AddFunctionToChangesDict, num_params_for_match, dict_item.
  now rewrite H.
Qed.

Lemma parse_changes_malformed (lines : list string) (line : string) :
  In line lines -> malformed line -> exists e, parse_changes lines = Raise e.
Proof.
  intros Hin Hbad. unfold parse_changes. apply (for_each_raises _ _ line Hin).
  intros acc. destruct Hbad as [[e He] | [(f & rest & Hs & Hf) | (f & rest & k & Hs & Hk & Hl)]].
  - rewrite He. cbn [rbind]. eauto.
  - rewrite Hs. cbn [rbind]. rewrite AddFunctionToChangesDict_unknown by assumption. eauto.
  - rewrite Hs. cbn [rbind]. eapply AddFunctionToChangesDict_short; eauto.
Qed.

(** C6 -- Malformed change-log lines.  If some line of the existing
    changes file fails to tokenize, names a command that is absent from
    kFunctionInfoMap, or has fewer tokens than the match arity of its
    command requires, UpdateProfileChangesFile raises an exception and
    leaves the world as it was: the changes file is not written. *)
Theorem malformed_line_fails_fast (B : Backend) (w : World B)
  (new_function_name : string) (new_function_params : list string) (line : string) :
  In line (changes_file w) ->
  malformed line ->
  exists e,
    UpdateProfileChangesFile B new_function_name new_function_params w = (w, Raise e).
Proof.
  intros Hin Hbad. unfold UpdateProfileChangesFile, updated_changes.
  destruct (parse_changes_malformed _ _ Hin Hbad) as [e ->]. simpl. eauto.
Qed.

Lemma malformed_line_fails_fast_witness :
  exists e,
    UpdateProfileChangesFile (toy_backend no_currency) "set_hide_maps_below_tier" ["14"]
      (toy_world (toy_backend no_currency) tt
         ["set_hide_maps_below_tier 10"; "set_currency_to_tier Chaos"] [])
    = (toy_world (toy_backend no_currency) tt
         ["set_hide_maps_below_tier 10"; "set_currency_to_tier Chaos"] [],
       Raise e).
Proof.
  apply (malformed_line_fails_fast (toy_backend no_currency)
           (toy_world (toy_backend no_currency) tt
              ["set_hide_maps_below_tier 10"; "set_currency_to_tier Chaos"] [])
           "set_hide_maps_below_tier" ["14"] "set_currency_to_tier Chaos").
  - simpl. auto.
  - right. right. exists "set_currency_to_tier", ["Chaos"], 1.
    split; [reflexivity|]. split; [reflexivity|]. simpl. lia.
Defined.

(** ** Reports with nothing to report *)

Lemma command_body_basetypes (B : Backend) (input : list string) (e : Env B)
  (lf : option (LootFilter B)) (params : list string) :
  command_body B input e lf "get_all_visible_basetypes" params =
  get_all_visible_basetypes B e lf params.
Proof. reflexivity. Qed.

Lemma command_body_flasks (B : Backend) (input : list string) (e : Env B)
  (lf : option (LootFilter B)) (params : list string) :
  command_body B input e lf "get_all_visible_flasks" params =
  get_all_visible_flasks B e lf params.
Proof. reflexivity. Qed.

Lemma command_body_currency_tiers (B : Backend) (input : list string) (e : Env B)
  (lf : option (LootFilter B)) (params : list string) :
  command_body B input e lf "get_all_currency_tiers" params =
  get_all_currency_tiers B e lf params.
Proof. reflexivity. Qed.

Lemma append_nonempty_r (a b : string) : b <> "" -> a +++ b <> "".
Proof. destruct a; simpl; [auto | discriminate]. Qed.

Lemma append_nonempty_l (a b : string) : a <> "" -> a +++ b <> "".
Proof. destruct a; simpl; [congruence | discriminate]. Qed.

Lemma last_char_nonempty (s : string) : s <> "" -> exists c, last_char s = Ok c.
Proof.
  induction s as [|c s IH]; [congruence|]. intros _. simpl.
  destruct s as [|c' s]; [eauto|]. apply IH. discriminate.
Qed.

Lemma remove_final_newline_nonempty (s : string) :
  s <> "" -> exists out, remove_final_newline s = Ok out.
Proof.
  intros H. unfold remove_final_newline.
  destruct (last_char_nonempty s H) as [c ->]. simpl. eauto.
Qed.

Lemma currency_loop_empty (B : Backend) (lf : LootFilter B)
  (tiers : list nat) (acc : string) :
  (forall tier, In tier tiers -> GetAllCurrencyInTier B tier lf = Ok []) ->
  for_each tiers (currency_step B lf) acc = Ok acc.
Proof.
  induction tiers as [|t tiers IH]; intros H; [reflexivity|]. simpl.
  unfold currency_step at 1. simpl. rewrite (H t (or_introl eq_refl)). simpl.
  rewrite append_nil_r. apply IH. intros tier Ht. apply H. now right.
Qed.

Lemma currency_loop_total (B : Backend) (lf : LootFilter B) (tiers : list nat) :
  (forall tier, In tier tiers -> exists names, GetAllCurrencyInTier B tier lf = Ok names) ->
  forall acc, exists out,
    for_each tiers (currency_step B lf) acc = Ok out /\
    (acc <> "" -> out <> "") /\
    ((exists tier names, In tier tiers /\
        GetAllCurrencyInTier B tier lf = Ok names /\ names <> []) -> out <> "").
Proof.
  induction tiers as [|t tiers IH]; intros H acc.
  - exists acc. split; [reflexivity|]. split; [auto|]. intros (tier & _ & [] & _).
  - destruct (H t (or_introl eq_refl)) as [names Hn].
    simpl. unfold currency_step at 1. simpl. rewrite Hn. simpl.
    destruct (IH (fun tier Ht => H tier (or_intror Ht))
                (acc +++ concat_strings
                   (map (fun currency_name =>
                           currency_name +++ ";" +++ str_nat t +++ newline) names)))
      as (out & Hout & Hacc & Hex).
    exists out. split; [exact Hout|]. split.
    + intros Ha. apply Hacc. now apply append_nonempty_l.
    + intros (tier & names' & Hin & Hn' & Hne). destruct Hin as [E|Ht].
      * subst tier. rewrite Hn in Hn'. inversion Hn'; subst names'.
        apply Hacc. apply append_nonempty_r.
        destruct names as [|n names]; [congruence|]. cbn [map concat_strings].
        apply append_nonempty_l. apply append_nonempty_r. discriminate.
      * apply Hex. eauto.
Qed.

(** C9 -- Reports with nothing to report.  With no visible base type
    (resp. flask type), get_all_visible_basetypes (resp.
    get_all_visible_flasks) returns the empty string.  When every
    currency tier is empty, get_all_currency_tiers raises IndexError (its
    [output_string[-1]] is not guarded); when every tier can be read and
    some tier holds a currency name, it returns an output. *)
Theorem empty_reports (B : Backend) (input : list string) (e : Env B)
  (lf : LootFilter B) :
  (GetAllVisibleBaseTypes B false lf = Ok [] ->
   GetAllVisibleBaseTypes B true lf = Ok [] ->
   set_difference_list B [] [] = [] ->
   command_body B input e (Some lf) "get_all_visible_basetypes" []
   = Ok (e, Some lf, "", [])) /\
  (GetAllVisibleFlaskTypes B false lf = Ok [] ->
   GetAllVisibleFlaskTypes B true lf = Ok [] ->
   command_body B input e (Some lf) "get_all_visible_flasks" []
   = Ok (e, Some lf, "", [])) /\
  ((forall tier, In tier (seq 1 (kNumCurrencyTiersExcludingScrolls B)) ->
                 GetAllCurrencyInTier B tier lf = Ok []) ->
   command_body B input e (Some lf) "get_all_currency_tiers" [] = Raise IndexError) /\
  ((forall tier, In tier (seq 1 (kNumCurrencyTiersExcludingScrolls B)) ->
                 exists names, GetAllCurrencyInTier B tier lf = Ok names) ->
   (exists tier names,
       In tier (seq 1 (kNumCurrencyTiersExcludingScrolls B)) /\
       GetAllCurrencyInTier B tier lf = Ok names /\ names <> []) ->
   exists output_string,
     command_body B input e (Some lf) "get_all_currency_tiers" []
     = Ok (e, Some lf, output_string, [])).
Proof.
  repeat split.
  - intros Ha Hr Hd. rewrite command_body_basetypes.
    unfold get_all_visible_basetypes, getter. simpl. rewrite Ha, Hr. simpl.
    rewrite Hd. reflexivity.
  - intros Ha Hh. rewrite command_body_flasks.
    unfold get_all_visible_flasks, getter. simpl. rewrite Ha, Hh. reflexivity.
  - intros H. rewrite command_body_currency_tiers.
    unfold get_all_currency_tiers. simpl.
    change (for_each ?l _ ?a) with (for_each l (currency_step B lf) a).
    rewrite (currency_loop_empty B lf _ "" H). reflexivity.
  - intros Hall Hsome. rewrite command_body_currency_tiers.
    unfold get_all_currency_tiers. simpl.
    change (for_each ?l _ ?a) with (for_each l (currency_step B lf) a).
    destruct (currency_loop_total B lf _ Hall "") as (out & -> & _ & Hne). simpl.
    destruct (remove_final_newline_nonempty out (Hne Hsome)) as [out' ->]. simpl. eauto.
Qed.

Lemma empty_reports_witness :
  command_body (toy_backend no_currency) [] tt (Some []) "get_all_currency_tiers" []
  = Raise IndexError.
Proof.
  apply (empty_reports (toy_backend no_currency) [] tt []). reflexivity.
Defined.

(** ** The exit code written by main *)

Lemma exit_code_file_app (B : Backend) (l1 l2 : list (main_event B)) (c : option string) :
  exit_code_file B (l1 ++ l2) c = exit_code_file B l2 (exit_code_file B l1 c).
Proof.
  revert c. induction l1 as [|ev l1 IH]; intros c; [reflexivity|].
  destruct ev; simpl; apply IH.
Qed.

Lemma exit_code_file_inside (B : Backend) (l : list (event B)) (c : option string) :
  exit_code_file B (map (Inside B) l) c = c.
Proof. revert c. induction l as [|ev l IH]; intros c; [reflexivity | apply IH]. Qed.

Lemma no_exit_code_inside (B : Backend) (l : list (event B)) :
  filter is_exit_code_write (map (Inside B) l) = [].
Proof. induction l as [|ev l IH]; [reflexivity | exact IH]. Qed.

(** C10 (as stated) fails: an exception that does not derive from
    Exception is not caught by the handler of main.  When the user
    interrupts the loading of the loot filter, main raises
    KeyboardInterrupt, nothing is logged, no final code is written, and
    the exit-code file still holds '-1' when the run is over. *)
Lemma exit_code_counterexample :
  main (toy_backend no_currency)
    ["backend_cli.py"; "get_all_added_socket_rules"; "Interrupted"]
    (toy_world (toy_backend no_currency) tt [] [])
  = ([WriteExitCode (toy_backend no_currency) "-1"],
     toy_world (toy_backend no_currency) tt [] [],
     Raise KeyboardInterrupt) /\
  exit_code_file (toy_backend no_currency)
    (fst (fst (main (toy_backend no_currency)
                 ["backend_cli.py"; "get_all_added_socket_rules"; "Interrupted"]
                 (toy_world (toy_backend no_currency) tt [] []))))
    None
  = Some "-1".
Proof. split; reflexivity. Qed.

(** C10 (amended) -- Exit code.  Every run of main writes the in-progress
    code '-1' to the exit-code file as its first effect.  When main_impl
    returns, main overwrites it exactly once, as its last effect, with
    '0'.  When main_impl raises an exception that derives from Exception,
    main logs the traceback, overwrites the code exactly once, as its last
    effect, with '1', and raises the exception again.  When main_impl
    raises any other exception (KeyboardInterrupt, SystemExit), main does
    nothing more: the exception leaves main, nothing is logged, and the
    file still holds '-1'.  No other write to the exit-code file happens,
    so the file holds '0' exactly when main returns. *)
Theorem exit_code_protocol (B : Backend) (argv : list string) (w : World B) :
  exists inside : list (event B),
    inside = events (fst (main_impl B argv (at_start B w))) /\
    ((snd (main_impl B argv (at_start B w)) = Ok tt /\
      fst (fst (main B argv w))
      = [WriteExitCode B "-1"] ++ map (Inside B) inside ++ [WriteExitCode B "0"] /\
      snd (main B argv w) = Ok tt /\
      exit_code_file B (fst (fst (main B argv w))) None = Some "0")
     \/
     (exists e,
        snd (main_impl B argv (at_start B w)) = Raise e /\
        derives_from_Exception e = true /\
        fst (fst (main B argv w))
        = [WriteExitCode B "-1"] ++ map (Inside B) inside
          ++ [LogTraceback B e; WriteExitCode B "1"] /\
        snd (main B argv w) = Raise e /\
        exit_code_file B (fst (fst (main B argv w))) None = Some "1")
     \/
     (exists e,
        snd (main_impl B argv (at_start B w)) = Raise e /\
        derives_from_Exception e = false /\
        fst (fst (main B argv w)) = [WriteExitCode B "-1"] ++ map (Inside B) inside /\
        snd (main B argv w) = Raise e /\
        exit_code_file B (fst (fst (main B argv w))) None = Some "-1")) /\
    filter is_exit_code_write (fst (fst (main B argv w)))
    = WriteExitCode B "-1"
      :: match snd (main B argv w) with
         | Ok _ => [WriteExitCode B "0"]
         | Raise e => if derives_from_Exception e then [WriteExitCode B "1"] else []
         end /\
    (exit_code_file B (fst (fst (main B argv w))) None = Some "0"
     <-> snd (main B argv w) = Ok tt) /\
    snd (fst (main B argv w)) = fst (main_impl B argv (at_start B w)).
Proof.
  unfold main. destruct (main_impl B argv (at_start B w)) as [w' [[]|e]] eqn:E;
    cbn [fst snd].
  - exists (events w'). split; [reflexivity|].
    assert (Hfile : exit_code_file B
                      ([WriteExitCode B "-1"] ++ map (Inside B) (events w')
                         ++ [WriteExitCode B "0"]) None = Some "0").
    { rewrite app_assoc, exit_code_file_app. reflexivity. }
    split; [|split; [|split]].
    + left. repeat split. exact Hfile.
    + rewrite app_assoc, filter_app, filter_app, no_exit_code_inside. reflexivity.
    + split; [reflexivity | intros _; exact Hfile].
    + reflexivity.
  - destruct (derives_from_Exception e) eqn:Hd; cbn [fst snd].
    + exists (events w'). split; [reflexivity|].
      assert (Hfile : exit_code_file B
                        ([WriteExitCode B "-1"] ++ map (Inside B) (events w')
                           ++ [LogTraceback B e; WriteExitCode B "1"]) None = Some "1").
      { rewrite app_assoc, exit_code_file_app. reflexivity. }
      split; [|split; [|split]].
      * right. left. exists e. repeat split; assumption.
      * rewrite app_assoc, filter_app, filter_app, no_exit_code_inside, Hd. reflexivity.
      * rewrite Hfile. split; discriminate.
      * reflexivity.
    + exists (events w'). split; [reflexivity|].
      assert (Hfile : exit_code_file B
                        ([WriteExitCode B "-1"] ++ map (Inside B) (events w')) None
                      = Some "-1").
      { rewrite exit_code_file_app, exit_code_file_inside. reflexivity. }
      split; [|split; [|split]].
      * right. right. exists e. repeat split; assumption.
      * rewrite filter_app, no_exit_code_inside, Hd. reflexivity.
      * rewrite Hfile. split; discriminate.
      * reflexivity.
Qed.

(** ** Saving the filter in a batch *)

Lemma saves_log_event (B : Backend) (ev : event B) (w : World B) :
  saves (log_event B ev w) = saves w + (if is_save ev then 1 else 0).
Proof.
  unfold saves, log_event. simpl. rewrite filter_app, length_app. simpl.
  destruct (is_save ev); reflexivity.
Qed.

Lemma saves_with_env (B : Backend) (e : Env B) (w : World B) :
  saves (with_env B e w) = saves w.
Proof. reflexivity. Qed.

Lemma UpdateProfileChangesFile_saves (B : Backend) (name : string)
  (params : list string) (w : World B) :
  saves (fst (UpdateProfileChangesFile B name params w)) = saves w.
Proof.
  unfold UpdateProfileChangesFile.
  destruct (updated_changes _ _ _); simpl; [|reflexivity].
  unfold saves. simpl. rewrite filter_app. simpl. now rewrite app_nil_r.
Qed.

Lemma in_batch_saves (B : Backend) (suppress_output : bool)
  (lf : option (LootFilter B)) (name : string) (params : list string) (w : World B) :
  saves (fst (DelegateFunctionCall_in_batch B suppress_output lf name params w)) = saves w.
Proof.
  unfold DelegateFunctionCall_in_batch.
  destruct (command_body _ _ _ _ _ _) as [[[[e' lf'] out] params']|e]; [|reflexivity].
  set (w2 := if suppress_output then _ else _).
  assert (H2 : saves w2 = saves w).
  { subst w2. destruct suppress_output; [reflexivity|].
    rewrite saves_log_event. simpl. rewrite saves_with_env. lia. }
  destruct (modifies_filter name) as [modifies|]; [|exact H2].
  destruct (modifies && negb suppress_output); [|exact H2].
  destruct (the_config B lf'); [|exact H2].
  pose proof (UpdateProfileChangesFile_saves B name params' w2) as Hu.
  destruct (UpdateProfileChangesFile B name params' w2). simpl in *. lia.
Qed.

Lemma run_batch_loop_saves (B : Backend) (lines : list string) :
  forall (contains_mutator : bool) (lf : option (LootFilter B)) (w : World B),
    saves (fst (run_batch_loop B lines contains_mutator lf w)) = saves w /\
    forall flag lf',
      snd (run_batch_loop B lines contains_mutator lf w) = Ok (flag, lf') ->
      flag = batch_contains_mutator lines || contains_mutator.
Proof.
  induction lines as [|line lines IH]; intros cm lf w.
  - simpl. split; [reflexivity|]. intros flag lf' [= <- _]. reflexivity.
  - cbn [run_batch_loop batch_contains_mutator existsb].
    destruct (String.eqb (py_strip line) "") eqn:Eblank; [apply IH|].
    destruct (split_call line) as [[name params]|e]; [|split; [reflexivity | discriminate]].
    destruct (modifies_filter name) as [modifies|e]; [|split; [reflexivity | discriminate]].
    pose proof (in_batch_saves B false lf name params w) as Hs.
    destruct (DelegateFunctionCall_in_batch B false lf name params w) as [w' [lf1|e]];
      simpl in Hs.
    + destruct (IH (modifies || cm) lf1 w') as [Hs' Hf]. split; [lia|].
      intros flag lf' Hr. rewrite (Hf flag lf' Hr).
      fold (batch_contains_mutator lines). cbn [negb andb].
      generalize (batch_contains_mutator lines) as rest.
      intros rest. destruct modifies, rest, cm; reflexivity.
    + split; [exact Hs | discriminate].
Qed.

Lemma command_body_known (B : Backend) (input : list string) (e : Env B)
  (lf : option (LootFilter B)) (name : string) (params : list string)
  (o : outcome B) :
  command_body B input e lf name params = Ok o ->
  exists modifies, modifies_filter name = Ok modifies.
Proof.
  unfold command_body. name_cases name; intros H; try (eexists; reflexivity).
  discriminate H.
Qed.

Lemma in_batch_known (B : Backend) (suppress_output : bool)
  (lf lf' : option (LootFilter B)) (name : string) (params : list string)
  (w w' : World B) :
  DelegateFunctionCall_in_batch B suppress_output lf name params w = (w', Ok lf') ->
  exists modifies, modifies_filter name = Ok modifies.
Proof.
  unfold DelegateFunctionCall_in_batch.
  destruct (command_body B (input_file w) (env w) lf name params) as [o|e] eqn:E;
    [|discriminate].
  intros _. exact (command_body_known _ _ _ _ _ _ _ E).
Qed.

Lemma run_batch_loop_steps (B : Backend) (lines : list string)
  (lf lf' : option (LootFilter B)) (w w' : World B) :
  batch_steps B lines lf w lf' w' ->
  forall contains_mutator,
    run_batch_loop B lines contains_mutator lf w
    = (w', Ok (batch_contains_mutator lines || contains_mutator, lf')).
Proof.
  induction 1 as [lf w|line rest lf lf' w w' Hblank _ IH
                 |line rest name params lf lf1 lf' w w1 w' Hblank Hsplit Hcall _ IH];
    intros cm.
  - reflexivity.
  - cbn [run_batch_loop batch_contains_mutator existsb]. rewrite Hblank.
    cbn [negb andb orb]. apply IH.
  - cbn [run_batch_loop batch_contains_mutator existsb]. rewrite Hblank, Hsplit.
    destruct (in_batch_known _ _ _ _ _ _ _ _ Hcall) as [modifies Hm].
    rewrite Hm, Hcall, IH. cbn [negb andb].
    fold (batch_contains_mutator rest).
    destruct modifies, (batch_contains_mutator rest), cm; reflexivity.
Qed.

Lemma run_batch_loop_steps_inv (B : Backend) (lines : list string) :
  forall (contains_mutator flag : bool) (lf lf' : option (LootFilter B)) (w w' : World B),
    run_batch_loop B lines contains_mutator lf w = (w', Ok (flag, lf')) ->
    batch_steps B lines lf w lf' w'.
Proof.
  induction lines as [|line lines IH]; intros cm flag lf lf' w w' H.
  - cbn [run_batch_loop] in H. injection H as <- _ <-. constructor.
  - cbn [run_batch_loop] in H.
    destruct (String.eqb (py_strip line) "") eqn:Eblank.
    + apply steps_blank; [exact Eblank | exact (IH _ _ _ _ _ _ H)].
    + destruct (split_call line) as [[name params]|e] eqn:Esplit; [|discriminate H].
      destruct (modifies_filter name) as [modifies|e]; [|discriminate H].
      destruct (DelegateFunctionCall_in_batch B false lf name params w)
        as [w1 [lf1|e]] eqn:Ecall; [|discriminate H].
      exact (steps_call B line lines name params lf lf1 lf' w w1 w'
               Eblank Esplit Ecall (IH _ _ _ _ _ _ H)).
Qed.

(** C5 (as stated) fails: a batch whose first line sets the minimal gem
    quality and whose second line gives a word for it executes a command
    with ModifiesFilter true, records it in the changes file, and raises
    at the second line: no SaveToFile is performed at all. *)
Lemma batch_save_counterexample :
  modifies_filter "set_gem_min_quality" = Ok true /\
  run_batch (toy_backend no_currency) (Some []) []
    (toy_world (toy_backend no_currency) tt []
       ["set_gem_min_quality 10"; "set_gem_min_quality ten"])
  = (mkWorld (toy_backend no_currency) tt ["set_gem_min_quality 10"]
       ["set_gem_min_quality 10"; "set_gem_min_quality ten"]
       [WriteOutput (toy_backend no_currency) "";
        AppendFunctionOutput (toy_backend no_currency) (output_block "");
        WriteChanges (toy_backend no_currency) ["set_gem_min_quality 10"]],
     Raise ValueError) /\
  saves (fst (run_batch (toy_backend no_currency) (Some []) []
                (toy_world (toy_backend no_currency) tt []
                   ["set_gem_min_quality 10"; "set_gem_min_quality ten"])))
  = 0.
Proof. repeat split. Qed.

(** C5 (amended) -- One save per batch.  DelegateFunctionCall runs
    run_batch as it is, with no save of its own, and a call dispatched
    with in_batch = True never saves the filter.  A run_batch invocation
    returns exactly when it is called without parameters, every line of
    the batch that is not blank executes without raising, each on what
    the previous one left, and there is a filter to save if a line calls
    a command with ModifiesFilter true.  It then performs exactly one
    SaveToFile, as its last effect and of the filter the last line left,
    if some line calls a command with ModifiesFilter true, and none
    otherwise.  A run_batch invocation that raises performs no SaveToFile
    at all, whatever commands it executed and recorded before. *)
Theorem batch_saves_once (B : Backend) (lf : option (LootFilter B))
  (function_params : list string) (w : World B) :
  DelegateFunctionCall B lf "run_batch" function_params w
  = run_batch B lf function_params w /\
  (forall suppress_output lf0 name params w0,
      saves (fst (DelegateFunctionCall_in_batch B suppress_output lf0 name params w0))
      = saves w0) /\
  saves (fst (run_batch B lf function_params w))
  = saves w
    + (if is_ok (snd (run_batch B lf function_params w))
          && batch_contains_mutator (input_file w)
       then 1 else 0) /\
  (is_ok (snd (run_batch B lf function_params w)) = true ->
   batch_contains_mutator (input_file w) = true ->
   exists before saved,
     events (fst (run_batch B lf function_params w)) = before ++ [SaveToFile B saved]) /\
  (forall lf' w',
      function_params = [] ->
      batch_steps B (input_file w) lf (log_event B (WriteOutput B "") w) lf' w' ->
      run_batch B lf function_params w
      = if batch_contains_mutator (input_file w) then
          match lf' with
          | Some saved => (log_event B (SaveToFile B saved) w', Ok lf')
          | None => (w', Raise AttributeError)
          end
        else (w', Ok lf')) /\
  (is_ok (snd (run_batch B lf function_params w)) = true ->
   function_params = [] /\
   exists lf' w',
     batch_steps B (input_file w) lf (log_event B (WriteOutput B "") w) lf' w' /\
     snd (run_batch B lf function_params w) = Ok lf' /\
     (batch_contains_mutator (input_file w) = true -> lf' <> None)) /\
  (is_ok (snd (run_batch B lf function_params w)) = false ->
   saves (fst (run_batch B lf function_params w)) = saves w).
Proof.
  assert (Hcount :
            saves (fst (run_batch B lf function_params w))
            = saves w
              + (if is_ok (snd (run_batch B lf function_params w))
                    && batch_contains_mutator (input_file w)
                 then 1 else 0) /\
            (is_ok (snd (run_batch B lf function_params w)) = true ->
             batch_contains_mutator (input_file w) = true ->
             exists before saved,
               events (fst (run_batch B lf function_params w))
               = before ++ [SaveToFile B saved])).
  { unfold run_batch.
    destruct (CheckNumParams function_params 0); [|simpl; split; [lia | discriminate]].
    set (w0 := log_event B (WriteOutput B "") w).
    assert (H0 : saves w0 = saves w).
    { subst w0. rewrite saves_log_event. simpl. lia. }
    change (input_file w0) with (input_file w).
    destruct (run_batch_loop_saves B (input_file w) false lf w0) as [Hs Hf].
    destruct (run_batch_loop B (input_file w) false lf w0) as [w' [[flag lf']|e]];
      simpl in Hs; [|simpl; split; [lia | discriminate]].
    rewrite (Hf flag lf' eq_refl), orb_false_r.
    destruct (batch_contains_mutator (input_file w)).
    - unfold save_filter. destruct lf' as [saved|]; simpl.
      + split; [rewrite saves_log_event; simpl; lia|].
        intros _ _. exists (events w'), saved. reflexivity.
      + split; [lia | discriminate].
    - simpl. split; [lia | discriminate]. }
  split.
  { unfold DelegateFunctionCall. cbn [String.eqb Ascii.eqb Bool.eqb orb andb].
    destruct (run_batch B lf function_params w) as [w' [lf'|e]]; reflexivity. }
  split; [intros; apply in_batch_saves|].
  split; [exact (proj1 Hcount)|]. split; [exact (proj2 Hcount)|]. split; [|split].
  - intros lf' w' -> Hsteps. unfold run_batch. cbn [CheckNumParams List.length Nat.eqb].
    change (input_file (log_event B (WriteOutput B "") w)) with (input_file w).
    rewrite (run_batch_loop_steps B _ _ _ _ _ Hsteps false), orb_false_r.
    destruct (batch_contains_mutator (input_file w)); [|reflexivity].
    unfold save_filter. destruct lf' as [saved|]; reflexivity.
  - unfold run_batch. unfold CheckNumParams.
    destruct function_params as [|p ps]; cbn [List.length Nat.eqb]; [|discriminate].
    change (input_file (log_event B (WriteOutput B "") w)) with (input_file w).
    destruct (run_batch_loop B (input_file w) false lf (log_event B (WriteOutput B "") w))
      as [w' [[flag lf']|e]] eqn:Eloop; [|discriminate].
    pose proof (run_batch_loop_steps_inv B _ _ _ _ _ _ _ Eloop) as Hsteps.
    pose proof (run_batch_loop_steps B _ _ _ _ _ Hsteps false) as Hloop.
    rewrite Eloop in Hloop. injection Hloop as ->. rewrite orb_false_r.
    intros Hok. split; [reflexivity|]. exists lf', w'. split; [exact Hsteps|].
    destruct (batch_contains_mutator (input_file w)).
    + unfold save_filter in *. destruct lf' as [saved|]; cbn in Hok |- *;
        [|discriminate Hok].
      split; [reflexivity | discriminate].
    + split; [reflexivity | discriminate].
  - intros Hfail. rewrite (proj1 Hcount), Hfail. cbn [andb]. lia.
Qed.

(** A batch of a mutator, a blank line and a query: one save, at the end. *)
Lemma batch_saves_once_witness :
  run_batch (toy_backend no_currency) (Some []) []
    (toy_world (toy_backend no_currency) tt []
       ["set_gem_min_quality 10"; ""; "get_gem_min_quality"])
  = (mkWorld (toy_backend no_currency) tt ["set_gem_min_quality 10"]
       ["set_gem_min_quality 10"; ""; "get_gem_min_quality"]
       [WriteOutput (toy_backend no_currency) "";
        AppendFunctionOutput (toy_backend no_currency) (output_block "");
        WriteChanges (toy_backend no_currency) ["set_gem_min_quality 10"];
        AppendFunctionOutput (toy_backend no_currency) (output_block "1");
        SaveToFile (toy_backend no_currency) ["SetGemMinQuality 10"]],
     Ok (Some ["SetGemMinQuality 10"])).
Proof.
  refine (proj1 (proj2 (proj2 (proj2 (proj2
            (batch_saves_once (toy_backend no_currency) (Some []) []
               (toy_world (toy_backend no_currency) tt []
                  ["set_gem_min_quality 10"; ""; "get_gem_min_quality"]))))))
            (Some ["SetGemMinQuality 10"])
            (mkWorld (toy_backend no_currency) tt ["set_gem_min_quality 10"]
               ["set_gem_min_quality 10"; ""; "get_gem_min_quality"]
               [WriteOutput (toy_backend no_currency) "";
                AppendFunctionOutput (toy_backend no_currency) (output_block "");
                WriteChanges (toy_backend no_currency) ["set_gem_min_quality 10"];
                AppendFunctionOutput (toy_backend no_currency) (output_block "1")])
            eq_refl _).
  eapply steps_call; [reflexivity | reflexivity | reflexivity |].
  eapply steps_blank; [reflexivity|].
  eapply steps_call; [reflexivity | reflexivity | reflexivity |].
  apply steps_done.
Defined.

(** ** The token lists the dispatcher records *)

Lemma modifies_filter_mutator (name : string) :
  modifies_filter name = Ok true -> In name mutator_names.
Proof.
  unfold modifies_filter, dict_item, kFunctionInfoMap. cbn [dict_get].
  name_cases name; cbn; intros H; try discriminate H; tauto.
Qed.

Lemma CheckNumParams_ok (params : list string) (n : nat) (u : unit) :
  CheckNumParams params n = Ok u -> List.length params = n.
Proof.
  unfold CheckNumParams. destruct (List.length params =? n) eqn:E; [|discriminate].
  intros _. now apply Nat.eqb_eq.
Qed.

Lemma setter_params (B : Backend) (e e' : Env B) (lf lf' : option (LootFilter B))
  (params params' : list string) (out : string)
  (update : LootFilter B -> result (LootFilter B)) :
  setter B e lf params update = Ok (e', lf', out, params') -> params' = params.
Proof. unfold setter. intros H. split_branch H. now inversion H. Qed.

Lemma int_setter_params (B : Backend) (e e' : Env B) (lf lf' : option (LootFilter B))
  (params params' : list string) (out : string)
  (update : Z -> LootFilter B -> result (LootFilter B)) :
  int_setter B e lf params update = Ok (e', lf', out, params') ->
  List.length params' = 1.
Proof.
  unfold int_setter. intros H. split_branch H.
  apply setter_params in H. subst. eapply CheckNumParams_ok; eauto.
Qed.

Lemma two_flag_params (B : Backend) (e e' : Env B) (lf lf' : option (LootFilter B))
  (params params' : list string) (out : string)
  (update : string -> bool -> bool -> LootFilter B -> result (LootFilter B)) :
  set_two_flag_visibility B e lf params update = Ok (e', lf', out, params') ->
  List.length params' = 3.
Proof.
  unfold set_two_flag_visibility. intros H.
  destruct (CheckNumParams _ 3) as [u|] eqn:Hc; [|discriminate H].
  apply CheckNumParams_ok in Hc. cbn [rbind] in H.
  destruct (py_bool_int _); [|discriminate H]. cbn [rbind] in H.
  destruct (py_bool_int _); [|discriminate H]. cbn [rbind] in H.
  apply setter_params in H. now subst.
Qed.

Lemma socket_rule_params (B : Backend) (e e' : Env B) (lf lf' : option (LootFilter B))
  (params params' : list string) (out : string) :
  add_remove_socket_rule B e lf params = Ok (e', lf', out, params') ->
  List.length params' = 3.
Proof.
  unfold add_remove_socket_rule. intros H.
  destruct (CheckNumParams _ 3) as [u|] eqn:Hc; [|discriminate H].
  apply CheckNumParams_ok in Hc. cbn [rbind] in H.
  destruct (py_bool_int _); [|discriminate H]. cbn [rbind] in H.
  apply setter_params in H. now subst.
Qed.

Lemma checked_setter_params (B : Backend) (e e' : Env B) (lf lf' : option (LootFilter B))
  (params params' : list string) (out : string) (n : nat)
  (update : LootFilter B -> result (LootFilter B)) :
  (let* _ := CheckNumParams params n in setter B e lf params update)
  = Ok (e', lf', out, params') ->
  List.length params' = n.
Proof.
  intros H. destruct (CheckNumParams params n) as [u|] eqn:Hc; [|discriminate H].
  apply CheckNumParams_ok in Hc. cbn [rbind] in H.
  apply setter_params in H. now subst.
Qed.

Lemma recorded_params_length (B : Backend) (input : list string) (e e' : Env B)
  (lf lf' : option (LootFilter B)) (name : string) (params params' : list string)
  (out : string) :
  command_body B input e lf name params = Ok (e', lf', out, params') ->
  modifies_filter name = Ok true ->
  exists k, num_params_for_match name = Ok k /\
            List.length (name :: params') = k + 2.
Proof.
  intros Hbody Hmod. apply modifies_filter_mutator in Hmod.
  unfold mutator_names in Hmod. cbn [In] in Hmod.
  repeat (destruct Hmod as [<-|Hmod]); [..|contradiction];
    (eexists; split; [reflexivity|]); cbn [List.length];
    change (command_body B input e lf ?n params) with
      (ltac:(let t := eval cbv beta iota zeta delta [command_body String.eqb Ascii.eqb Bool.eqb]
                      in (command_body B input e lf n params) in exact t)) in Hbody.
  - unfold set_rule_visibility in Hbody. split_branch Hbody. inversion Hbody; subst.
    erewrite CheckNumParams_ok by eauto. reflexivity.
  - unfold set_currency_to_tier in Hbody. split_branch Hbody.
    apply setter_params in Hbody. subst. erewrite CheckNumParams_ok by eauto. reflexivity.
  - unfold set_currency_tier_min_visible_stack_size in Hbody.
    apply checked_setter_params in Hbody. now rewrite Hbody.
  - apply int_setter_params in Hbody. now rewrite Hbody.
  - apply int_setter_params in Hbody. now rewrite Hbody.
  - apply int_setter_params in Hbody. now rewrite Hbody.
  - apply int_setter_params in Hbody. now rewrite Hbody.
  - apply checked_setter_params in Hbody. now rewrite Hbody.
  - apply int_setter_params in Hbody. now rewrite Hbody.
  - apply int_setter_params in Hbody. now rewrite Hbody.
  - apply int_setter_params in Hbody. now rewrite Hbody.
  - apply two_flag_params in Hbody. now rewrite Hbody.
  - apply two_flag_params in Hbody. now rewrite Hbody.
  - apply socket_rule_params in Hbody. now rewrite Hbody.
  - apply checked_setter_params in Hbody. now rewrite Hbody.
  - unfold set_chaos_recipe_enabled_for in Hbody. split_branch Hbody.
    apply setter_params in Hbody. subst. erewrite CheckNumParams_ok by eauto. reflexivity.
Qed.

Lemma dict_item_descend (tok : string) (items : list (string * node)) :
  exists sub0,
    dict_item tok (if od_mem tok items then items else od_set tok (Dict []) items)
    = Ok sub0 /\
    (dict_get tok items = Some sub0 \/ (dict_get tok items = None /\ sub0 = Dict [])).
Proof.
  unfold dict_item, od_mem. destruct (dict_get tok items) as [n|] eqn:E.
  - rewrite E. eauto.
  - rewrite dict_get_od_set, String.eqb_refl. eauto.
Qed.

(** With enough tokens, no index of the loop is out of bounds. *)
Lemma add_tokens_in_bounds (k : nat) :
  forall (tokens : list string) (n : node),
    k + 2 <= List.length tokens -> add_tokens k tokens n <> Raise IndexError.
Proof.
  induction k as [|k IH]; intros tokens n Hlen.
  - destruct tokens as [|tok [|v rest]]; simpl in Hlen; try lia.
    simpl. destruct n; discriminate.
  - destruct tokens as [|tok rest]; simpl in Hlen; [lia|].
    cbn [add_tokens]. destruct n as [|items]; [discriminate|].
    destruct (dict_item_descend tok items) as (sub0 & -> & _). cbn [rbind].
    specialize (IH rest sub0 ltac:(lia)).
    destruct (add_tokens k rest sub0) as [sub'|[]]; simpl; congruence.
Qed.

(** On a node that holds entries of the right depth, the loop succeeds. *)
Lemma add_tokens_total (k : nat) :
  forall (tokens : list string) (n : node) (es : list (list string)),
    Repr (S k) n es -> k + 2 <= List.length tokens ->
    exists n', add_tokens k tokens n = Ok n'.
Proof.
  induction k as [|k IH]; intros tokens n es [Hlen (items & -> & Hl)] Ht.
  - destruct tokens as [|tok [|v rest]]; simpl in Ht; try lia. simpl. eauto.
  - destruct tokens as [|tok rest]; simpl in Ht; [lia|]. cbn [add_tokens].
    destruct (dict_item_descend tok items) as (sub0 & -> & Hsub). cbn [rbind].
    assert (Hr : exists es0, Repr (S k) sub0 es0).
    { destruct Hsub as [Hg | [_ ->]].
      - exists (sub tok es). now apply Hl.
      - exists []. apply Repr_empty_dict. }
    destruct Hr as [es0 Hr].
    destruct (IH rest sub0 es0 Hr ltac:(lia)) as [sub' ->]. simpl. eauto.
Qed.

Lemma AddFunctionToChangesDict_total (cmds : list (list string)) (t : changes_dict)
  (f : string) (rest : list string) (k : nat) :
  fold_changes cmds [] = Ok t ->
  num_params_for_match f = Ok k ->
  k + 2 <= List.length (f :: rest) ->
  exists t', AddFunctionToChangesDict (f :: rest) t = Ok t'.
Proof.
  intros Hf Hk Hlen. destruct (reachable_ReprRoot cmds t Hf) as [Hwf Hl].
  unfold AddFunctionToChangesDict. rewrite Hk. cbn [rbind].
  destruct k as [|k].
  - destruct rest as [|v rest]; simpl in Hlen; [lia|]. simpl. eauto.
  - cbn [add_tokens]. simpl in Hlen.
    destruct (dict_item_descend f t) as (sub0 & -> & Hsub). cbn [rbind].
    assert (Hr : exists es0, Repr (S k) sub0 es0).
    { destruct Hsub as [Hg | [_ ->]].
      - destruct (proj2 Hl f sub0 Hg) as (k0 & Hk0 & Hr).
        rewrite Hk in Hk0. inversion Hk0; subst k0. eauto.
      - exists []. apply Repr_empty_dict. }
    destruct Hr as [es0 Hr].
    destruct (add_tokens_total k rest sub0 es0 Hr ltac:(lia)) as [sub' ->]. simpl. eauto.
Qed.

(** C8 (as stated) fails for the token lists that come from the changes
    file: a line whose command has match arity 1 and that holds two
    tokens is passed to AddFunctionToChangesDict as it is, and
    [function_tokens[i + 1]] is out of bounds. *)
Lemma recorded_tokens_counterexample :
  shlex_split (py_strip "set_currency_to_tier Chaos")
  = Ok ["set_currency_to_tier"; "Chaos"] /\
  num_params_for_match "set_currency_to_tier" = Ok 1 /\
  List.length ["set_currency_to_tier"; "Chaos"] < 1 + 2 /\
  AddFunctionToChangesDict ["set_currency_to_tier"; "Chaos"] [] = Raise IndexError /\
  updated_changes ["set_currency_to_tier Chaos"] "set_hide_maps_below_tier" ["14"]
  = Raise IndexError.
Proof. repeat split; simpl; lia. Qed.

(** C8 (amended) -- Recorded token lists.  Every command with
    ModifiesFilter true has a NumParamsForMatch, and the largest of its
    NumParamsOptions is NumParamsForMatch + 1.  When the branch of such a
    command returns, the parameter list it leaves (default values
    appended) makes a token list of exactly NumParamsForMatch + 2 tokens.
    On a token list with at least that many tokens no index of
    AddFunctionToChangesDict is out of bounds, and the call succeeds on
    every reachable trie. *)
Theorem recorded_tokens_in_bounds :
  forallb table_entry_ok kFunctionInfoMap = true /\
  (forall (B : Backend) input e lf name params e' lf' out params',
      command_body B input e lf name params = Ok (e', lf', out, params') ->
      modifies_filter name = Ok true ->
      exists k, num_params_for_match name = Ok k /\
                List.length (name :: params') = k + 2) /\
  (forall f rest k t,
      num_params_for_match f = Ok k ->
      k + 2 <= List.length (f :: rest) ->
      AddFunctionToChangesDict (f :: rest) t <> Raise IndexError) /\
  (forall cmds t f rest k,
      fold_changes cmds [] = Ok t ->
      num_params_for_match f = Ok k ->
      k + 2 <= List.length (f :: rest) ->
      exists t', AddFunctionToChangesDict (f :: rest) t = Ok t').
Proof.
  split; [reflexivity|]. split; [|split].
  - intros. eapply recorded_params_length; eauto.
  - intros f rest k t Hk Hlen. unfold AddFunctionToChangesDict. rewrite Hk. cbn [rbind].
    pose proof (add_tokens_in_bounds k (f :: rest) (Dict t) Hlen) as H.
    destruct (add_tokens k (f :: rest) (Dict t)) as [[|items]|[]]; simpl; congruence.
  - intros. eapply AddFunctionToChangesDict_total; eauto.
Qed.

Lemma recorded_tokens_in_bounds_witness :
  exists k, num_params_for_match "set_basetype_visibility" = Ok k /\
            List.length ["set_basetype_visibility"; "Hubris Circlet"; "1"; "0"] = k + 2.
Proof.
  exact (proj1 (proj2 recorded_tokens_in_bounds)
           (toy_backend no_currency) [] tt (Some [])
           "set_basetype_visibility" ["Hubris Circlet"; "1"]
           tt (Some ["SetBaseTypeRuleEnabledFor Hubris Circlet 1 0"]) ""
           ["Hubris Circlet"; "1"; "0"] eq_refl eq_refl).
Defined.

(** ** Invalid parameter values *)

Lemma tier_setter_not_batch (name : string) :
  In name ("set_currency_to_tier" :: "set_rule_visibility" :: tier_setters) ->
  String.eqb name "import_downloaded_filter" || String.eqb name "load_input_filter" = false /\
  String.eqb name "run_batch" = false.
Proof.
  unfold tier_setters. cbn [In]. intros H.
  repeat (destruct H as [<-|H]; [split; reflexivity|]). contradiction.
Qed.

Lemma DelegateFunctionCall_raises (B : Backend) (lf : option (LootFilter B))
  (name : string) (params : list string) (w : World B) (e : exn) :
  String.eqb name "import_downloaded_filter" || String.eqb name "load_input_filter" = false ->
  String.eqb name "run_batch" = false ->
  command_body B (input_file w) (env w) lf name params = Raise e ->
  DelegateFunctionCall B lf name params w = (w, Raise e).
Proof. intros H1 H2 H3. unfold DelegateFunctionCall. now rewrite H1, H2, H3. Qed.

Lemma tier_setter_invalid (B : Backend) (input : list string) (e : Env B)
  (lf : option (LootFilter B)) (name tier : string) :
  In name tier_setters ->
  py_int tier = Raise ValueError ->
  command_body B input e lf name [tier] = Raise ValueError.
Proof.
  unfold tier_setters. cbn [In]. intros H Hint.
  repeat (destruct H as [<-|H];
          [cbv beta iota zeta delta [command_body String.eqb Ascii.eqb Bool.eqb];
           unfold int_setter; simpl; unfold param; simpl; now rewrite Hint|]).
  contradiction.
Qed.

(** C7 (as stated) fails: an unknown visibility word and a loot filter
    that cannot be parsed are reported in exactly the same way -- the
    same effects, the same exit code, the same exception class. *)
Lemma invalid_parameter_counterexample :
  main (toy_backend no_currency)
    ["backend_cli.py"; "set_rule_visibility"; "currency"; "t1"; "bogus"; "Profile"]
    (toy_world (toy_backend no_currency) tt [] [])
  = main (toy_backend no_currency)
      ["backend_cli.py"; "get_all_added_socket_rules"; "Corrupt"]
      (toy_world (toy_backend no_currency) tt [] []) /\
  fst (fst (main (toy_backend no_currency)
              ["backend_cli.py"; "set_rule_visibility"; "currency"; "t1"; "bogus"; "Profile"]
              (toy_world (toy_backend no_currency) tt [] [])))
  = [WriteExitCode (toy_backend no_currency) "-1";
     LogTraceback (toy_backend no_currency) KeyError;
     WriteExitCode (toy_backend no_currency) "1"].
Proof. split; reflexivity. Qed.

(** C7 (amended) -- Invalid parameter values.  A tier that int() does not
    accept makes a set_*_tier command raise ValueError, and a visibility
    word other than show, hide and disable makes set_rule_visibility (on
    a rule that exists) raise KeyError; DelegateFunctionCall passes the
    exception on with no effect: no output, no save, no change-log
    entry.  main reports it like every other exception that derives from
    Exception: it logs the traceback, writes the exit code '1' and
    re-raises. *)
Theorem invalid_parameter_raises (B : Backend) (w : World B) :
  (forall lf name tier,
      In name tier_setters ->
      py_int tier = Raise ValueError ->
      DelegateFunctionCall B lf name [tier] w = (w, Raise ValueError)) /\
  (forall lf currency_name tier,
      py_int tier = Raise ValueError ->
      DelegateFunctionCall B lf "set_currency_to_tier" [currency_name; tier] w
      = (w, Raise ValueError)) /\
  (forall lf type_tag tier_tag word rule,
      GetRule B type_tag tier_tag lf = Ok rule ->
      word <> "show" -> word <> "hide" -> word <> "disable" ->
      DelegateFunctionCall B (Some lf) "set_rule_visibility" [type_tag; tier_tag; word] w
      = (w, Raise KeyError)) /\
  (forall argv e,
      snd (main_impl B argv (at_start B w)) = Raise e ->
      derives_from_Exception e = true ->
      snd (main B argv w) = Raise e /\
      exit_code_file B (fst (fst (main B argv w))) None = Some "1" /\
      exists inside,
        fst (fst (main B argv w))
        = [WriteExitCode B "-1"] ++ map (Inside B) inside
          ++ [LogTraceback B e; WriteExitCode B "1"]).
Proof.
  split; [|split; [|split; [|intros argv e Hraise Hd; unfold main;
    destruct (main_impl B argv (at_start B w)) as [w' [[]|e']];
    cbn [fst snd] in Hraise; [discriminate Hraise|];
    injection Hraise as ->; rewrite Hd; cbn [fst snd];
    split; [reflexivity|]; split;
    [rewrite app_assoc, exit_code_file_app; reflexivity
    |exists (events w'); reflexivity]]]].
  - intros lf name tier Hin Hint.
    destruct (tier_setter_not_batch name) as [H1 H2].
    { right. right. exact Hin. }
    apply DelegateFunctionCall_raises; auto. now apply tier_setter_invalid.
  - intros lf currency_name tier Hint.
    apply DelegateFunctionCall_raises; auto.
    cbv beta iota zeta delta [command_body String.eqb Ascii.eqb Bool.eqb].
    unfold set_currency_to_tier. simpl. unfold param. simpl. now rewrite Hint.
  - intros lf type_tag tier_tag word rule Hrule Hs Hh Hd.
    apply DelegateFunctionCall_raises; auto.
    cbv beta iota zeta delta [command_body String.eqb Ascii.eqb Bool.eqb].
    unfold set_rule_visibility. simpl. unfold param. simpl. rewrite Hrule. simpl.
    unfold visibility_map, dict_item. cbn [dict_get].
    apply not_eq_sym in Hs, Hh, Hd. apply String.eqb_neq in Hs, Hh, Hd.
    now rewrite Hs, Hh, Hd.
Qed.

(** The tiers are a word, and a number behind the separator of code point
    28, which str.strip() removes and int() does not accept. *)
Lemma invalid_parameter_raises_witness :
  DelegateFunctionCall (toy_backend no_currency) (Some [])
    "set_hide_maps_below_tier" ["a"]
    (toy_world (toy_backend no_currency) tt [] [])
  = (toy_world (toy_backend no_currency) tt [] [], Raise ValueError) /\
  DelegateFunctionCall (toy_backend no_currency) (Some [])
    "set_hide_maps_below_tier" [String (Ascii.ascii_of_nat 28) "7"]
    (toy_world (toy_backend no_currency) tt [] [])
  = (toy_world (toy_backend no_currency) tt [] [], Raise ValueError).
Proof.
  split;
    apply (proj1 (invalid_parameter_raises (toy_backend no_currency)
                    (toy_world (toy_backend no_currency) tt [] [])));
    solve [unfold tier_setters; simpl; tauto | reflexivity].
Defined.

(** ** Replaying the changes file *)

Lemma in_batch_suppressed (B : Backend) (lf : option (LootFilter B))
  (name : string) (params : list string) (w : World B) :
  DelegateFunctionCall_in_batch B true lf name params w =
  match command_body B (input_file w) (env w) lf name params with
  | Ok (e', lf', _, _) => (with_env B e' w, Ok lf')
  | Raise e => (w, Raise e)
  end.
Proof.
  unfold DelegateFunctionCall_in_batch.
  destruct (command_body _ _ _ _ _ _) as [[[[e' lf'] out] params']|e] eqn:E; [|reflexivity].
  destruct (command_body_known _ _ _ _ _ _ _ E) as [modifies ->].
  now rewrite andb_false_r.
Qed.

Lemma replay_changes_in_order (B : Backend) (lines : list string) :
  forall (calls : list (list string)) (lf : option (LootFilter B)) (w : World B)
         (e' : Env B) (lf' : option (LootFilter B)),
    Forall2 (fun line call => shlex_split line = Ok call) lines calls ->
    for_each calls (apply_call B (input_file w)) (env w, lf) = Ok (e', lf') ->
    replay_changes B lines lf w = (with_env B e' w, Ok lf').
Proof.
  induction lines as [|line lines IH]; intros calls lf w e' lf' H2 Hrun.
  - inversion H2; subst. simpl in Hrun. inversion Hrun; subst.
    destruct w; reflexivity.
  - inversion H2 as [|? call ? calls' Hsplit Hrest]; subst.
    cbn [for_each] in Hrun. cbn [replay_changes]. unfold split_call. rewrite Hsplit.
    cbn [rbind]. destruct call as [|name params]; [discriminate Hrun|].
    rewrite in_batch_suppressed. unfold apply_call in Hrun at 1. cbn [fst snd] in Hrun.
    destruct (command_body B (input_file w) (env w) lf name params)
      as [[[[e1 lf1] out] params1]|e]; [|discriminate Hrun].
    cbn [rbind fst snd] in Hrun.
    rewrite (IH calls' lf1 (with_env B e1 w) e' lf' Hrest Hrun). reflexivity.
Qed.

Lemma last_value_In (es : list (list string)) (key : list string) (v : string) :
  Forall (fun e => e <> []) es ->
  last_value es key = Some v -> In (key ++ [v]) es.
Proof.
  induction 1 as [|e es He Hes IH]; simpl; [discriminate|].
  destruct (last_value es key) as [v'|]; [intros [= ->]; auto|].
  destruct (list_eqb (removelast e) key) eqn:E; [|discriminate].
  apply list_eqb_true in E. intros [= <-]. left. subst key.
  now apply app_removelast_last.
Qed.

Lemma Forall_firstn {A : Type} (P : A -> Prop) (n : nat) (l : list A) :
  Forall P l -> Forall P (firstn n l).
Proof.
  intros H. revert n. induction H as [|a l Ha Hl IH]; intros [|n]; simpl; constructor; auto.
Qed.

Lemma entry_of_safe (P : string -> Prop) (c : list string) :
  Forall P c -> Forall P (entry_of c).
Proof.
  intros H. unfold entry_of. destruct c as [|f rest]; [constructor|].
  destruct (num_params_for_match f); [|constructor]. now apply Forall_firstn.
Qed.

Lemma flatten_lines_from_history (P : string -> Prop) (history : list (list string))
  (t : changes_dict) :
  fold_changes history [] = Ok t ->
  Forall (Forall P) history ->
  Forall (Forall P) (flatten t).
Proof.
  intros Hf Hsafe. pose proof (reachable_ReprRoot history t Hf) as Hr.
  pose proof (spec_flatten_ok history (proj1 Hr)) as [_ Hm].
  rewrite <- (flatten_ReprRoot _ _ Hr) in Hm.
  apply Forall_forall. intros l Hl. apply Hm in Hl. destruct Hl as (key & v & -> & Hv).
  apply last_value_In in Hv; [|apply entry_wf_nonempty, Hr].
  apply in_map_iff in Hv. destruct Hv as (c & <- & Hc).
  apply entry_of_safe. rewrite Forall_forall in Hsafe. auto.
Qed.

Lemma split_written_lines (lines : list (list string)) :
  Forall (Forall (fun s => token_safe s = true)) lines ->
  Forall2 (fun line call => shlex_split line = Ok call) (map JoinParams lines) lines.
Proof.
  induction 1 as [|l lines Hl Hls IH]; simpl; constructor; auto.
  now apply shlex_split_JoinParams.
Qed.

Lemma import_or_load_in_order (B : Backend) (w : World B) (lf : LootFilter B)
  (calls : list (list string)) (e' : Env B) (lf' : LootFilter B) :
  Forall2 (fun line call => shlex_split line = Ok call) (changes_file w) calls ->
  for_each calls (apply_call B (input_file w)) (env w, Some lf) = Ok (e', Some lf') ->
  import_or_load B (Some lf) [] w
  = (log_event B (SaveToFile B lf') (with_env B e' w), Ok (Some lf')).
Proof.
  intros H2 Hrun. unfold import_or_load. simpl.
  rewrite (replay_changes_in_order B _ calls (Some lf) w e' (Some lf') H2 Hrun).
  reflexivity.
Qed.

(** C4 (as stated) fails: the order of the file is not the first-insertion
    order of the keys.  In the history below no key is given twice, so
    the first-insertion order of the keys is the order of the history;
    the compactor writes the key of "Exalted Orb", inserted last, as the
    second line, next to the other line of set_currency_to_tier, and the
    import executes it second, before set_hide_maps_below_tier. *)
Lemma replay_order_counterexample :
  let history :=
    [["set_currency_to_tier"; "Chaos Orb"; "3"];
     ["set_hide_maps_below_tier"; "10"];
     ["set_currency_to_tier"; "Exalted Orb"; "1"]] in
  let t :=
    [("set_currency_to_tier",
      Dict [("Chaos Orb", Leaf "3"); ("Exalted Orb", Leaf "1")]);
     ("set_hide_maps_below_tier", Leaf "10")] in
  NoDup (map cmd_key history) /\
  fold_changes history [] = Ok t /\
  map shlex_split (ConvertChangesDictToFunctionList t)
  = [Ok ["set_currency_to_tier"; "Chaos Orb"; "3"];
     Ok ["set_currency_to_tier"; "Exalted Orb"; "1"];
     Ok ["set_hide_maps_below_tier"; "10"]] /\
  snd (DelegateFunctionCall (toy_backend no_currency) (Some [])
         "import_downloaded_filter" []
         (toy_world (toy_backend no_currency) tt
            (ConvertChangesDictToFunctionList t) []))
  = Ok (Some ["SetCurrencyToTier Chaos Orb 3"; "SetCurrencyToTier Exalted Orb 1";
              "SetHideMapsBelowTierTier 10"]) /\
  for_each history (apply_call (toy_backend no_currency) []) (tt, Some [])
  = Ok (tt, Some ["SetCurrencyToTier Chaos Orb 3"; "SetHideMapsBelowTierTier 10";
                  "SetCurrencyToTier Exalted Orb 1"]).
Proof.
  cbv zeta. split; [|repeat split].
  repeat constructor; cbn; intuition discriminate.
Qed.

(** C4 (amended) -- Replay order.  import_downloaded_filter and
    load_input_filter execute the lines of the changes file one after
    the other in the order of the file, each on the filter the previous
    one left, and then save once.  When the file is what the compactor
    wrote for a history of commands, that order is the flattened order of
    the trie ([spec_flatten]: the lines grouped by command name and, below
    it, by each parameter of the key, the groups of every level in the
    order of their first insertion), which is not the first-insertion
    order of the keys as a whole.  It is not the order of the latest
    updates either: a command whose key the history already holds changes
    the value of its line and leaves the order of the keys as it was. *)
Theorem replay_in_file_order (B : Backend) (w : World B) (lf : LootFilter B) :
  (forall name calls e' lf',
      In name ["import_downloaded_filter"; "load_input_filter"] ->
      Forall2 (fun line call => shlex_split line = Ok call) (changes_file w) calls ->
      for_each calls (apply_call B (input_file w)) (env w, Some lf) = Ok (e', Some lf') ->
      DelegateFunctionCall B (Some lf) name [] w
      = (log_event B (WriteOutput B "")
           (log_event B (SaveToFile B lf') (with_env B e' w)),
         Ok (Some lf'))) /\
  (forall name history t e' lf',
      In name ["import_downloaded_filter"; "load_input_filter"] ->
      fold_changes history [] = Ok t ->
      Forall (Forall (fun s => token_safe s = true)) history ->
      changes_file w = ConvertChangesDictToFunctionList t ->
      for_each (spec_flatten history) (apply_call B (input_file w)) (env w, Some lf)
      = Ok (e', Some lf') ->
      DelegateFunctionCall B (Some lf) name [] w
      = (log_event B (WriteOutput B "")
           (log_event B (SaveToFile B lf') (with_env B e' w)),
         Ok (Some lf'))) /\
  (forall history t c t',
      fold_changes history [] = Ok t ->
      In (cmd_key c) (map cmd_key history) ->
      AddFunctionToChangesDict c t = Ok t' ->
      flatten t' = spec_flatten (history ++ [c]) /\
      flatten t' = overwrite_line (cmd_key c) (cmd_value c) (flatten t) /\
      map (@removelast string) (flatten t') = map (@removelast string) (flatten t)).
Proof.
  assert (Hfile : forall name calls e' lf',
      In name ["import_downloaded_filter"; "load_input_filter"] ->
      Forall2 (fun line call => shlex_split line = Ok call) (changes_file w) calls ->
      for_each calls (apply_call B (input_file w)) (env w, Some lf) = Ok (e', Some lf') ->
      DelegateFunctionCall B (Some lf) name [] w
      = (log_event B (WriteOutput B "")
           (log_event B (SaveToFile B lf') (with_env B e' w)),
         Ok (Some lf'))).
  { intros name calls e' lf' Hname H2 Hrun. unfold DelegateFunctionCall.
    destruct Hname as [<-|[<-|[]]];
      cbn [String.eqb Ascii.eqb Bool.eqb orb andb];
      rewrite (import_or_load_in_order B w lf calls e' lf' H2 Hrun); reflexivity. }
  split; [exact Hfile|]. split.
  - intros name history t e' lf' Hname Hf Hsafe Hchanges Hrun.
    apply (Hfile name (spec_flatten history)); [exact Hname| |exact Hrun].
    rewrite Hchanges. unfold ConvertChangesDictToFunctionList. fold (flatten t).
    pose proof (flatten_lines_from_history _ history t Hf Hsafe) as Hlines.
    rewrite <- (flatten_ReprRoot t history (reachable_ReprRoot history t Hf)).
    now apply split_written_lines.
  - intros history t c t' Hf Hin Ha.
    pose proof (flatten_add_present history t t' c Hf Hin Ha) as Hover.
    split; [|split; [exact Hover|]].
    + pose proof (reachable_ReprRoot history t Hf) as Hr.
      pose proof (AddFunctionToChangesDict_ReprRoot c t t' _ Hr Ha) as Hr'.
      change [entry_of c] with (map entry_of [c]) in Hr'. rewrite <- map_app in Hr'.
      exact (flatten_ReprRoot _ _ Hr').
    + rewrite Hover. apply overwrite_line_keys.
Qed.

(** The history inserts the key of "Exalted Orb" after the key of
    set_hide_maps_below_tier and updates "Chaos Orb" last; the replay
    sets "Chaos Orb" first, then "Exalted Orb", then the maps: neither
    the first-insertion order of the keys nor the order of the latest
    updates. *)
Lemma replay_in_file_order_witness :
  DelegateFunctionCall (toy_backend no_currency) (Some []) "import_downloaded_filter" []
    (toy_world (toy_backend no_currency) tt
       (ConvertChangesDictToFunctionList
          [("set_currency_to_tier",
            Dict [("Chaos Orb", Leaf "5"); ("Exalted Orb", Leaf "1")]);
           ("set_hide_maps_below_tier", Leaf "10")])
       [])
  = (log_event (toy_backend no_currency) (WriteOutput (toy_backend no_currency) "")
       (log_event (toy_backend no_currency)
          (SaveToFile (toy_backend no_currency)
             ["SetCurrencyToTier Chaos Orb 5"; "SetCurrencyToTier Exalted Orb 1";
              "SetHideMapsBelowTierTier 10"])
          (toy_world (toy_backend no_currency) tt
             (ConvertChangesDictToFunctionList
                [("set_currency_to_tier",
                  Dict [("Chaos Orb", Leaf "5"); ("Exalted Orb", Leaf "1")]);
                 ("set_hide_maps_below_tier", Leaf "10")])
             [])),
     Ok (Some ["SetCurrencyToTier Chaos Orb 5"; "SetCurrencyToTier Exalted Orb 1";
               "SetHideMapsBelowTierTier 10"])).
Proof.
  apply (proj1 (proj2 (replay_in_file_order (toy_backend no_currency)
                  (toy_world (toy_backend no_currency) tt
                     (ConvertChangesDictToFunctionList
                        [("set_currency_to_tier",
                          Dict [("Chaos Orb", Leaf "5"); ("Exalted Orb", Leaf "1")]);
                         ("set_hide_maps_below_tier", Leaf "10")])
                     [])
                  []))
           "import_downloaded_filter"
           [["set_currency_to_tier"; "Chaos Orb"; "3"];
            ["set_hide_maps_below_tier"; "10"];
            ["set_currency_to_tier"; "Exalted Orb"; "1"];
            ["set_currency_to_tier"; "Chaos Orb"; "5"]]
           [("set_currency_to_tier",
             Dict [("Chaos Orb", Leaf "5"); ("Exalted Orb", Leaf "1")]);
            ("set_hide_maps_below_tier", Leaf "10")]
           tt ["SetCurrencyToTier Chaos Orb 5"; "SetCurrencyToTier Exalted Orb 1";
               "SetHideMapsBelowTierTier 10"]).
  - simpl. auto.
  - reflexivity.
  - repeat constructor.
  - reflexivity.
  - reflexivity.
Defined.


(** ** The exact domain of the quoting round trip *)

Lemma length_append (a b : string) :
  String.length (a +++ b) = String.length a + String.length b.
Proof. induction a as [|c a IH]; simpl; [reflexivity | now rewrite IH]. Qed.

Lemma length_snoc (token : string) (c : ascii) :
  String.length (snoc token c) = String.length token + 1.
Proof. unfold snoc. now rewrite length_append. Qed.

Lemma snoc_snoc_append (token : string) (c c' : ascii) (s : string) :
  snoc (snoc token c) c' +++ s = token +++ String c (String c' s).
Proof. now rewrite !snoc_append. Qed.

(** Between double quotes: from the quote state (first part) and after a
    backslash (second part). *)
Lemma read_tokens_quoted_exact (s : string) :
  all_chars (fun c => negb (Ascii.eqb c double_quote)) s = true ->
  (forall token quoted esc,
      if escapes_ok s
      then read_tokens (s +++ String double_quote "") (StQuote double_quote) esc token quoted
           = Ok [token +++ s]
      else short (read_tokens (s +++ String double_quote "") (StQuote double_quote)
                    esc token quoted)
                 (String.length token + String.length s)) /\
  (forall token quoted,
      match s with
      | EmptyString =>
          read_tokens (String double_quote "") StEscape (StQuote double_quote) token quoted
          = Raise ValueError
      | String c' s'' =>
          if negb (is_escape c') && escapes_ok s''
          then read_tokens (s +++ String double_quote "") StEscape (StQuote double_quote)
                 token quoted
               = Ok [token +++ String backslash s]
          else short (read_tokens (s +++ String double_quote "") StEscape
                        (StQuote double_quote) token quoted)
                     (String.length token + 1 + String.length s)
      end).
Proof.
  induction s as [|c s IH]; intros Hdq.
  - split; intros; simpl; [now rewrite append_nil_r | reflexivity].
  - simpl in Hdq. apply andb_true_iff in Hdq. destruct Hdq as [Hc Hs].
    apply negb_true_iff in Hc. destruct (IH Hs) as [IHq IHe]. clear IH. split.
    + intros token quoted esc. cbn [String.append read_tokens escapes_ok]. rewrite Hc.
      destruct (is_escape c) eqn:Ec.
      * unfold is_escape in Ec. apply Ascii.eqb_eq in Ec. subst c.
        cbn [andb]. rewrite Ascii.eqb_refl.
        specialize (IHe token true). destruct s as [|c' s''].
        -- cbn [String.append]. rewrite IHe. exact I.
        -- destruct (negb (is_escape c') && escapes_ok s''); [exact IHe|].
           cbn [String.length] in *.
           replace (String.length token + S (S (String.length s'')))
             with (String.length token + 1 + S (String.length s'')) by lia.
           exact IHe.
      * cbn [andb]. specialize (IHq (snoc token c) true esc).
        destruct (escapes_ok s).
        -- rewrite IHq. now rewrite snoc_append.
        -- rewrite length_snoc in IHq. cbn [String.length].
           replace (String.length token + S (String.length s))
             with (String.length token + 1 + String.length s) by lia.
           exact IHq.
    + intros token quoted. cbn [String.append read_tokens]. rewrite Hc.
      destruct (is_escape c) eqn:Ec.
      * unfold is_escape in Ec. rewrite Ec. cbn [negb andb].
        specialize (IHq (snoc token c) quoted (StQuote double_quote)).
        unfold short in *. destruct (escapes_ok s).
        -- rewrite IHq. simpl. rewrite length_append, length_snoc. simpl. lia.
        -- destruct (read_tokens _ _ _ _ _); [|exact I].
           rewrite length_snoc in IHq. simpl. lia.
      * unfold is_escape in Ec. rewrite Ec. cbn [negb andb].
        specialize (IHq (snoc (snoc token backslash) c) quoted (StQuote double_quote)).
        destruct (escapes_ok s).
        -- rewrite IHq. now rewrite snoc_snoc_append.
        -- rewrite !length_snoc in IHq. cbn [String.length].
           replace (String.length token + 1 + S (String.length s))
             with (String.length token + 1 + 1 + String.length s) by lia.
           exact IHq.
Qed.

Lemma bounded_emit (token : string) (quoted : bool) (next : result (list string))
  (strict n : nat) :
  String.eqb token "" = false ->
  bounded next strict n ->
  bounded (emit token quoted next) strict (String.length token + n).
Proof.
  unfold emit. intros ->. rewrite andb_false_r.
  destruct next; simpl; [lia | trivial].
Qed.

Lemma bounded_weaken (r : result (list string)) (strict strict' n n' : nat) :
  bounded r strict n -> strict' + n <= strict + n' -> bounded r strict' n'.
Proof. destruct r; simpl; [lia | trivial]. Qed.

Lemma strictness_le (s : string) : strictness s <= 1.
Proof. induction s as [|c s IH]; simpl; [lia|]. destruct (is_special c); lia. Qed.

(** Outside quotes: no token can make up for a character that the lexer
    drops (a backslash, or a tab, carriage return or line feed). *)
Lemma read_tokens_unquoted_bound (s : string) :
  all_chars unquoted_char s = true ->
  forall token,
    (forall esc, bounded (read_tokens s StWhite esc token false)
                   (strictness s) (String.length token + String.length s)) /\
    (forall esc, bounded (read_tokens s StWord esc token false)
                   (strictness s) (String.length token + String.length s)) /\
    bounded (read_tokens s StEscape StWord token false)
      0 (String.length token + String.length s).
Proof.
  induction s as [|c s IH]; intros Hs token.
  - simpl. unfold emit. simpl. repeat split; intros;
      try (destruct (String.eqb token ""); simpl; lia).
  - simpl in Hs. apply andb_true_iff in Hs. destruct Hs as [Hc Hs].
    unfold unquoted_char in Hc. apply andb_true_iff in Hc. destruct Hc as [Hsp Hq].
    apply negb_true_iff in Hsp, Hq. specialize (IH Hs).
    pose proof (strictness_le s) as Hle.
    assert (Hws : is_whitespace c = true -> is_special c = true).
    { unfold is_whitespace, is_special. rewrite Hsp.
      destruct (is_escape c), (Ascii.eqb c tab), (Ascii.eqb c carriage_return),
        (Ascii.eqb c line_feed); simpl; auto. }
    assert (Hplain : is_whitespace c = false -> is_escape c = false -> is_special c = false).
    { unfold is_whitespace, is_special. rewrite Hsp. intros H ->.
      destruct (Ascii.eqb c tab), (Ascii.eqb c carriage_return),
        (Ascii.eqb c line_feed); simpl in *; auto. }
    assert (Hesc : is_escape c = true -> is_special c = true).
    { unfold is_special. intros ->. reflexivity. }
    cbn [read_tokens strictness String.length]. rewrite Hq. repeat split.
    + intros esc. destruct (is_whitespace c) eqn:Ew.
      * rewrite (Hws eq_refl). destruct (String.eqb token "") eqn:Et; cbn [negb orb].
        -- eapply bounded_weaken; [apply (proj1 (IH token) esc)|]. lia.
        -- eapply bounded_weaken;
             [apply (bounded_emit token false _ (strictness s)
                       (String.length "" + String.length s) Et);
              apply (proj1 (IH "") StWhite)|].
           simpl. lia.
      * destruct (is_escape c) eqn:Ee.
        -- rewrite (Hesc eq_refl).
           eapply bounded_weaken; [apply (proj2 (proj2 (IH token)))|]. lia.
        -- rewrite (Hplain eq_refl eq_refl).
           eapply bounded_weaken; [apply (proj1 (proj2 (IH (String c ""))) esc)|].
           simpl. lia.
    + intros esc. destruct (is_whitespace c) eqn:Ew.
      * rewrite (Hws eq_refl). destruct (String.eqb token "") eqn:Et; cbn [negb orb].
        -- eapply bounded_weaken; [apply (proj1 (IH token) esc)|]. lia.
        -- eapply bounded_weaken;
             [apply (bounded_emit token false _ (strictness s)
                       (String.length "" + String.length s) Et);
              apply (proj1 (IH "") StWhite)|].
           simpl. lia.
      * destruct (is_escape c) eqn:Ee.
        -- rewrite (Hesc eq_refl).
           eapply bounded_weaken; [apply (proj2 (proj2 (IH token)))|]. lia.
        -- rewrite (Hplain eq_refl eq_refl).
           eapply bounded_weaken; [apply (proj1 (proj2 (IH (snoc token c))) esc)|].
           rewrite length_snoc. lia.
    + eapply bounded_weaken; [apply (proj1 (proj2 (IH (snoc token c))) StWord)|].
      rewrite length_snoc. lia.
Qed.

Lemma strictness_zero (s : string) :
  strictness s = 0 ->
  contains backslash s = false /\ contains tab s = false /\
  contains carriage_return s = false /\ contains line_feed s = false.
Proof.
  induction s as [|c s IH]; simpl; [auto|].
  destruct (is_special c) eqn:E; [discriminate|]. intros H.
  destruct (IH H) as (-> & -> & -> & ->).
  unfold is_special, is_escape in E. rewrite !orb_false_iff in E.
  destruct E as [[[-> ->] ->] ->]. auto.
Qed.

Lemma roundtrip_ok_safe_unquoted (s : string) :
  contains double_quote s = false ->
  contains space s || contains single_quote s = false ->
  roundtrip_ok s = true -> token_safe s = true.
Proof.
  intros Hd Hq. unfold roundtrip_ok, token_safe, needs_quote. rewrite Hq, Hd. intros H.
  rewrite !andb_true_iff, !negb_true_iff in H. destruct H as [[[[Hn Hb] Ht] Hr] Hl].
  rewrite Hn, Hb, Ht, Hr, Hl. reflexivity.
Qed.

Lemma unquoted_chars (s : string) :
  contains double_quote s = false ->
  contains space s || contains single_quote s = false ->
  all_chars unquoted_char s = true.
Proof.
  intros Hd Hq. apply orb_false_iff in Hq. destruct Hq as [Hs Hq].
  induction s as [|c s IH]; simpl in *; [reflexivity|].
  apply orb_false_iff in Hd, Hs, Hq. destruct Hd as [Hd Hd'], Hs as [Hs Hs'], Hq as [Hq Hq'].
  rewrite IH by assumption. unfold unquoted_char, is_quote. now rewrite Hd, Hs, Hq.
Qed.

Lemma quote_roundtrip_quoted (s : string) :
  contains double_quote s = false ->
  contains space s || contains single_quote s = true ->
  (shlex_split (QuoteStringIfRequired s) = Ok [s] <-> escapes_ok s = true).
Proof.
  intros Hd Hq. unfold QuoteStringIfRequired, shlex_split. rewrite Hq.
  cbn [read_tokens].
  replace (is_whitespace double_quote) with false by reflexivity.
  replace (is_escape double_quote) with false by reflexivity.
  replace (is_quote double_quote) with true by reflexivity. cbv iota.
  apply contains_false_all in Hd.
  pose proof (proj1 (read_tokens_quoted_exact s Hd) "" false StWhite) as H.
  destruct (escapes_ok s).
  - rewrite H. simpl. tauto.
  - split; [|discriminate]. intros E. rewrite E in H. simpl in H. lia.
Qed.

Lemma quote_roundtrip_unquoted (s : string) :
  contains double_quote s = false ->
  contains space s || contains single_quote s = false ->
  (shlex_split (QuoteStringIfRequired s) = Ok [s] <-> roundtrip_ok s = true).
Proof.
  intros Hd Hq. split.
  - unfold QuoteStringIfRequired, shlex_split. rewrite Hq. intros E.
    pose proof (proj1 (read_tokens_unquoted_bound s (unquoted_chars s Hd Hq) "") StWhite) as H.
    rewrite E in H. simpl in H.
    assert (Hz : strictness s = 0) by lia.
    destruct (strictness_zero s Hz) as (Hb & Ht & Hr & Hl).
    unfold roundtrip_ok. rewrite Hq, Hb, Ht, Hr, Hl.
    destruct s; [discriminate E | reflexivity].
  - intros Hok. pose proof (roundtrip_ok_safe_unquoted s Hd Hq Hok) as Hs.
    exact (shlex_split_JoinParams [s] (Forall_cons _ Hs (Forall_nil _))).
Qed.

(** C3 (amended) -- Quoting round trip.  QuoteStringIfRequired wraps [s]
    in double quotes exactly when [s] contains a space or a single quote
    and returns it unchanged otherwise.  For a string [s] with no double
    quote, tokenizing the quoted form gives back exactly [s] if and only
    if either [s] contains a space or a single quote and each of its
    backslashes is followed by a character other than a backslash, or
    [s] contains neither, is not empty, and holds no backslash, tab,
    carriage return or line feed. *)
Theorem quote_roundtrip (s : string) :
  contains double_quote s = false ->
  QuoteStringIfRequired s =
    (if contains space s || contains single_quote s
     then String double_quote (s +++ String double_quote "") else s) /\
  (shlex_split (QuoteStringIfRequired s) = Ok [s] <-> roundtrip_ok s = true).
Proof.
  intros Hd. split; [reflexivity|].
  destruct (contains space s || contains single_quote s) eqn:Hq.
  - unfold roundtrip_ok. rewrite Hq. now apply quote_roundtrip_quoted.
  - now apply quote_roundtrip_unquoted.
Qed.

Lemma quote_roundtrip_witness :
  QuoteStringIfRequired "Chaos Orb" =
    String double_quote ("Chaos Orb" +++ String double_quote "") /\
  (shlex_split (QuoteStringIfRequired "Chaos Orb") = Ok ["Chaos Orb"] <->
   roundtrip_ok "Chaos Orb" = true).
Proof. exact (quote_roundtrip "Chaos Orb" eq_refl). Defined.

(** ** Reachable tries are the results of folding a command sequence *)

Lemma fold_changes_snoc (cmds : list (list string)) (c : list string) :
  forall t0 t t',
    fold_changes cmds t0 = Ok t ->
    AddFunctionToChangesDict c t = Ok t' ->
    fold_changes (cmds ++ [c]) t0 = Ok t'.
Proof.
  induction cmds as [|c0 cmds IH]; intros t0 t t' Hf Ha; simpl in *.
  - inversion Hf; subst. now rewrite Ha.
  - destruct (AddFunctionToChangesDict c0 t0) as [t1|]; [|discriminate].
    simpl in *. eapply IH; eauto.
Qed.

Lemma reachable_fold (t : changes_dict) :
  reachable t <-> exists cmds, fold_changes cmds [] = Ok t.
Proof.
  split.
  - induction 1 as [|tokens t t' Hr [cmds IH] Ha].
    + now exists [].
    + exists (cmds ++ [tokens]). eapply fold_changes_snoc; eauto.
  - intros [cmds Hf]. revert t Hf.
    induction cmds as [|c cmds IH] using rev_ind; intros t Hf.
    + inversion Hf. constructor.
    + assert (H : exists t0, fold_changes cmds [] = Ok t0 /\
                             AddFunctionToChangesDict c t0 = Ok t).
      { clear IH. revert Hf. generalize (@nil (string * node)) as t0.
        induction cmds as [|c0 cmds IHc]; intros t0; simpl.
        - destruct (AddFunctionToChangesDict c t0) as [t1|] eqn:E; simpl; [|discriminate].
          intros [= <-]. eauto.
        - destruct (AddFunctionToChangesDict c0 t0) as [t1|]; simpl; [|discriminate].
          apply IHc. }
      destruct H as (t0 & Hf0 & Ha). econstructor; eauto.
Qed.

(** ** Rebuilding the trie from its flattened lines *)

Lemma filter_other_idem (h : string) (l : list string) :
  filter (fun y => negb (String.eqb h y)) (filter (fun y => negb (String.eqb h y)) l)
  = filter (fun y => negb (String.eqb h y)) l.
Proof.
  induction l as [|x l IH]; simpl; [reflexivity|].
  destruct (negb (String.eqb h x)) eqn:E; simpl; [rewrite E|]; now rewrite IH.
Qed.

Lemma filter_other_notin (h : string) (l : list string) :
  ~ In h l -> filter (fun y => negb (String.eqb h y)) l = l.
Proof.
  induction l as [|x l IH]; simpl; [reflexivity|]. intros Hn.
  destruct (String.eqb h x) eqn:E.
  - apply String.eqb_eq in E. subst. tauto.
  - simpl. rewrite IH; tauto.
Qed.

Lemma first_insertion_order_group (h : string) (xs : list (list string)) (l : list string) :
  xs <> [] ->
  first_insertion_order (map (hd "") (map (cons h) xs) ++ l)
  = h :: filter (fun y => negb (String.eqb h y)) (first_insertion_order l).
Proof.
  induction xs as [|x xs IH]; [congruence|]. intros _.
  destruct xs as [|x' xs]; [reflexivity|].
  cbn [map hd app first_insertion_order] in *.
  rewrite IH by discriminate. cbn [filter]. rewrite String.eqb_refl. cbn [negb].
  now rewrite filter_other_idem.
Qed.

Lemma heads_grouped (X : string -> list (list string)) (hs : list string) :
  NoDup hs -> (forall h, In h hs -> X h <> []) ->
  heads (flat_map (fun h => map (cons h) (X h)) hs) = hs.
Proof.
  unfold heads. induction 1 as [|h hs Hni Hnd IH]; intros HX; [reflexivity|].
  cbn [flat_map]. rewrite map_app, first_insertion_order_group by (apply HX; now left).
  rewrite IH by (intros; apply HX; now right).
  now rewrite filter_other_notin.
Qed.

Lemma sub_grouped (X : string -> list (list string)) (hs : list string) (h : string) :
  NoDup hs -> In h hs ->
  sub h (flat_map (fun h' => map (cons h') (X h')) hs) = X h.
Proof.
  unfold sub.
  assert (Hsame : forall xs, map (@tl string) (filter (head_is h) (map (cons h) xs)) = xs).
  { induction xs as [|x xs IHx]; simpl; [reflexivity|].
    rewrite String.eqb_refl. simpl. now rewrite IHx. }
  assert (Hother : forall h' xs, h' <> h -> filter (head_is h) (map (cons h') xs) = []).
  { intros h' xs Hne. induction xs as [|x xs IHx]; simpl; [reflexivity|].
    apply String.eqb_neq in Hne. now rewrite Hne. }
  assert (Hnone : forall l, ~ In h l ->
            filter (head_is h) (flat_map (fun h' => map (cons h') (X h')) l) = []).
  { induction l as [|h' l IHl]; simpl; [reflexivity|]. intros Hn.
    rewrite filter_app, Hother, IHl by tauto. reflexivity. }
  induction 1 as [|h0 hs Hni Hnd IH]; intros Hin; [destruct Hin|].
  cbn [flat_map]. rewrite filter_app, map_app. destruct Hin as [->|Hin].
  - rewrite Hsame, Hnone by assumption. apply app_nil_r.
  - rewrite Hother by (intros ->; contradiction). now apply IH.
Qed.

Lemma level_ok_own_lines (P : string -> node -> list (list string) -> Prop)
  (G : string -> list (list string) -> list (list string))
  (items : list (string * node)) (es : list (list string)) :
  level_ok P items es ->
  (forall h, In h (heads es) -> G h (sub h es) <> []) ->
  (forall h n, In h (heads es) -> P h n (sub h es) -> P h n (G h (sub h es))) ->
  level_ok P items (flat_map (fun h => map (cons h) (G h (sub h es))) (heads es)).
Proof.
  intros [Hk Hc] Hne HP. split.
  - rewrite (heads_grouped (fun h => G h (sub h es))); auto using heads_NoDup.
  - intros h n Hg.
    assert (Hin : In h (heads es)).
    { rewrite <- Hk. apply dict_get_In in Hg. change h with (fst (h, n)). now apply in_map. }
    rewrite (sub_grouped (fun h => G h (sub h es))); auto using heads_NoDup.
Qed.

Lemma spec_lines_nonempty (k : nat) :
  forall es, Forall (fun e => List.length e = S k) es -> es <> [] -> spec_lines k es <> [].
Proof.
  induction k as [|k IH]; intros es Hlen Hne; [discriminate|].
  cbn [spec_lines].
  assert (Hnn : Forall (fun e => e <> []) es) by now apply (Forall_length_nonempty (S k)).
  destruct (heads es) as [|h hs] eqn:E.
  - destruct es as [|e es]; [congruence|]. unfold heads in E. discriminate.
  - cbn [flat_map]. intros Happ. apply app_eq_nil in Happ. destruct Happ as [Hm _].
    apply map_eq_nil in Hm. revert Hm. apply IH; [now apply sub_length|].
    apply sub_nonempty_of_heads; [assumption|]. rewrite E. now left.
Qed.

Lemma Repr_lengths (k : nat) (n : node) (es : list (list string)) :
  Repr k n es -> Forall (fun e => List.length e = S k) es.
Proof. destruct k; intros [H _]; exact H. Qed.

Lemma Repr_own_lines (k : nat) :
  forall n es, Repr k n es -> es <> [] -> Repr k n (spec_lines k es).
Proof.
  induction k as [|k IH]; intros n es [Hlen Hr] Hne.
  - destruct Hr as (es0 & v & -> & ->). cbn [spec_lines]. rewrite last_last.
    split; [repeat constructor|]. now exists [], v.
  - destruct Hr as (items & -> & Hl).
    assert (Hnn : Forall (fun e => e <> []) es) by now apply (Forall_length_nonempty (S k)).
    assert (Hchild : forall h, In h (heads es) ->
              exists c, dict_get h items = Some c /\ Repr k c (spec_lines k (sub h es))).
    { intros h Hh. destruct (level_ok_child _ _ _ h Hl Hh) as (c & Hc & Hrc).
      exists c. split; [assumption|]. apply IH; [assumption|].
      now apply sub_nonempty_of_heads. }
    split.
    + cbn [spec_lines]. apply Forall_forall. intros l Hin.
      apply in_flat_map in Hin. destruct Hin as (h & Hh & Hin).
      apply in_map_iff in Hin. destruct Hin as (l' & <- & Hl').
      destruct (Hchild h Hh) as (c & _ & Hrc). apply Repr_lengths in Hrc.
      rename Hrc into Hlenc. rewrite Forall_forall in Hlenc. simpl. now rewrite (Hlenc l' Hl').
    + exists items. split; [reflexivity|]. cbn [spec_lines].
      apply (level_ok_own_lines (fun _ => Repr k) (fun _ => spec_lines k)); [assumption| |].
      * intros h Hh. apply spec_lines_nonempty; [now apply sub_length|].
        now apply sub_nonempty_of_heads.
      * intros h c Hh Hrc. apply IH; [assumption|]. now apply sub_nonempty_of_heads.
Qed.

Lemma items_unique (a : list (string * node)) :
  forall b, map fst a = map fst b -> NoDup (map fst a) ->
            (forall h x y, dict_get h a = Some x -> dict_get h b = Some y -> x = y) ->
            a = b.
Proof.
  induction a as [|[k v] a IH]; intros [|[k' v'] b] Hk Hnd Hv; try discriminate; [reflexivity|].
  simpl in Hk. inversion Hk as [[E Hk']]. subst k'.
  inversion Hnd as [|? ? Hni Hnd']; subst.
  assert (Ev : v = v').
  { apply (Hv k); simpl; now rewrite String.eqb_refl. }
  subst v'. f_equal. apply IH; [assumption | assumption|].
  intros h x y Hx Hy.
  assert (Hne : String.eqb k h = false).
  { apply String.eqb_neq. intros ->. apply Hni. apply dict_get_In in Hx.
    change h with (fst (h, x)). now apply in_map. }
  apply (Hv h); simpl; now rewrite Hne.
Qed.

Lemma level_ok_unique (P : string -> node -> list (list string) -> Prop)
  (items items' : list (string * node)) (es : list (list string)) :
  level_ok P items es -> level_ok P items' es ->
  (forall h x y, P h x (sub h es) -> P h y (sub h es) -> x = y) ->
  items = items'.
Proof.
  intros [Hk Hc] [Hk' Hc'] HP. apply items_unique.
  - congruence.
  - rewrite Hk. apply heads_NoDup.
  - intros h x y Hx Hy. apply (HP h); auto.
Qed.

Lemma Repr_unique (k : nat) :
  forall n n' es, Repr k n es -> Repr k n' es -> n = n'.
Proof.
  induction k as [|k IH]; intros n n' es [_ Hr] [_ Hr'].
  - destruct Hr as (es0 & v & -> & E), Hr' as (es0' & v' & -> & E').
    rewrite E in E'. apply app_inj_tail in E'. destruct E' as [_ E']. congruence.
  - destruct Hr as (items & -> & Hl), Hr' as (items' & -> & Hl'). f_equal.
    apply (level_ok_unique _ _ _ _ Hl Hl'). intros h x y. apply IH.
Qed.

Lemma ReprRoot_unique (t t' : changes_dict) (es : list (list string)) :
  ReprRoot t es -> ReprRoot t' es -> t = t'.
Proof.
  intros [_ Hl] [_ Hl']. apply (level_ok_unique _ _ _ _ Hl Hl').
  intros h x y (k & Hk & Hr) (k' & Hk' & Hr'). rewrite Hk in Hk'. inversion Hk'; subst k'.
  eapply Repr_unique; eauto.
Qed.

Lemma spec_flatten_entry_wf (cmds : list (list string)) :
  Forall entry_wf (map entry_of cmds) -> Forall entry_wf (spec_flatten cmds).
Proof.
  intros Hwf. pose proof (spec_flatten_ok cmds Hwf) as [_ Hm].
  apply Forall_forall. intros l Hl. apply Hm in Hl. destruct Hl as (key & v & -> & Hv).
  apply last_value_In in Hv; [|now apply entry_wf_nonempty].
  rewrite Forall_forall in Hwf. auto.
Qed.

Lemma ReprRoot_own_lines (t : changes_dict) (cmds : list (list string)) :
  ReprRoot t (map entry_of cmds) -> ReprRoot t (spec_flatten cmds).
Proof.
  intros [Hwf Hl]. split; [now apply spec_flatten_entry_wf|].
  rewrite spec_flatten_root_lines.
  assert (Hnn : Forall (fun e => e <> []) (map entry_of cmds)) by now apply entry_wf_nonempty.
  apply (level_ok_own_lines _ root_lines); [assumption| |].
  - intros f Hf. destruct (heads_entry_wf f _ Hwf Hf) as [k Hk].
    unfold root_lines. rewrite Hk. apply spec_lines_nonempty; [now apply sub_entry_wf|].
    now apply sub_nonempty_of_heads.
  - intros f n Hf (k & Hk & Hr). exists k. split; [assumption|].
    unfold root_lines. rewrite Hk. apply Repr_own_lines; [assumption|].
    now apply sub_nonempty_of_heads.
Qed.

Lemma entry_of_entry_wf (e : list string) : entry_wf e -> entry_of e = e.
Proof.
  intros (f & rest & k & -> & Hk & Hlen). unfold entry_of. rewrite Hk.
  rewrite <- Hlen. apply firstn_all.
Qed.

Lemma map_entry_of_entry_wf (es : list (list string)) :
  Forall entry_wf es -> map entry_of es = es.
Proof.
  induction 1 as [|e es He Hes IH]; simpl; [reflexivity|].
  now rewrite entry_of_entry_wf, IH.
Qed.

Lemma fold_changes_total (lines : list (list string)) :
  Forall entry_wf lines ->
  forall cmds t, fold_changes cmds [] = Ok t ->
                 exists t', fold_changes lines t = Ok t'.
Proof.
  induction 1 as [|l lines Hl Hls IH]; intros cmds t Hf; simpl; [eauto|].
  destruct Hl as (f & rest & k & -> & Hk & Hlen).
  destruct (AddFunctionToChangesDict_total cmds t f rest k Hf Hk) as [t1 Ha]; [lia|].
  rewrite Ha. simpl. apply (IH (cmds ++ [f :: rest])).
  eapply fold_changes_snoc; eauto.
Qed.

Lemma rebuild_flattened (cmds : list (list string)) (t : changes_dict) :
  fold_changes cmds [] = Ok t -> fold_changes (flatten t) [] = Ok t.
Proof.
  intros Hf. pose proof (reachable_ReprRoot cmds t Hf) as Hr.
  rewrite (flatten_ReprRoot t cmds Hr).
  pose proof (spec_flatten_entry_wf cmds (proj1 Hr)) as Hwf.
  destruct (fold_changes_total _ Hwf [] [] eq_refl) as [t2 H2].
  rewrite H2. f_equal.
  pose proof (reachable_ReprRoot _ _ H2) as Hr2.
  rewrite map_entry_of_entry_wf in Hr2 by assumption.
  apply (ReprRoot_unique _ _ _ Hr2). now apply ReprRoot_own_lines.
Qed.

(** ** The changes file is read back as it was written *)

Lemma last_char_append (a b : string) : b <> "" -> last_char (a +++ b) = last_char b.
Proof.
  intros Hb. induction a as [|c a IH]; [reflexivity|].
  simpl. rewrite IH. destruct (a +++ b) eqn:E; [|reflexivity].
  destruct a; simpl in E; [congruence | discriminate].
Qed.


Lemma line_char_not (c0 : ascii) :
  line_char c0 = false ->
  forall c, line_char c = true -> negb (Ascii.eqb c c0) = true.
Proof.
  intros H0 c Hc. destruct (Ascii.eqb c c0) eqn:E; [|reflexivity].
  apply Ascii.eqb_eq in E. subst. congruence.
Qed.

Lemma file_safe_no (c0 : ascii) (s : string) :
  line_char c0 = false -> file_safe s = true -> contains c0 s = false.
Proof.
  intros H0 Hs. apply contains_false_all. unfold file_safe in Hs.
  apply andb_true_iff in Hs. destruct Hs as [_ Hs].
  revert Hs. apply all_chars_impl. now apply line_char_not.
Qed.

Lemma file_safe_token_safe (s : string) : file_safe s = true -> token_safe s = true.
Proof.
  intros Hs. unfold token_safe.
  rewrite (file_safe_no double_quote), (file_safe_no backslash), (file_safe_no tab),
    (file_safe_no carriage_return), (file_safe_no line_feed) by (assumption || reflexivity).
  unfold file_safe in Hs. apply andb_true_iff in Hs. destruct Hs as [-> _].
  simpl. apply orb_true_r.
Qed.

Lemma all_chars_last (P : ascii -> bool) (s : string) (c : ascii) :
  all_chars P s = true -> last_char s = Ok c -> P c = true.
Proof.
  induction s as [|x s IH]; [discriminate|]. simpl.
  intros H Hl. apply andb_true_iff in H. destruct H as [Hx Hs].
  destruct s as [|y s]; [now inversion Hl; subst | auto].
Qed.

Lemma py_rstrip_id (s : string) (c : ascii) :
  last_char s = Ok c -> is_py_space c = false -> py_rstrip s = s.
Proof.
  induction s as [|x s IH]; [discriminate|]. intros Hl Hc.
  cbn [py_rstrip]. destruct s as [|y s].
  - inversion Hl; subst. simpl. now rewrite Hc.
  - rewrite IH by assumption. reflexivity.
Qed.

Lemma py_strip_id (s rest : string) (c0 c1 : ascii) :
  s = String c0 rest -> is_py_space c0 = false ->
  last_char s = Ok c1 -> is_py_space c1 = false ->
  py_strip s = s.
Proof.
  intros -> H0 Hl H1. unfold py_strip. cbn [py_lstrip]. rewrite H0.
  now apply (py_rstrip_id _ c1).
Qed.

Lemma unquoted_no_space (s : string) :
  file_safe s = true -> needs_quote s = false ->
  all_chars (fun c => negb (is_py_space c)) s = true.
Proof.
  unfold file_safe, needs_quote. intros Hs Hq.
  apply andb_true_iff in Hs. destruct Hs as [_ Hs].
  apply orb_false_iff in Hq. destruct Hq as [Hq _]. apply contains_false_all in Hq.
  pose proof (all_chars_and _ _ _ Hs Hq) as H. revert H. apply all_chars_impl.
  intros c Hc. unfold line_char in Hc.
  rewrite !andb_true_iff, orb_true_iff in Hc. destruct Hc as [[_ [H|H]] Hn]; [assumption|].
  rewrite H in Hn. discriminate.
Qed.

(** A written parameter starts and ends with a character that strip()
    leaves alone. *)
Lemma quoted_edges (s : string) :
  file_safe s = true ->
  exists c0 rest c1,
    QuoteStringIfRequired s = String c0 rest /\ is_py_space c0 = false /\
    last_char (QuoteStringIfRequired s) = Ok c1 /\ is_py_space c1 = false.
Proof.
  intros Hs. unfold QuoteStringIfRequired. fold (needs_quote s).
  destruct (needs_quote s) eqn:Hq.
  - exists double_quote, (s +++ String double_quote ""), double_quote.
    repeat split. change (String double_quote (s +++ String double_quote ""))
      with (String double_quote s +++ String double_quote "").
    now rewrite last_char_append by discriminate.
  - pose proof (unquoted_no_space s Hs Hq) as Hall.
    unfold file_safe in Hs. apply andb_true_iff in Hs. destruct Hs as [Hn _].
    destruct s as [|c0 rest]; [discriminate|].
    destruct (last_char_nonempty (String c0 rest)) as [c1 Hl]; [discriminate|].
    exists c0, rest, c1. repeat split; [|assumption|].
    + simpl in Hall. apply andb_true_iff in Hall. now apply negb_true_iff, Hall.
    + apply negb_true_iff. exact (all_chars_last _ _ _ Hall Hl).
Qed.

Lemma JoinParams_cons (x : string) (xs : list string) :
  JoinParams (x :: xs) =
  QuoteStringIfRequired x +++ match xs with [] => "" | _ :: _ => " " +++ JoinParams xs end.
Proof.
  unfold JoinParams. destruct xs as [|y xs]; cbn [map String.concat];
    [now rewrite append_nil_r | reflexivity].
Qed.

Lemma JoinParams_edges (l : list string) :
  l <> [] -> Forall (fun s => file_safe s = true) l ->
  exists c0 rest c1,
    JoinParams l = String c0 rest /\ is_py_space c0 = false /\
    last_char (JoinParams l) = Ok c1 /\ is_py_space c1 = false.
Proof.
  intros Hne H. induction H as [|x xs Hx Hxs IH]; [congruence|].
  destruct (quoted_edges x Hx) as (c0 & rest & c1 & E & H0 & Hl & H1).
  rewrite JoinParams_cons. destruct xs as [|y xs].
  - rewrite append_nil_r. eauto 8.
  - destruct IH as (d0 & drest & d1 & E' & _ & Hl' & H1'); [discriminate|].
    rewrite E. exists c0, (rest +++ " " +++ JoinParams (y :: xs)), d1.
    split; [reflexivity|]. split; [assumption|]. split; [|assumption].
    rewrite last_char_append by (apply append_nonempty_l; discriminate).
    rewrite last_char_append; [assumption|]. rewrite E'. discriminate.
Qed.

Lemma read_written_line (l : list string) :
  l <> [] -> Forall (fun s => file_safe s = true) l ->
  shlex_split (py_strip (JoinParams l)) = Ok l.
Proof.
  intros Hne H.
  destruct (JoinParams_edges l Hne H) as (c0 & rest & c1 & E & H0 & Hl & H1).
  rewrite (py_strip_id _ rest c0 c1) by assumption.
  apply shlex_split_JoinParams. revert H. apply Forall_impl.
  intros s. apply file_safe_token_safe.
Qed.

Lemma parse_written_lines (lines : list (list string)) :
  Forall (fun l => l <> [] /\ Forall (fun s => file_safe s = true) l) lines ->
  forall t0,
    for_each (map JoinParams lines)
      (fun parsed_changes_dict line =>
         let* tokens_list := shlex_split (py_strip line) in
         AddFunctionToChangesDict tokens_list parsed_changes_dict)
      t0
    = fold_changes lines t0.
Proof.
  induction 1 as [|l lines [Hne Hl] Hls IH]; intros t0; [reflexivity|].
  cbn [map for_each fold_changes]. rewrite read_written_line by assumption.
  cbn [rbind]. destruct (AddFunctionToChangesDict l t0); [apply IH | reflexivity].
Qed.

Lemma flatten_lines_written (cmds : list (list string)) (t : changes_dict) :
  fold_changes cmds [] = Ok t ->
  Forall (Forall (fun s => file_safe s = true)) cmds ->
  Forall (fun l => l <> [] /\ Forall (fun s => file_safe s = true) l) (flatten t).
Proof.
  intros Hf Hsafe. pose proof (reachable_ReprRoot cmds t Hf) as Hr.
  pose proof (spec_flatten_entry_wf cmds (proj1 Hr)) as Hwf.
  rewrite <- (flatten_ReprRoot t cmds Hr) in Hwf.
  pose proof (flatten_lines_from_history _ cmds t Hf Hsafe) as Htok.
  apply Forall_forall. intros l Hl. rewrite Forall_forall in Hwf, Htok.
  split; [|auto]. destruct (Hwf l Hl) as (f & rest & k & -> & _). discriminate.
Qed.

Lemma parse_written_trie (cmds : list (list string)) (t : changes_dict) :
  fold_changes cmds [] = Ok t ->
  Forall (Forall (fun s => file_safe s = true)) cmds ->
  parse_changes (ConvertChangesDictToFunctionList t) = Ok t.
Proof.
  intros Hf Hsafe. unfold parse_changes, ConvertChangesDictToFunctionList.
  fold (flatten t). rewrite parse_written_lines by (eapply flatten_lines_written; eauto).
  eapply rebuild_flattened; eauto.
Qed.

(** X1 -- Round trip of the changes file.  A trie built by
    AddFunctionToChangesDict from the empty OrderedDict is rebuilt, key
    order included, by adding its flattened lines to an empty
    OrderedDict; and when every recorded token is a non-empty string
    without double quote, backslash and white space other than the space,
    the lines that ConvertChangesDictToFunctionList writes are parsed by
    the loop of UpdateProfileChangesFile (strip, shlex.split,
    AddFunctionToChangesDict) into the same trie. *)
Theorem changes_file_roundtrip (cmds : list (list string)) (t : changes_dict) :
  fold_changes cmds [] = Ok t ->
  fold_changes (flatten t) [] = Ok t /\
  (Forall (Forall (fun s => file_safe s = true)) cmds ->
   parse_changes (ConvertChangesDictToFunctionList t) = Ok t).
Proof.
  intros Hf. split; [eapply rebuild_flattened; eauto|].
  intros Hsafe. eapply parse_written_trie; eauto.
Qed.

Lemma changes_file_roundtrip_witness :
  parse_changes
    (ConvertChangesDictToFunctionList
       [("set_currency_to_tier", Dict [("Chaos Orb", Leaf "5"); ("Exalted Orb", Leaf "1")]);
        ("set_hide_maps_below_tier", Leaf "10")])
  = Ok [("set_currency_to_tier", Dict [("Chaos Orb", Leaf "5"); ("Exalted Orb", Leaf "1")]);
        ("set_hide_maps_below_tier", Leaf "10")].
Proof.
  apply (proj2 (changes_file_roundtrip
                  [["set_currency_to_tier"; "Chaos Orb"; "3"];
                   ["set_hide_maps_below_tier"; "10"];
                   ["set_currency_to_tier"; "Exalted Orb"; "1"];
                   ["set_currency_to_tier"; "Chaos Orb"; "5"]]
                  _ eq_refl)).
  repeat constructor.
Defined.

(** ** Recording a history, one run at a time *)

Lemma match_existing_walk_ok (k : nat) :
  forall params n es,
    Repr k n es -> k <= List.length params -> match_existing_walk k params n = Ok tt.
Proof.
  induction k as [|k IH]; intros params n es Hr Hlen; [reflexivity|].
  destruct params as [|p rest]; [simpl in Hlen; lia|].
  destruct Hr as [_ (items & -> & [_ Hc])]. cbn [match_existing_walk].
  destruct (dict_get p items) as [next|] eqn:E; [|reflexivity].
  apply (IH rest next (sub p es)); [now apply Hc | simpl in Hlen; lia].
Qed.

Lemma match_existing_ok (t : changes_dict) (es : list (list string))
  (name : string) (params : list string) (k : nat) :
  ReprRoot t es -> num_params_for_match name = Ok k -> k <= List.length params ->
  match_existing name params t = Ok tt.
Proof.
  intros [_ [_ Hc]] Hk Hlen. unfold match_existing. rewrite Hk. cbn [rbind].
  destruct (dict_get name t) as [cur|] eqn:E; [|reflexivity].
  destruct (Hc name cur E) as (k' & Hk' & Hr). rewrite Hk in Hk'. inversion Hk'; subst k'.
  eapply match_existing_walk_ok; eauto.
Qed.

Lemma updated_changes_written (cmds : list (list string)) (t t' : changes_dict)
  (name : string) (params : list string) :
  fold_changes cmds [] = Ok t ->
  Forall (Forall (fun s => file_safe s = true)) cmds ->
  AddFunctionToChangesDict (name :: params) t = Ok t' ->
  updated_changes (ConvertChangesDictToFunctionList t) name params
  = Ok (ConvertChangesDictToFunctionList t').
Proof.
  intros Hf Hsafe Ha. unfold updated_changes.
  rewrite (parse_written_trie cmds t Hf Hsafe). cbn [rbind].
  destruct (AddFunctionToChangesDict_ok _ _ _ Ha) as (f & rest & k & E & Hk & Hlen & _).
  inversion E; subst f rest.
  rewrite (match_existing_ok t _ name params k (reachable_ReprRoot cmds t Hf) Hk)
    by (simpl in Hlen; lia).
  cbn [rbind]. now rewrite Ha.
Qed.

Lemma record_all_compacts (B : Backend) (calls : list (string * list string)) :
  forall (w : World B) (cmds0 : list (list string)) (t0 t : changes_dict),
    fold_changes cmds0 [] = Ok t0 ->
    changes_file w = ConvertChangesDictToFunctionList t0 ->
    fold_changes (map call_tokens calls) t0 = Ok t ->
    Forall (Forall (fun s => file_safe s = true)) (cmds0 ++ map call_tokens calls) ->
    snd (record_all B calls w) = Ok tt /\
    changes_file (fst (record_all B calls w)) = ConvertChangesDictToFunctionList t.
Proof.
  induction calls as [|[name params] calls IH]; intros w cmds0 t0 t Hf0 Hfile Hf Hsafe.
  - simpl in *. inversion Hf; subst. auto.
  - cbn [map fold_changes] in Hf.
    change (call_tokens (name, params)) with (name :: params) in Hf.
    destruct (AddFunctionToChangesDict (name :: params) t0) as [t1|] eqn:Ha;
      cbn [rbind] in Hf; [|discriminate Hf].
    apply Forall_app in Hsafe. destruct Hsafe as [Hs0 Hs1].
    inversion Hs1 as [|? ? Hc Hrest]; subst.
    cbn [record_all]. unfold UpdateProfileChangesFile. rewrite Hfile.
    rewrite (updated_changes_written cmds0 t0 t1 name params Hf0 Hs0 Ha).
    apply (IH _ (cmds0 ++ [name :: params]) t1 t).
    + eapply fold_changes_snoc; eauto.
    + reflexivity.
    + exact Hf.
    + rewrite <- app_assoc. apply Forall_app. split; [assumption|].
      constructor; assumption.
Qed.

Lemma fold_changes_app (cmds1 cmds2 : list (list string)) :
  forall t0 t1 t,
    fold_changes cmds1 t0 = Ok t1 -> fold_changes cmds2 t1 = Ok t ->
    fold_changes (cmds1 ++ cmds2) t0 = Ok t.
Proof.
  induction cmds1 as [|c cmds1 IH]; intros t0 t1 t H1 H2; simpl in *.
  - inversion H1; subst. exact H2.
  - destruct (AddFunctionToChangesDict c t0) as [t'|]; [|discriminate].
    simpl in *. eapply IH; eauto.
Qed.

(** X2 -- A history recorded run by run.  When the mutator calls of a
    history are recorded one by one, each by its own call of
    UpdateProfileChangesFile on the file the previous one left, every
    call succeeds and the final changes file is the serialisation of the
    trie of the whole history: the lines of [spec_flatten], one per key
    with the last value, written by JoinParams. *)
Theorem history_is_compacted (B : Backend) (w : World B)
  (cmds0 : list (list string)) (calls : list (string * list string))
  (t0 t : changes_dict) :
  fold_changes cmds0 [] = Ok t0 ->
  changes_file w = ConvertChangesDictToFunctionList t0 ->
  fold_changes (map call_tokens calls) t0 = Ok t ->
  Forall (Forall (fun s => file_safe s = true)) (cmds0 ++ map call_tokens calls) ->
  snd (record_all B calls w) = Ok tt /\
  changes_file (fst (record_all B calls w)) = ConvertChangesDictToFunctionList t /\
  changes_file (fst (record_all B calls w))
  = map JoinParams (spec_flatten (cmds0 ++ map call_tokens calls)).
Proof.
  intros Hf0 Hfile Hf Hsafe.
  destruct (record_all_compacts B calls w cmds0 t0 t Hf0 Hfile Hf Hsafe) as [H1 H2].
  split; [exact H1|]. split; [exact H2|]. rewrite H2.
  unfold ConvertChangesDictToFunctionList. fold (flatten t). f_equal.
  apply flatten_ReprRoot, reachable_ReprRoot. eapply fold_changes_app; eauto.
Qed.

Lemma history_is_compacted_witness :
  changes_file
    (fst (record_all (toy_backend no_currency)
            [("set_currency_to_tier", ["Chaos Orb"; "3"]);
             ("set_hide_maps_below_tier", ["10"]);
             ("set_currency_to_tier", ["Exalted Orb"; "1"]);
             ("set_currency_to_tier", ["Chaos Orb"; "5"])]
            (toy_world (toy_backend no_currency) tt [] [])))
  = map JoinParams
      (spec_flatten
         ([] ++ map call_tokens
                  [("set_currency_to_tier", ["Chaos Orb"; "3"]);
                   ("set_hide_maps_below_tier", ["10"]);
                   ("set_currency_to_tier", ["Exalted Orb"; "1"]);
                   ("set_currency_to_tier", ["Chaos Orb"; "5"])])).
Proof.
  refine (proj2 (proj2 (history_is_compacted (toy_backend no_currency)
                          (toy_world (toy_backend no_currency) tt [] []) []
                          [("set_currency_to_tier", ["Chaos Orb"; "3"]);
                           ("set_hide_maps_below_tier", ["10"]);
                           ("set_currency_to_tier", ["Exalted Orb"; "1"]);
                           ("set_currency_to_tier", ["Chaos Orb"; "5"])]
                          [] _ eq_refl eq_refl eq_refl _))).
  repeat constructor.
Defined.

(** ** The value recorded last leaves no trace of the earlier one *)

Lemma add_tokens_absorb (k : nat) :
  forall tokens1 tokens2 n n1 n2,
    firstn (S k) tokens1 = firstn (S k) tokens2 ->
    add_tokens k tokens1 n = Ok n1 ->
    add_tokens k tokens2 n1 = Ok n2 ->
    add_tokens k tokens2 n = Ok n2.
Proof.
  induction k as [|k IH]; intros [|tok1 rest1] [|tok2 rest2] n n1 n2 Hkey H1 H2;
    try discriminate.
  - inversion Hkey; subst tok2.
    destruct rest1 as [|v1 rest1]; [discriminate|].
    destruct rest2 as [|v2 rest2]; [discriminate|].
    destruct n as [|items]; [discriminate|]. cbn [add_tokens] in *.
    inversion H1; subst n1. inversion H2; subst n2. now rewrite od_set_od_set.
  - inversion Hkey as [[E Hkey']]. subst tok2.
    destruct n as [|items]; [discriminate|]. cbn [add_tokens] in *.
    set (items1 := if od_mem tok1 items then items else od_set tok1 (Dict []) items) in *.
    destruct (dict_item tok1 items1) as [sub0|] eqn:Hsub; [|discriminate].
    cbn [rbind] in *.
    destruct (add_tokens k rest1 sub0) as [sub1|] eqn:Ha1; [|discriminate].
    cbn [rbind] in H1. inversion H1; subst n1. cbn [add_tokens] in H2.
    assert (Hm : od_mem tok1 (od_set tok1 sub1 items1) = true).
    { unfold od_mem. now rewrite dict_get_od_set, String.eqb_refl. }
    rewrite Hm in H2. unfold dict_item in H2 at 1.
    rewrite dict_get_od_set, String.eqb_refl in H2. cbn [rbind] in H2.
    destruct (add_tokens k rest2 sub1) as [sub2|] eqn:Ha2; [|discriminate].
    cbn [rbind] in H2. inversion H2; subst n2.
    rewrite (IH rest1 rest2 sub0 sub1 sub2 Hkey' Ha1 Ha2). cbn [rbind].
    now rewrite od_set_od_set.
Qed.

Lemma add_tokens_idem (k : nat) :
  forall tokens n n', add_tokens k tokens n = Ok n' -> add_tokens k tokens n' = Ok n'.
Proof.
  induction k as [|k IH]; intros [|tok rest] n n' H; try discriminate.
  - destruct rest as [|v rest]; [discriminate|].
    destruct n as [|items]; [discriminate|]. cbn [add_tokens] in *.
    inversion H; subst n'. now rewrite od_set_od_set.
  - destruct n as [|items]; [discriminate|]. cbn [add_tokens] in *.
    set (items1 := if od_mem tok items then items else od_set tok (Dict []) items) in *.
    destruct (dict_item tok items1) as [sub0|] eqn:Hsub; [|discriminate].
    cbn [rbind] in *.
    destruct (add_tokens k rest sub0) as [sub1|] eqn:Ha1; [|discriminate].
    cbn [rbind] in H. inversion H; subst n'. cbn [add_tokens].
    assert (Hm : od_mem tok (od_set tok sub1 items1) = true).
    { unfold od_mem. now rewrite dict_get_od_set, String.eqb_refl. }
    rewrite Hm. unfold dict_item at 1.
    rewrite dict_get_od_set, String.eqb_refl. cbn [rbind].
    rewrite (IH rest sub0 sub1 Ha1). cbn [rbind]. now rewrite od_set_od_set.
Qed.

Lemma cmd_key_ok (c : list string) (t t' : changes_dict) :
  AddFunctionToChangesDict c t = Ok t' ->
  exists f rest k,
    c = f :: rest /\ num_params_for_match f = Ok k /\
    cmd_key c = firstn (S k) c /\ add_tokens k c (Dict t) = Ok (Dict t').
Proof.
  intros Ha. destruct (AddFunctionToChangesDict_ok _ _ _ Ha) as (f & rest & k & -> & Hk & Hlen & H).
  exists f, rest, k. repeat split; auto.
  unfold cmd_key, entry_of. rewrite Hk. replace (k + 2) with (S (S k)) by lia.
  apply removelast_firstn. lia.
Qed.

Lemma AddFunctionToChangesDict_absorb (c1 c2 : list string) (t t1 t2 : changes_dict) :
  cmd_key c1 = cmd_key c2 ->
  AddFunctionToChangesDict c1 t = Ok t1 ->
  AddFunctionToChangesDict c2 t1 = Ok t2 ->
  AddFunctionToChangesDict c2 t = Ok t2.
Proof.
  intros Hkey H1 H2.
  destruct (cmd_key_ok _ _ _ H1) as (f1 & rest1 & k1 & -> & Hk1 & E1 & Ha1).
  destruct (cmd_key_ok _ _ _ H2) as (f2 & rest2 & k2 & -> & Hk2 & E2 & Ha2).
  rewrite E1, E2 in Hkey. cbn [firstn] in Hkey. inversion Hkey as [[Ef Hrest]]. subst f2.
  rewrite Hk1 in Hk2. inversion Hk2; subst k2.
  unfold AddFunctionToChangesDict. rewrite Hk1. cbn [rbind].
  rewrite (add_tokens_absorb k1 (f1 :: rest1) (f1 :: rest2) (Dict t) (Dict t1) (Dict t2));
    auto.
Qed.

(** X3 -- The last write wins.  Adding two commands with the same key
    one after the other gives the same trie as adding the second alone;
    adding a command twice gives the same trie as adding it once; and
    recording the same call again leaves the changes file as the first
    recording left it. *)
Theorem last_write_wins :
  (forall c1 c2 t t1 t2,
      cmd_key c1 = cmd_key c2 ->
      AddFunctionToChangesDict c1 t = Ok t1 ->
      AddFunctionToChangesDict c2 t1 = Ok t2 ->
      AddFunctionToChangesDict c2 t = Ok t2) /\
  (forall c t t', AddFunctionToChangesDict c t = Ok t' ->
                  AddFunctionToChangesDict c t' = Ok t') /\
  (forall cmds t name params lines,
      fold_changes cmds [] = Ok t ->
      Forall (Forall (fun s => file_safe s = true)) (cmds ++ [name :: params]) ->
      updated_changes (ConvertChangesDictToFunctionList t) name params = Ok lines ->
      updated_changes lines name params = Ok lines).
Proof.
  split; [exact AddFunctionToChangesDict_absorb|].
  assert (Hidem : forall c t t', AddFunctionToChangesDict c t = Ok t' ->
                                 AddFunctionToChangesDict c t' = Ok t').
  { intros c t t' Ha.
    destruct (cmd_key_ok _ _ _ Ha) as (f & rest & k & -> & Hk & _ & Hadd).
    unfold AddFunctionToChangesDict. rewrite Hk. cbn [rbind].
    now rewrite (add_tokens_idem k _ _ _ Hadd). }
  split; [exact Hidem|].
  intros cmds t name params lines Hf Hsafe Hu.
  apply Forall_app in Hsafe. destruct Hsafe as [Hs Hc].
  destruct (AddFunctionToChangesDict (name :: params) t) as [t'|e] eqn:Ha.
  - rewrite (updated_changes_written cmds t t' name params Hf Hs Ha) in Hu.
    inversion Hu; subst lines.
    apply (updated_changes_written (cmds ++ [name :: params]) t' t').
    + eapply fold_changes_snoc; eauto.
    + apply Forall_app. split; assumption.
    + now apply (Hidem _ t).
  - unfold updated_changes in Hu. rewrite (parse_written_trie cmds t Hf Hs) in Hu.
    cbn [rbind] in Hu. destruct (match_existing name params t); [|discriminate].
    cbn [rbind] in Hu. rewrite Ha in Hu. discriminate.
Qed.

Lemma last_write_wins_witness :
  AddFunctionToChangesDict ["set_currency_to_tier"; "Chaos Orb"; "5"]
    [("set_hide_maps_below_tier", Leaf "10")]
  = Ok [("set_hide_maps_below_tier", Leaf "10");
        ("set_currency_to_tier", Dict [("Chaos Orb", Leaf "5")])].
Proof.
  exact (proj1 last_write_wins
           ["set_currency_to_tier"; "Chaos Orb"; "3"]
           ["set_currency_to_tier"; "Chaos Orb"; "5"]
           [("set_hide_maps_below_tier", Leaf "10")] _ _ eq_refl eq_refl eq_refl).
Defined.

(** ** The size of the changes file *)

Lemma existsb_list_eqb_In (key : list string) (l : list (list string)) :
  existsb (list_eqb key) l = true <-> In key l.
Proof.
  rewrite existsb_exists. split.
  - intros (x & Hx & E). apply list_eqb_true in E. now subst.
  - intros H. exists key. split; [assumption | apply list_eqb_refl].
Qed.

(** X4 -- Size of the changes file.  The changes file never holds more
    lines than commands were recorded, and recording one more command
    adds exactly one line when its key is new and none when the key is
    already present. *)
Theorem changes_file_growth (cmds : list (list string)) (t t' : changes_dict)
  (c : list string) :
  fold_changes cmds [] = Ok t ->
  AddFunctionToChangesDict c t = Ok t' ->
  List.length (ConvertChangesDictToFunctionList t) <= List.length cmds /\
  List.length (ConvertChangesDictToFunctionList t')
  = List.length (ConvertChangesDictToFunctionList t)
    + (if existsb (list_eqb (cmd_key c)) (map cmd_key cmds) then 0 else 1).
Proof.
  intros Hf Ha.
  pose proof (fold_changes_snoc cmds c [] t t' Hf Ha) as Hf'.
  destruct (compaction_flatten_facts cmds t Hf) as [Hnd Hkeys].
  destruct (compaction_flatten_facts (cmds ++ [c]) t' Hf') as [Hnd' Hkeys'].
  unfold ConvertChangesDictToFunctionList. fold (flatten t) (flatten t').
  rewrite !length_map.
  rewrite <- (length_map (@removelast string) (flatten t)).
  rewrite <- (length_map (@removelast string) (flatten t')).
  set (K := map (@removelast string) (flatten t)) in *.
  set (K' := map (@removelast string) (flatten t')) in *.
  split.
  - rewrite <- (length_map cmd_key cmds). apply NoDup_incl_length; [assumption|].
    intros key Hk. now apply Hkeys.
  - assert (Hk' : forall key, In key K' <-> In key K \/ key = cmd_key c).
    { intros key. rewrite Hkeys', Hkeys, map_app, in_app_iff. simpl. intuition. }
    destruct (existsb (list_eqb (cmd_key c)) (map cmd_key cmds)) eqn:E.
    + apply existsb_list_eqb_In in E. apply Hkeys in E.
      rewrite Nat.add_0_r. apply Nat.le_antisymm; apply NoDup_incl_length; auto.
      * intros key Hk. apply Hk' in Hk. destruct Hk as [Hk| ->]; assumption.
      * intros key Hk. apply Hk'. now left.
    + assert (Hni : ~ In (cmd_key c) K).
      { intros Hin. apply Hkeys, existsb_list_eqb_In in Hin. congruence. }
      replace (List.length K + 1) with (List.length (cmd_key c :: K)) by (simpl; lia).
      apply Nat.le_antisymm; apply NoDup_incl_length; auto.
      * intros key Hk. apply Hk' in Hk. destruct Hk as [Hk| ->]; [now right | now left].
      * now constructor.
      * intros key [<-|Hk]; apply Hk'; auto.
Qed.

Lemma changes_file_growth_witness :
  List.length (ConvertChangesDictToFunctionList
                 [("set_currency_to_tier", Dict [("Chaos Orb", Leaf "5")])])
  = List.length (ConvertChangesDictToFunctionList
                   [("set_currency_to_tier", Dict [("Chaos Orb", Leaf "3")])])
    + 0.
Proof.
  exact (proj2 (changes_file_growth [["set_currency_to_tier"; "Chaos Orb"; "3"]]
                  _ _ ["set_currency_to_tier"; "Chaos Orb"; "5"] eq_refl eq_refl)).
Defined.

(** ** The exceptions of AddFunctionToChangesDict *)

Lemma descend_Repr (k : nat) (tok : string) (items : list (string * node))
  (es : list (list string)) :
  level_ok (fun _ => Repr (S k)) items es ->
  exists sub0 es0,
    dict_item tok (if od_mem tok items then items else od_set tok (Dict []) items) = Ok sub0 /\
    Repr (S k) sub0 es0.
Proof.
  intros [_ Hc]. unfold dict_item, od_mem.
  destruct (dict_get tok items) as [sub0|] eqn:E.
  - rewrite E. eauto.
  - rewrite dict_get_od_set, String.eqb_refl. exists (Dict []), []. split; [reflexivity|].
    apply Repr_empty_dict.
Qed.

Lemma add_tokens_short (k : nat) :
  forall tokens n es,
    Repr (S k) n es -> List.length tokens < k + 2 ->
    add_tokens k tokens n = Raise IndexError.
Proof.
  induction k as [|k IH]; intros tokens n es Hr Hlen.
  - destruct tokens as [|tok [|v rest]]; [reflexivity | reflexivity | simpl in Hlen; lia].
  - destruct tokens as [|tok rest]; [reflexivity|].
    destruct Hr as [_ (items & -> & Hl)]. cbn [add_tokens].
    destruct (descend_Repr k tok items es Hl) as (sub0 & es0 & -> & Hr0). cbn [rbind].
    rewrite (IH rest sub0 es0 Hr0) by (simpl in Hlen; lia). reflexivity.
Qed.

Lemma num_params_for_match_error (f : string) (e : exn) :
  num_params_for_match f = Raise e -> e = KeyError.
Proof.
  unfold num_params_for_match, dict_item.
  destruct (dict_get f kFunctionInfoMap) as [info|]; cbn [rbind].
  - destruct (NumParamsForMatch info); congruence.
  - congruence.
Qed.

Lemma AddFunctionToChangesDict_too_short (cmds : list (list string)) (t : changes_dict)
  (f : string) (rest : list string) (k : nat) :
  fold_changes cmds [] = Ok t ->
  num_params_for_match f = Ok k ->
  List.length (f :: rest) < k + 2 ->
  AddFunctionToChangesDict (f :: rest) t = Raise IndexError.
Proof.
  intros Hf Hk Hlen. unfold AddFunctionToChangesDict. rewrite Hk. cbn [rbind].
  destruct (reachable_ReprRoot cmds t Hf) as [_ Hl].
  destruct k as [|k].
  - destruct rest; [reflexivity | simpl in Hlen; lia].
  - cbn [add_tokens].
    assert (Hsub : exists sub0 es0,
               dict_item f (if od_mem f t then t else od_set f (Dict []) t) = Ok sub0 /\
               Repr (S k) sub0 es0).
    { destruct Hl as [_ Hc]. unfold dict_item, od_mem.
      destruct (dict_get f t) as [sub0|] eqn:E.
      - rewrite E. destruct (Hc f sub0 E) as (k' & Hk' & Hr).
        rewrite Hk in Hk'. inversion Hk'; subst k'. eauto.
      - rewrite dict_get_od_set, String.eqb_refl. exists (Dict []), [].
        split; [reflexivity | apply Repr_empty_dict]. }
    destruct Hsub as (sub0 & es0 & -> & Hr0). cbn [rbind].
    rewrite (add_tokens_short k rest sub0 es0 Hr0) by (simpl in Hlen; lia).
    reflexivity.
Qed.

(** X5 -- The outcome of AddFunctionToChangesDict.  On a trie that the
    program can build: an empty token list raises IndexError
    (function_tokens[0]); a first token that is not the name of a command
    with a NumParamsForMatch raises KeyError; otherwise the call returns
    when the list has at least NumParamsForMatch + 2 tokens and raises
    IndexError when it has fewer.  It never raises TypeError. *)
Theorem AddFunctionToChangesDict_outcome (cmds : list (list string)) (t : changes_dict)
  (tokens : list string) :
  fold_changes cmds [] = Ok t ->
  match tokens with
  | [] => AddFunctionToChangesDict tokens t = Raise IndexError
  | function_name :: _ =>
      match num_params_for_match function_name with
      | Raise _ => AddFunctionToChangesDict tokens t = Raise KeyError
      | Ok k =>
          if k + 2 <=? List.length tokens
          then exists t', AddFunctionToChangesDict tokens t = Ok t'
          else AddFunctionToChangesDict tokens t = Raise IndexError
      end
  end.
Proof.
  intros Hf. destruct tokens as [|f rest]; [reflexivity|].
  destruct (num_params_for_match f) as [k|e] eqn:Hk.
  - destruct (k + 2 <=? List.length (f :: rest)) eqn:Hlen.
    + apply Nat.leb_le in Hlen. eapply AddFunctionToChangesDict_total; eauto.
    + apply Nat.leb_gt in Hlen. eapply AddFunctionToChangesDict_too_short; eauto.
  - unfold AddFunctionToChangesDict. rewrite Hk. cbn [rbind].
    now rewrite (num_params_for_match_error f e Hk).
Qed.

Lemma AddFunctionToChangesDict_outcome_witness :
  AddFunctionToChangesDict ["get_gem_min_quality"; "1"; "2"]
    [("set_hide_maps_below_tier", Leaf "10")]
  = Raise KeyError.
Proof.
  exact (AddFunctionToChangesDict_outcome [["set_hide_maps_below_tier"; "10"]]
           _ ["get_gem_min_quality"; "1"; "2"] eq_refl).
Defined.

(** ** The search for a matching line does not change the outcome *)

Lemma parse_changes_reachable (lines : list string) :
  forall cmds0 t0 t,
    fold_changes cmds0 [] = Ok t0 ->
    for_each lines
      (fun parsed_changes_dict line =>
         let* tokens_list := shlex_split (py_strip line) in
         AddFunctionToChangesDict tokens_list parsed_changes_dict)
      t0 = Ok t ->
    exists cmds, fold_changes cmds [] = Ok t.
Proof.
  induction lines as [|line lines IH]; intros cmds0 t0 t Hf0 H.
  - inversion H; subst. eauto.
  - cbn [for_each] in H. destruct (shlex_split (py_strip line)) as [tokens|];
      cbn [rbind] in H; [|discriminate H].
    destruct (AddFunctionToChangesDict tokens t0) as [t1|] eqn:Ha;
      cbn [rbind] in H; [|discriminate H].
    apply (IH (cmds0 ++ [tokens]) t1 t); [|exact H].
    eapply fold_changes_snoc; eauto.
Qed.

Lemma match_existing_walk_outcome (k : nat) :
  forall params n es,
    Repr k n es ->
    match_existing_walk k params n = Ok tt \/
    (match_existing_walk k params n = Raise IndexError /\ List.length params < k).
Proof.
  induction k as [|k IH]; intros params n es Hr; [now left|].
  destruct params as [|p rest]; [right; simpl; split; [reflexivity | lia]|].
  destruct Hr as [_ (items & -> & [_ Hc])]. cbn [match_existing_walk].
  destruct (dict_get p items) as [next|] eqn:E; [|now left].
  destruct (IH rest next (sub p es) (Hc p next E)) as [H|[H Hlen]]; [now left|].
  right. split; [assumption | simpl; lia].
Qed.

(** X6 -- The search for a matching line.  The loop of
    UpdateProfileChangesFile that looks for an existing line matching the
    new call (its result is not used) never changes the outcome: the
    function returns, or raises, exactly what parsing the file, adding
    the new call and serialising the trie return or raise. *)
Theorem match_search_is_harmless (changes_lines_list : list string)
  (new_function_name : string) (new_function_params : list string) :
  updated_changes changes_lines_list new_function_name new_function_params
  = let* parsed_changes_dict := parse_changes changes_lines_list in
    let* parsed_changes_dict :=
      AddFunctionToChangesDict (new_function_name :: new_function_params)
        parsed_changes_dict in
    Ok (ConvertChangesDictToFunctionList parsed_changes_dict).
Proof.
  unfold updated_changes.
  destruct (parse_changes changes_lines_list) as [t|e] eqn:Hp; [|reflexivity].
  cbn [rbind].
  destruct (parse_changes_reachable changes_lines_list [] [] t eq_refl Hp) as [cmds Hf].
  unfold match_existing.
  destruct (num_params_for_match new_function_name) as [k|e] eqn:Hk; cbn [rbind].
  - destruct (dict_get new_function_name t) as [cur|] eqn:Hg; [|reflexivity].
    destruct (reachable_ReprRoot cmds t Hf) as [_ [_ Hc]].
    destruct (Hc _ _ Hg) as (k' & Hk' & Hr). rewrite Hk in Hk'. inversion Hk'; subst k'.
    destruct (match_existing_walk_outcome k new_function_params cur _ Hr) as [->|[-> Hlen]];
      [reflexivity|].
    rewrite (AddFunctionToChangesDict_too_short cmds t new_function_name
               new_function_params k Hf Hk) by (simpl; lia).
    reflexivity.
  - unfold AddFunctionToChangesDict. now rewrite Hk.
Qed.

(** ** Every written line is a call of a mutator *)

Lemma mutator_table (f : string) (k : nat) :
  num_params_for_match f = Ok k ->
  exists info,
    dict_get f kFunctionInfoMap = Some info /\ ModifiesFilter info = true /\
    NumParamsForMatch info = Some k /\
    existsb (Nat.eqb (k + 1)) (NumParamsOptions info) = true.
Proof.
  unfold num_params_for_match, dict_item.
  destruct (dict_get f kFunctionInfoMap) as [info|] eqn:Hget; [|discriminate].
  cbn [rbind]. destruct (NumParamsForMatch info) as [k'|] eqn:Hn; [|discriminate].
  intros [= ->]. exists info.
  assert (Hall : forallb (fun entry : string * FunctionInfo =>
                            match NumParamsForMatch (snd entry) with
                            | Some k0 =>
                                ModifiesFilter (snd entry)
                                && existsb (Nat.eqb (k0 + 1)) (NumParamsOptions (snd entry))
                            | None => true
                            end) kFunctionInfoMap = true) by reflexivity.
  rewrite forallb_forall in Hall. specialize (Hall _ (dict_get_In _ _ _ Hget)).
  cbn [snd] in Hall. rewrite Hn in Hall. apply andb_true_iff in Hall. tauto.
Qed.

(** X7 -- Written lines are mutator calls.  Every line of the flattened
    trie starts with the name of a command with ModifiesFilter true and
    holds exactly NumParamsForMatch + 1 parameters, a number that the
    NumParamsOptions of the command allow: tokens beyond
    NumParamsForMatch + 2 of a recorded command are not written. *)
Theorem written_lines_are_mutator_calls (cmds : list (list string)) (t : changes_dict) :
  fold_changes cmds [] = Ok t ->
  Forall (fun tokens =>
            exists function_name function_params info k,
              tokens = function_name :: function_params /\
              dict_get function_name kFunctionInfoMap = Some info /\
              ModifiesFilter info = true /\
              NumParamsForMatch info = Some k /\
              List.length function_params = k + 1 /\
              existsb (Nat.eqb (List.length function_params)) (NumParamsOptions info) = true)
         (flatten t).
Proof.
  intros Hf. pose proof (reachable_ReprRoot cmds t Hf) as Hr.
  pose proof (spec_flatten_entry_wf cmds (proj1 Hr)) as Hwf.
  rewrite <- (flatten_ReprRoot t cmds Hr) in Hwf.
  revert Hwf. apply Forall_impl. intros tokens (f & rest & k & -> & Hk & Hlen).
  destruct (mutator_table f k Hk) as (info & Hget & Hmod & Hn & Hopts).
  assert (Hl : List.length rest = k + 1) by (simpl in Hlen; lia).
  exists f, rest, info, k. rewrite Hl. auto 8.
Qed.

Lemma written_lines_are_mutator_calls_witness :
  Forall (fun tokens =>
            exists function_name function_params info k,
              tokens = function_name :: function_params /\
              dict_get function_name kFunctionInfoMap = Some info /\
              ModifiesFilter info = true /\
              NumParamsForMatch info = Some k /\
              List.length function_params = k + 1 /\
              existsb (Nat.eqb (List.length function_params)) (NumParamsOptions info) = true)
         (flatten [("set_currency_to_tier", Dict [("Chaos Orb", Leaf "3")])]).
Proof.
  exact (written_lines_are_mutator_calls
           [["set_currency_to_tier"; "Chaos Orb"; "3"; "dropped"]] _ eq_refl).
Defined.

(** ** Blank lines *)

Lemma snoc_nonempty (token : string) (c : ascii) : snoc token c <> "".
Proof. unfold snoc. destruct token; discriminate. Qed.

Lemma emit_in_token (token : string) (quoted : bool) (next : result (list string)) :
  token <> "" \/ quoted = true -> emit token quoted next <> Ok [].
Proof.
  intros H. unfold emit.
  assert (E : negb quoted && String.eqb token "" = false).
  { destruct H as [H| ->]; [|reflexivity].
    apply String.eqb_neq in H. rewrite H. apply andb_false_r. }
  rewrite E. destruct next; discriminate.
Qed.

Lemma read_tokens_in_token (input : string) :
  forall state escapedstate token quoted,
    in_token state escapedstate token quoted ->
    read_tokens input state escapedstate token quoted <> Ok [].
Proof.
  induction input as [|c rest IH]; intros state esc token quoted Hin.
  - destruct state; simpl in *; try contradiction; try discriminate.
    now apply emit_in_token.
  - destruct state; cbn [read_tokens]; simpl in Hin; try contradiction.
    + destruct (is_whitespace c).
      * assert (E : negb (String.eqb token "") || quoted = true).
        { destruct Hin as [H| ->]; [|apply orb_true_r].
          apply String.eqb_neq in H. now rewrite H. }
        rewrite E. now apply emit_in_token.
      * destruct (is_quote c); [apply IH; exact I|].
        destruct (is_escape c); [apply IH; simpl; auto|].
        apply IH. simpl. left. apply snoc_nonempty.
    + destruct (Ascii.eqb c q); [apply IH; simpl; auto|].
      destruct (is_escape c && Ascii.eqb q double_quote); apply IH; simpl; eauto.
    + apply IH. destruct Hin as [->|[q ->]]; simpl; [left|exact I].
      apply snoc_nonempty.
Qed.

Lemma no_token_whitespace (input : string) (escapedstate : lex_state) :
  read_tokens input StWhite escapedstate "" false = Ok [] <->
  all_chars is_whitespace input = true.
Proof.
  revert escapedstate. induction input as [|c rest IH]; intros esc; [simpl; tauto|].
  cbn [read_tokens all_chars]. destruct (is_whitespace c); cbn [String.eqb negb orb andb].
  - apply IH.
  - split; [|discriminate]. intros H. exfalso. revert H.
    destruct (is_escape c); [apply read_tokens_in_token; simpl; auto|].
    destruct (is_quote c); [apply read_tokens_in_token; exact I|].
    apply read_tokens_in_token. simpl. left. discriminate.
Qed.

Lemma whitespace_is_py_space (c : ascii) : is_whitespace c = true -> is_py_space c = true.
Proof.
  unfold is_whitespace. rewrite !orb_true_iff, !Ascii.eqb_eq.
  intros [[[->| ->]| ->]| ->]; reflexivity.
Qed.

Lemma py_strip_blank (s : string) : all_chars is_py_space s = true -> py_strip s = "".
Proof.
  unfold py_strip. induction s as [|c s IH]; [reflexivity|]. simpl.
  intros H. apply andb_true_iff in H. destruct H as [-> Hs]. now apply IH.
Qed.

(** X8 -- Blank lines.  A line that strip() does not empty never
    tokenizes to an empty list, so unpacking the command name in
    run_batch fails only when shlex.split itself raises.  A line of
    shlex white space is skipped by run_batch, makes the replay of the
    changes file raise ValueError (nothing to unpack) and makes
    UpdateProfileChangesFile raise IndexError (function_tokens[0]). *)
Theorem blank_lines (B : Backend) (line : string) :
  (String.eqb (py_strip line) "" = false ->
   shlex_split line <> Ok [] /\
   forall e, split_call line = Raise e -> shlex_split line = Raise e) /\
  (all_chars is_whitespace line = true ->
   (forall rest contains_mutator lf w,
       run_batch_loop B (line :: rest) contains_mutator lf w
       = run_batch_loop B rest contains_mutator lf w) /\
   (forall rest lf w, replay_changes B (line :: rest) lf w = (w, Raise ValueError)) /\
   (forall rest name params,
       updated_changes (line :: rest) name params = Raise IndexError)).
Proof.
  split.
  - intros Hblank.
    assert (Hne : shlex_split line <> Ok []).
    { intros H. apply no_token_whitespace in H.
      rewrite py_strip_blank in Hblank; [discriminate|].
      revert H. apply all_chars_impl, whitespace_is_py_space. }
    split; [exact Hne|]. intros e. unfold split_call.
    destruct (shlex_split line) as [[|name params]|e']; cbn [rbind]; congruence.
  - intros Hws.
    assert (Hstrip : py_strip line = "").
    { apply py_strip_blank. revert Hws. apply all_chars_impl, whitespace_is_py_space. }
    assert (Hsplit : shlex_split line = Ok []) by now apply no_token_whitespace.
    repeat split.
    + intros rest cm lf w. cbn [run_batch_loop]. now rewrite Hstrip.
    + intros rest lf w. cbn [replay_changes]. unfold split_call. now rewrite Hsplit.
    + intros rest name params. unfold updated_changes, parse_changes. cbn [for_each].
      rewrite Hstrip. reflexivity.
Qed.

Lemma blank_lines_witness :
  updated_changes [""; "set_gem_min_quality 10"] "set_gem_min_quality" ["12"]
  = Raise IndexError.
Proof.
  exact (proj2 (proj2 (proj2 (blank_lines (toy_backend no_currency) "") eq_refl))
           ["set_gem_min_quality 10"] "set_gem_min_quality" ["12"]).
Defined.

(** ** The number of parameters is checked again by every branch *)

Lemma py_int_error (s : string) (e : exn) : py_int s = Raise e -> e = ValueError.
Proof.
  unfold py_int.
  destruct (match int_rstrip (int_lstrip s) with EmptyString => _ | String _ _ => _ end);
    congruence.
Qed.

Lemma py_bool_int_error (s : string) (e : exn) : py_bool_int s = Raise e -> e = ValueError.
Proof.
  unfold py_bool_int. destruct (py_int s) eqn:E; cbn [rbind]; [discriminate|].
  intros [= <-]. eapply py_int_error; eauto.
Qed.

Lemma dict_item_error {V : Type} (key : string) (d : list (string * V)) (e : exn) :
  dict_item key d = Raise e -> e = KeyError.
Proof. unfold dict_item. destruct (dict_get key d); congruence. Qed.

Ltac raised_class H :=
  repeat match goal with
         | E : py_int _ = Raise _ |- _ => apply py_int_error in E; subst
         | E : py_bool_int _ = Raise _ |- _ => apply py_bool_int_error in E; subst
         | E : dict_item _ _ = Raise _ |- _ => apply dict_item_error in E; subst
         | E : (if ?c then _ else _) = Raise _ |- _ =>
             destruct c; try discriminate E; injection E as <-
         | E : (if ?c then _ else _) _ = Raise _ |- _ =>
             destruct c; unfold note in E; discriminate E
         end;
  try discriminate H.

Lemma toy_accepts (name : string) (info : FunctionInfo) (params : list string) :
  dict_get name kFunctionInfoMap = Some info ->
  ~ In name ["import_downloaded_filter"; "load_input_filter"; "run_batch"] ->
  existsb (Nat.eqb (List.length params)) (NumParamsOptions info) = true ->
  command_body (toy_backend no_currency) [] tt (Some []) name params <> Raise RuntimeError.
Proof.
  intros Hget Hname Hopts. apply dict_get_In in Hget.
  unfold kFunctionInfoMap in Hget. cbn [In] in Hget.
  repeat (destruct Hget as [Hget|Hget];
          [inversion Hget; subst name info; clear Hget;
           destruct params as [|a [|b [|c [|d ps]]]];
           cbn in Hopts; try discriminate Hopts;
           try (exfalso; apply Hname; cbn [In]; tauto);
           intros H;
           cbv beta iota zeta delta [command_body String.eqb Ascii.eqb Bool.eqb] in H;
           unfold check_filters_exist, is_first_launch, get_all_profile_names,
             create_new_profile, rename_profile, delete_profile, set_active_profile,
             get_rule_matching_item, set_rule_visibility, set_currency_to_tier,
             get_all_currency_tiers, set_currency_tier_min_visible_stack_size,
             tier_visibilities, int_setter, set_two_flag_visibility,
             get_two_flag_visibility, get_all_visible_basetypes, get_all_visible_flasks,
             add_remove_socket_rule, get_all_added_socket_rules,
             set_chaos_recipe_enabled_for, get_all_chaos_recipe_statuses,
             getter, setter, visibility_map, map_result, note in H;
           cbn [CheckNumParams List.length Nat.eqb rbind the_filter the_config param nth app
                toy_backend LootFilter Env Rule RuleVisibility kShow kHide kDisabledAny
                visibility_eqb FiltersExist GetAllProfileNames CreateNewProfile
                RenameProfile DeleteProfile SetActiveProfile GetRuleMatchingItem GetRule
                text_lines SetVisibility SetCurrencyToTier GetTierOfCurrency
                GetAllCurrencyInTier SetCurrencyTierMinVisibleStackSize
                GetCurrencyTierMinVisibleStackSize GetEssenceTierVisibility
                SetHideEssencesAboveTierTier GetHideEssencesAboveTierTier
                GetDivCardTierVisibility SetHideDivCardsAboveTierTier
                GetHideDivCardsAboveTierTier GetUniqueItemTierVisibility
                SetHideUniqueItemsAboveTierTier GetHideUniqueItemsAboveTierTier
                GetUniqueMapTierVisibility SetHideUniqueMapsAboveTierTier
                GetHideUniqueMapsAboveTierTier SetLowestVisibleOil GetLowestVisibleOil
                SetGemMinQuality GetGemMinQuality SetFlaskMinQuality GetFlaskMinQuality
                SetHideMapsBelowTierTier GetHideMapsBelowTierTier SetBaseTypeRuleEnabledFor
                IsBaseTypeRuleEnabledFor GetAllVisibleBaseTypes SetFlaskRuleEnabledFor
                IsFlaskRuleEnabledFor GetAllVisibleFlaskTypes AddSocketRule RemoveSocketRule
                GetAllAddedSocketRules SetRgbItemMaxSize GetRgbItemMaxSize
                SetChaosRecipeEnabledFor IsChaosRecipeEnabledFor
                kNumCurrencyTiersExcludingScrolls kNumEssenceTiers kNumDivCardTiers
                kNumUniqueItemTiers kNumUniqueMapTiers kItemSlots set_difference_list
                fst snd] in H;
           try discriminate H;
           unfold rbind in H;
           repeat match type of H with
                  | context [match ?x with _ => _ end] =>
                      let E := fresh "E" in destruct x eqn:E; try discriminate H
                  end;
           raised_class H|]).
  contradiction.
Qed.

(** X9 -- The number of parameters is checked by every branch, and as
    the table says.  For a command of kFunctionInfoMap called with a
    number of parameters that its NumParamsOptions do not list, the
    dispatcher raises RuntimeError before any collaborator is called and
    leaves no effect, whether the call comes from main, from a line of a
    batch or from a line of the changes file.  Conversely, for a command
    other than the import and batch commands, the dispatcher rejects a
    call whatever the collaborators do only when the number of
    parameters is not one of the NumParamsOptions: the CheckNumParams of
    a branch accepts exactly the numbers that ValidateAndParseArguments
    accepts. *)
Theorem arity_check_matches_table (name : string) (info : FunctionInfo)
  (params : list string) :
  dict_get name kFunctionInfoMap = Some info ->
  (existsb (Nat.eqb (List.length params)) (NumParamsOptions info) = false ->
   forall (B : Backend) (lf : option (LootFilter B)) (w : World B),
     command_body B (input_file w) (env w) lf name params = Raise RuntimeError /\
     DelegateFunctionCall B lf name params w = (w, Raise RuntimeError) /\
     (forall suppress_output,
         DelegateFunctionCall_in_batch B suppress_output lf name params w
         = (w, Raise RuntimeError))) /\
  (~ In name ["import_downloaded_filter"; "load_input_filter"; "run_batch"] ->
   ((forall (B : Backend) input e lf,
        command_body B input e lf name params = Raise RuntimeError) <->
    existsb (Nat.eqb (List.length params)) (NumParamsOptions info) = false)).
Proof.
  intros Hget.
  assert (Hreject :
            existsb (Nat.eqb (List.length params)) (NumParamsOptions info) = false ->
            forall (B : Backend) (lf : option (LootFilter B)) (w : World B),
              command_body B (input_file w) (env w) lf name params = Raise RuntimeError /\
              DelegateFunctionCall B lf name params w = (w, Raise RuntimeError) /\
              (forall suppress_output,
                  DelegateFunctionCall_in_batch B suppress_output lf name params w
                  = (w, Raise RuntimeError))).
  { intros Hopts B lf w. pose proof (dict_get_In _ _ _ Hget) as Hin.
    unfold kFunctionInfoMap in Hin. cbn [In] in Hin.
    repeat (destruct Hin as [Hin|Hin];
            [inversion Hin; subst name info; clear Hin;
             destruct params as [|a [|b [|c [|d ps]]]];
             cbn in Hopts; try discriminate Hopts;
             (split; [reflexivity|]; split; [reflexivity|]; intros; reflexivity)|]).
    contradiction. }
  split; [exact Hreject|]. intros Hname. split.
  - intros Hall.
    destruct (existsb (Nat.eqb (List.length params)) (NumParamsOptions info)) eqn:Hopts;
      [|reflexivity].
    exfalso. apply (toy_accepts name info params Hget Hname Hopts). apply Hall.
  - intros Hopts B input e lf.
    exact (proj1 (Hreject Hopts B lf (mkWorld B e [] input []))).
Qed.

Lemma arity_check_matches_table_witness :
  DelegateFunctionCall (toy_backend no_currency) (Some []) "set_gem_min_quality"
    ["10"; "20"] (toy_world (toy_backend no_currency) tt [] [])
  = (toy_world (toy_backend no_currency) tt [] [], Raise RuntimeError).
Proof.
  exact (proj1 (proj2 (proj1 (arity_check_matches_table "set_gem_min_quality" _
                                ["10"; "20"] eq_refl)
                         eq_refl (toy_backend no_currency) (Some [])
                         (toy_world (toy_backend no_currency) tt [] [])))).
Defined.

(** ** Names that are not commands *)

Lemma command_body_unknown (B : Backend) (input : list string) (e : Env B)
  (lf : option (LootFilter B)) (name : string) (params : list string) :
  dict_get name kFunctionInfoMap = None ->
  command_body B input e lf name params = Raise RuntimeError.
Proof.
  intros H. unfold command_body. name_cases name; try reflexivity;
    exfalso; vm_compute in H; discriminate H.
Qed.

Lemma modifies_filter_unknown (name : string) :
  dict_get name kFunctionInfoMap = None -> modifies_filter name = Raise KeyError.
Proof. intros H. unfold modifies_filter, dict_item. now rewrite H. Qed.

(** X10 -- Names that are not commands.  A name that kFunctionInfoMap
    does not hold raises KeyError in ValidateAndParseArguments (main then
    logs the traceback and writes the exit code '1', with no other
    effect) and KeyError in the loop of run_batch, but RuntimeError
    (command not supported) in DelegateFunctionCall and so in the replay
    of the changes file. *)
Theorem unknown_command (B : Backend) (name : string) :
  dict_get name kFunctionInfoMap = None ->
  (forall script rest w,
      main B (script :: name :: rest) w
      = ([WriteExitCode B "-1"; LogTraceback B KeyError; WriteExitCode B "1"],
         at_start B w, Raise KeyError)) /\
  (forall lf params w,
      DelegateFunctionCall B lf name params w = (w, Raise RuntimeError)) /\
  (forall line params rest contains_mutator lf w,
      String.eqb (py_strip line) "" = false ->
      split_call line = Ok (name, params) ->
      run_batch_loop B (line :: rest) contains_mutator lf w = (w, Raise KeyError)) /\
  (forall line params rest lf w,
      split_call line = Ok (name, params) ->
      replay_changes B (line :: rest) lf w = (w, Raise RuntimeError)).
Proof.
  intros H. repeat split.
  - intros script rest w. unfold main, main_impl, ValidateAndParseArguments, dict_item.
    rewrite H. reflexivity.
  - intros lf params w. unfold DelegateFunctionCall.
    assert (H1 : String.eqb name "import_downloaded_filter" = false).
    { apply String.eqb_neq. intros ->. discriminate H. }
    assert (H2 : String.eqb name "load_input_filter" = false).
    { apply String.eqb_neq. intros ->. discriminate H. }
    assert (H3 : String.eqb name "run_batch" = false).
    { apply String.eqb_neq. intros ->. discriminate H. }
    rewrite H1, H2, H3. cbn [orb].
    now rewrite command_body_unknown.
  - intros line params rest cm lf w Hblank Hsplit. cbn [run_batch_loop].
    rewrite Hblank, Hsplit. now rewrite modifies_filter_unknown.
  - intros line params rest lf w Hsplit. cbn [replay_changes]. rewrite Hsplit.
    unfold DelegateFunctionCall_in_batch. now rewrite command_body_unknown.
Qed.

Lemma unknown_command_witness :
  main (toy_backend no_currency) ["backend_cli.py"; "TEST"; "import_downloaded_filter"]
    (toy_world (toy_backend no_currency) tt [] [])
  = ([WriteExitCode (toy_backend no_currency) "-1";
      LogTraceback (toy_backend no_currency) KeyError;
      WriteExitCode (toy_backend no_currency) "1"],
     at_start (toy_backend no_currency) (toy_world (toy_backend no_currency) tt [] []),
     Raise KeyError).
Proof.
  exact (proj1 (unknown_command (toy_backend no_currency) "TEST" eq_refl)
           "backend_cli.py" ["import_downloaded_filter"]
           (toy_world (toy_backend no_currency) tt [] [])).
Defined.

(** ** A batch starts no batch *)

(** X11 -- A batch starts no batch.  Called with in_batch = True,
    import_downloaded_filter, load_input_filter and run_batch are not
    supported: the call raises RuntimeError with no effect, and so does a
    batch or a replay at the line that names one of them. *)
Theorem batches_do_not_nest (B : Backend) (name : string) :
  In name ["import_downloaded_filter"; "load_input_filter"; "run_batch"] ->
  (forall suppress_output lf params w,
      DelegateFunctionCall_in_batch B suppress_output lf name params w
      = (w, Raise RuntimeError)) /\
  (forall line params rest contains_mutator lf w,
      String.eqb (py_strip line) "" = false ->
      split_call line = Ok (name, params) ->
      run_batch_loop B (line :: rest) contains_mutator lf w = (w, Raise RuntimeError)) /\
  (forall line params rest lf w,
      split_call line = Ok (name, params) ->
      replay_changes B (line :: rest) lf w = (w, Raise RuntimeError)).
Proof.
  intros Hin.
  assert (Hb : forall suppress_output lf params w,
             DelegateFunctionCall_in_batch B suppress_output lf name params w
             = (w, Raise RuntimeError)).
  { intros s lf params w. destruct Hin as [<-|[<-|[<-|[]]]]; reflexivity. }
  assert (Hm : modifies_filter name = Ok false).
  { destruct Hin as [<-|[<-|[<-|[]]]]; reflexivity. }
  repeat split.
  - exact Hb.
  - intros line params rest cm lf w Hblank Hsplit. cbn [run_batch_loop].
    now rewrite Hblank, Hsplit, Hm, Hb.
  - intros line params rest lf w Hsplit. cbn [replay_changes].
    now rewrite Hsplit, Hb.
Qed.

Lemma batches_do_not_nest_witness :
  run_batch_loop (toy_backend no_currency) ["run_batch"] false (Some [])
    (toy_world (toy_backend no_currency) tt [] ["run_batch"])
  = (toy_world (toy_backend no_currency) tt [] ["run_batch"], Raise RuntimeError).
Proof.
  refine (proj1 (proj2 (batches_do_not_nest (toy_backend no_currency) "run_batch" _))
            "run_batch" [] [] false (Some [])
            (toy_world (toy_backend no_currency) tt [] ["run_batch"]) eq_refl eq_refl).
  simpl. tauto.
Defined.

(** ** What a direct call writes *)

Lemma not_batch_name (name : string) :
  ~ In name ["import_downloaded_filter"; "load_input_filter"; "run_batch"] ->
  String.eqb name "import_downloaded_filter" || String.eqb name "load_input_filter" = false /\
  String.eqb name "run_batch" = false.
Proof.
  intros H. cbn [In] in H.
  destruct (String.eqb name "import_downloaded_filter") eqn:E1;
    [apply String.eqb_eq in E1; subst; tauto|].
  destruct (String.eqb name "load_input_filter") eqn:E2;
    [apply String.eqb_eq in E2; subst; tauto|].
  destruct (String.eqb name "run_batch") eqn:E3;
    [apply String.eqb_eq in E3; subst; tauto|].
  auto.
Qed.

(** X12 -- Queries write their output and nothing else.  For a command
    with ModifiesFilter false other than the import and batch commands, a
    direct call leaves the changes file as it was and adds exactly one
    effect, the WriteOutput of its output (AppendFunctionOutput of the
    output and the separator line in a batch); when its branch raises,
    the call raises the same exception with no effect. *)
Theorem queries_only_write_output (B : Backend) (lf : option (LootFilter B))
  (name : string) (info : FunctionInfo) (params : list string) (w : World B) :
  dict_get name kFunctionInfoMap = Some info ->
  ModifiesFilter info = false ->
  ~ In name ["import_downloaded_filter"; "load_input_filter"; "run_batch"] ->
  (forall e, command_body B (input_file w) (env w) lf name params = Raise e ->
             DelegateFunctionCall B lf name params w = (w, Raise e) /\
             DelegateFunctionCall_in_batch B false lf name params w = (w, Raise e)) /\
  (forall e' lf' out params',
      command_body B (input_file w) (env w) lf name params = Ok (e', lf', out, params') ->
      DelegateFunctionCall B lf name params w
      = (mkWorld B e' (changes_file w) (input_file w) (events w ++ [WriteOutput B out]),
         Ok lf') /\
      DelegateFunctionCall_in_batch B false lf name params w
      = (mkWorld B e' (changes_file w) (input_file w)
           (events w ++ [AppendFunctionOutput B (output_block out)]),
         Ok lf')).
Proof.
  intros Hget Hmod Hname. destruct (not_batch_name name Hname) as [H1 H2].
  assert (Hm : modifies_filter name = Ok false).
  { unfold modifies_filter, dict_item. rewrite Hget. cbn [rbind]. now rewrite Hmod. }
  split.
  - intros e He. unfold DelegateFunctionCall, DelegateFunctionCall_in_batch.
    now rewrite H1, H2, He.
  - intros e' lf' out params' Hb.
    unfold DelegateFunctionCall, DelegateFunctionCall_in_batch.
    rewrite H1, H2, Hb, Hm. split; reflexivity.
Qed.

Lemma queries_only_write_output_witness :
  DelegateFunctionCall (toy_backend no_currency) (Some []) "get_lowest_visible_oil" []
    (toy_world (toy_backend no_currency) tt ["set_gem_min_quality 10"] [])
  = (mkWorld (toy_backend no_currency) tt ["set_gem_min_quality 10"] []
       [WriteOutput (toy_backend no_currency) "Clear Oil"],
     Ok (Some [])).
Proof.
  refine (proj1 (proj2 (queries_only_write_output (toy_backend no_currency) (Some [])
                          "get_lowest_visible_oil" _ []
                          (toy_world (toy_backend no_currency) tt ["set_gem_min_quality 10"] [])
                          eq_refl eq_refl _)
                   tt (Some []) "Clear Oil" [] eq_refl)).
  cbn [In]. intros [H|[H|[H|[]]]]; discriminate H.
Defined.

Lemma setter_outcome (B : Backend) (e e' : Env B) (lf lf' : option (LootFilter B))
  (params params' : list string) (out : string)
  (update : LootFilter B -> result (LootFilter B)) :
  setter B e lf params update = Ok (e', lf', out, params') ->
  e' = e /\ out = "" /\ exists saved, lf' = Some saved.
Proof. unfold setter. intros H. split_branch H. inversion H; subst. eauto. Qed.

Lemma mutator_outcome (B : Backend) (input : list string) (e e' : Env B)
  (lf lf' : option (LootFilter B)) (name : string) (params params' : list string)
  (out : string) :
  modifies_filter name = Ok true ->
  command_body B input e lf name params = Ok (e', lf', out, params') ->
  e' = e /\ out = "" /\ exists saved, lf' = Some saved.
Proof.
  intros Hmod Hbody. apply modifies_filter_mutator in Hmod.
  unfold mutator_names in Hmod. cbn [In] in Hmod.
  repeat (destruct Hmod as [<-|Hmod]); [..|contradiction];
    change (command_body B input e lf ?n params) with
      (ltac:(let t := eval cbv beta iota zeta delta [command_body String.eqb Ascii.eqb Bool.eqb]
                      in (command_body B input e lf n params) in exact t)) in Hbody;
    unfold set_rule_visibility, set_currency_to_tier,
      set_currency_tier_min_visible_stack_size, int_setter, set_two_flag_visibility,
      add_remove_socket_rule, set_chaos_recipe_enabled_for in Hbody;
    unfold rbind in Hbody;
    repeat match type of Hbody with
           | context [match ?x with _ => _ end] =>
               lazymatch x with
               | setter _ _ _ _ _ => fail
               | _ => let E := fresh "E" in destruct x eqn:E; try discriminate Hbody
               end
           end;
    first [ now apply setter_outcome in Hbody
          | inversion Hbody; subst; eauto ].
Qed.

(** X13 -- The effects of a mutator called directly.  When the branch of
    a command with ModifiesFilter true returns, its output is empty and
    the call writes the empty output, then saves the filter, then updates
    the changes file with the parameter list the branch left.  When that
    update raises, the output and the saved filter stay and the changes
    file is not written. *)
Theorem mutator_call_effects (B : Backend) (lf : option (LootFilter B))
  (name : string) (params params' : list string) (w : World B)
  (e' : Env B) (lf' : option (LootFilter B)) (out : string) :
  modifies_filter name = Ok true ->
  command_body B (input_file w) (env w) lf name params = Ok (e', lf', out, params') ->
  e' = env w /\ out = "" /\
  exists saved,
    lf' = Some saved /\
    DelegateFunctionCall B lf name params w
    = match updated_changes (changes_file w) name params' with
      | Ok changes_list =>
          (mkWorld B (env w) changes_list (input_file w)
             (events w ++ [WriteOutput B ""; SaveToFile B saved; WriteChanges B changes_list]),
           Ok (Some saved))
      | Raise e =>
          (mkWorld B (env w) (changes_file w) (input_file w)
             (events w ++ [WriteOutput B ""; SaveToFile B saved]),
           Raise e)
      end /\
    DelegateFunctionCall_in_batch B false lf name params w
    = match updated_changes (changes_file w) name params' with
      | Ok changes_list =>
          (mkWorld B (env w) changes_list (input_file w)
             (events w ++ [AppendFunctionOutput B (output_block "");
                           WriteChanges B changes_list]),
           Ok (Some saved))
      | Raise e =>
          (mkWorld B (env w) (changes_file w) (input_file w)
             (events w ++ [AppendFunctionOutput B (output_block "")]),
           Raise e)
      end /\
    DelegateFunctionCall_in_batch B true lf name params w
    = (mkWorld B (env w) (changes_file w) (input_file w) (events w), Ok (Some saved)).
Proof.
  intros Hmod Hbody.
  destruct (mutator_outcome B _ _ _ _ _ _ _ _ _ Hmod Hbody) as (-> & -> & saved & ->).
  split; [reflexivity|]. split; [reflexivity|]. exists saved. split; [reflexivity|].
  assert (Hname : ~ In name ["import_downloaded_filter"; "load_input_filter"; "run_batch"]).
  { intros Hin. cbn [In] in Hin. destruct Hin as [<-|[<-|[<-|[]]]]; discriminate Hmod. }
  destruct (not_batch_name name Hname) as [H1 H2].
  unfold DelegateFunctionCall, DelegateFunctionCall_in_batch.
  rewrite H1, H2, Hbody, Hmod.
  unfold save_filter, the_filter, the_config, UpdateProfileChangesFile, log_event, with_env.
  cbn [env changes_file input_file events andb negb].
  destruct (updated_changes (changes_file w) name params') as [changes_list|e]; cbn [rbind];
    rewrite <- !app_assoc; auto.
Qed.

Lemma mutator_call_effects_witness :
  DelegateFunctionCall (toy_backend no_currency) (Some []) "set_basetype_visibility"
    ["Hubris Circlet"; "1"]
    (toy_world (toy_backend no_currency) tt ["set_currency_to_tier Chaos"] [])
  = (mkWorld (toy_backend no_currency) tt ["set_currency_to_tier Chaos"] []
       [WriteOutput (toy_backend no_currency) "";
        SaveToFile (toy_backend no_currency)
          ["SetBaseTypeRuleEnabledFor Hubris Circlet 1 0"]],
     Raise IndexError).
Proof.
  destruct (mutator_call_effects (toy_backend no_currency) (Some [])
              "set_basetype_visibility" ["Hubris Circlet"; "1"]
              ["Hubris Circlet"; "1"; "0"]
              (toy_world (toy_backend no_currency) tt ["set_currency_to_tier Chaos"] [])
              tt (Some ["SetBaseTypeRuleEnabledFor Hubris Circlet 1 0"]) ""
              eq_refl eq_refl) as (_ & _ & saved & Hs & H & _).
  inversion Hs; subst saved. exact H.
Defined.

(** ** The output file of a batch *)

Lemma appended_app (B : Backend) (a b : list (event B)) :
  appended (a ++ b) =
  match appended a, appended b with
  | Some x, Some y => Some (x ++ y)
  | _, _ => None
  end.
Proof.
  induction a as [|ev a IH]; simpl.
  - destruct (appended b); reflexivity.
  - destruct ev; try exact IH; [reflexivity|].
    rewrite IH. destruct (appended a), (appended b); reflexivity.
Qed.

Lemma output_file_app (B : Backend) (a b : list (event B)) (content : string) :
  output_file (a ++ b) content = output_file b (output_file a content).
Proof.
  revert content. induction a as [|ev a IH]; intros content; [reflexivity|].
  destruct ev; simpl; apply IH.
Qed.

Lemma output_file_appended (B : Backend) (evs : list (event B)) (texts : list string) :
  appended evs = Some texts ->
  forall content, output_file evs content = content +++ concat_strings texts.
Proof.
  revert texts. induction evs as [|ev evs IH]; intros texts H content.
  - inversion H. simpl. now rewrite append_nil_r.
  - destruct ev; simpl in *; try (now apply IH); [discriminate|].
    destruct (appended evs) as [ts|]; [|discriminate]. inversion H; subst texts.
    rewrite (IH ts eq_refl). simpl. now rewrite append_assoc.
Qed.

Lemma in_batch_appends (B : Backend) (lf : option (LootFilter B)) (name : string)
  (params : list string) (w : World B) :
  exists new texts,
    events (fst (DelegateFunctionCall_in_batch B false lf name params w)) = events w ++ new /\
    appended new = Some texts /\
    Forall (fun text => exists out, text = output_block out) texts /\
    List.length texts <= 1 /\
    (is_ok (snd (DelegateFunctionCall_in_batch B false lf name params w)) = true ->
     List.length texts = 1).
Proof.
  unfold DelegateFunctionCall_in_batch.
  destruct (command_body _ _ _ _ _ _) as [[[[e' lf'] out] params']|e].
  - assert (Hblock : Forall (fun text => exists o, text = output_block o)
                       [out +++ newline +++ "@" +++ newline]).
    { constructor; [now exists out | constructor]. }
    destruct (modifies_filter name) as [modifies|e].
    + destruct (modifies && negb false) eqn:Em.
      * destruct (the_config B lf') as [cfg|e].
        -- unfold UpdateProfileChangesFile.
           destruct (updated_changes _ _ _) as [changes_list|e]; cbn [fst snd].
           ++ exists [AppendFunctionOutput B (out +++ newline +++ "@" +++ newline);
                      WriteChanges B changes_list],
                [out +++ newline +++ "@" +++ newline].
              cbn [events log_event with_env]. rewrite <- app_assoc. auto 6.
           ++ exists [AppendFunctionOutput B (out +++ newline +++ "@" +++ newline)],
                [out +++ newline +++ "@" +++ newline].
              cbn [events log_event with_env]. auto 6.
        -- exists [AppendFunctionOutput B (out +++ newline +++ "@" +++ newline)],
             [out +++ newline +++ "@" +++ newline].
           cbn [fst snd events log_event with_env]. auto 6.
      * exists [AppendFunctionOutput B (out +++ newline +++ "@" +++ newline)],
          [out +++ newline +++ "@" +++ newline].
        cbn [fst snd events log_event with_env]. auto 6.
    + exists [AppendFunctionOutput B (out +++ newline +++ "@" +++ newline)],
        [out +++ newline +++ "@" +++ newline].
      cbn [fst snd events log_event with_env]. auto 6.
  - exists [], []. cbn [fst snd is_ok]. rewrite app_nil_r.
    repeat split; auto. discriminate.
Qed.

Lemma run_batch_loop_appends (B : Backend) (lines : list string) :
  forall (contains_mutator : bool) (lf : option (LootFilter B)) (w : World B),
  exists new texts,
    events (fst (run_batch_loop B lines contains_mutator lf w)) = events w ++ new /\
    appended new = Some texts /\
    Forall (fun text => exists out, text = output_block out) texts /\
    List.length texts <= List.length (executed_lines lines) /\
    (is_ok (snd (run_batch_loop B lines contains_mutator lf w)) = true ->
     List.length texts = List.length (executed_lines lines)).
Proof.
  induction lines as [|line lines IH]; intros cm lf w.
  - exists [], []. simpl. rewrite app_nil_r. auto.
  - cbn [run_batch_loop executed_lines filter].
    destruct (String.eqb (py_strip line) "") eqn:Eblank; cbn [negb]; [apply IH|].
    fold (executed_lines lines).
    destruct (split_call line) as [[name params]|e].
    + destruct (modifies_filter name) as [modifies|e].
      * destruct (in_batch_appends B lf name params w)
          as (new1 & texts1 & Hev1 & Hap1 & Hbl1 & Hle1 & Hok1).
        destruct (DelegateFunctionCall_in_batch B false lf name params w) as [w' [lf1|e]].
        -- destruct (IH (modifies || cm) lf1 w')
             as (new2 & texts2 & Hev2 & Hap2 & Hbl2 & Hle2 & Hok2).
           exists (new1 ++ new2), (texts1 ++ texts2).
           cbn [fst snd] in *. rewrite Hev2, Hev1, <- app_assoc.
           rewrite appended_app, Hap1, Hap2, length_app.
           specialize (Hok1 eq_refl). cbn [List.length].
           repeat split; auto; [apply Forall_app; auto | lia | intros H; apply Hok2 in H; lia].
        -- exists new1, texts1. cbn [fst snd is_ok] in *. cbn [List.length].
           repeat split; auto; [lia | discriminate].
      * exists [], []. cbn [fst snd is_ok List.length]. rewrite app_nil_r.
        repeat split; auto; [lia | discriminate].
    + exists [], []. cbn [fst snd is_ok List.length]. rewrite app_nil_r.
      repeat split; auto; [lia | discriminate].
Qed.

Lemma blocks_of_texts (texts : list string) :
  Forall (fun text => exists out, text = output_block out) texts ->
  exists outputs, texts = map output_block outputs.
Proof.
  induction 1 as [|text texts [out ->] _ [outputs ->]]; [now exists []|].
  now exists (out :: outputs).
Qed.

Lemma DelegateFunctionCall_run_batch (B : Backend) (lf : option (LootFilter B))
  (params : list string) (w : World B) :
  DelegateFunctionCall B lf "run_batch" params w = run_batch B lf params w.
Proof.
  unfold DelegateFunctionCall. cbn [String.eqb Ascii.eqb Bool.eqb orb andb].
  destruct (run_batch B lf params w) as [w' [lf'|e]]; reflexivity.
Qed.

(** X14 -- The output file of a batch.  Whatever backend_cli.output held
    before, after run_batch it holds one block per executed line (a line
    that strip() does not empty), each block an output followed by a
    newline, the character @ and a newline; when the batch is cut short
    by an exception, it holds the blocks written until then. *)
Theorem run_batch_output (B : Backend) (lf : option (LootFilter B)) (w : World B)
  (content : string) :
  exists outputs,
    output_file (events (fst (DelegateFunctionCall B lf "run_batch" [] w))) content
    = concat_strings (map output_block outputs) /\
    List.length outputs <= List.length (executed_lines (input_file w)) /\
    (is_ok (snd (DelegateFunctionCall B lf "run_batch" [] w)) = true ->
     List.length outputs = List.length (executed_lines (input_file w))).
Proof.
  rewrite DelegateFunctionCall_run_batch.
  unfold run_batch. cbn [CheckNumParams List.length Nat.eqb].
  set (w0 := log_event B (WriteOutput B "") w).
  change (input_file w0) with (input_file w).
  destruct (run_batch_loop_appends B (input_file w) false lf w0)
    as (new & texts & Hev & Hap & Hbl & Hle & Hok).
  destruct (blocks_of_texts texts Hbl) as [outputs ->]. rewrite length_map in *.
  exists outputs.
  assert (Hout : forall tail, appended tail = Some [] ->
             output_file (events w0 ++ new ++ tail) content
             = concat_strings (map output_block outputs)).
  { intros tail Htail. subst w0. cbn [events log_event].
    rewrite <- !app_assoc, output_file_app. cbn [app output_file].
    rewrite (output_file_appended B (new ++ tail) (map output_block outputs)).
    - reflexivity.
    - rewrite appended_app, Hap, Htail. now rewrite app_nil_r. }
  destruct (run_batch_loop B (input_file w) false lf w0) as [w' [[flag lf']|e]];
    cbn [fst snd] in *.
  - destruct flag.
    + unfold save_filter. destruct (the_filter B lf') as [saved|e]; cbn [fst snd].
      * split; [|split; [assumption | intros _; now apply Hok]].
        cbn [events log_event]. rewrite Hev, <- app_assoc. now apply Hout.
      * split; [|split; [assumption | discriminate]].
        rewrite Hev, <- (app_nil_r new). now apply Hout.
    + cbn [fst snd]. split; [|split; [assumption | intros _; now apply Hok]].
      rewrite Hev, <- (app_nil_r new). now apply Hout.
  - split; [|split; [assumption | discriminate]].
    rewrite Hev, <- (app_nil_r new). now apply Hout.
Qed.

(** ** A batch runs its lines in order *)

Lemma in_batch_state (B : Backend) (suppress_output : bool) (lf lf1 : option (LootFilter B))
  (name : string) (params : list string) (w w1 : World B) :
  DelegateFunctionCall_in_batch B suppress_output lf name params w = (w1, Ok lf1) ->
  input_file w1 = input_file w /\
  exists out params',
    command_body B (input_file w) (env w) lf name params = Ok (env w1, lf1, out, params').
Proof.
  unfold DelegateFunctionCall_in_batch.
  destruct (command_body _ _ _ _ _ _) as [[[[e' lf'] out] params']|e]; [|discriminate].
  set (w2 := if suppress_output then _ else _).
  assert (H2 : input_file w2 = input_file w /\ env w2 = e').
  { subst w2. destruct suppress_output; split; reflexivity. }
  destruct H2 as [Hi He].
  destruct (modifies_filter name) as [modifies|]; [|discriminate].
  destruct (modifies && negb suppress_output).
  - destruct (the_config B lf'); [|discriminate].
    unfold UpdateProfileChangesFile.
    destruct (updated_changes _ _ _); cbn [rbind]; intros [= <- <-]; cbn [input_file env].
    rewrite Hi, He. eauto.
  - intros [= <- <-]. rewrite Hi, He. eauto.
Qed.

Lemma run_batch_loop_in_order (B : Backend) (lines : list string) :
  forall (calls : list (list string)) (contains_mutator flag : bool)
         (lf lf' : option (LootFilter B)) (w w' : World B),
    Forall2 (fun line call => shlex_split line = Ok call) (executed_lines lines) calls ->
    run_batch_loop B lines contains_mutator lf w = (w', Ok (flag, lf')) ->
    input_file w' = input_file w /\
    for_each calls (apply_call B (input_file w)) (env w, lf) = Ok (env w', lf').
Proof.
  induction lines as [|line lines IH]; intros calls cm flag lf lf' w w' H2 Hrun.
  - inversion H2; subst. simpl in Hrun. inversion Hrun; subst. auto.
  - cbn [run_batch_loop] in Hrun. cbn [executed_lines filter] in H2.
    destruct (String.eqb (py_strip line) "") eqn:Eblank; cbn [negb] in H2.
    + eapply IH; eauto.
    + fold (executed_lines lines) in H2.
      inversion H2 as [|? call ? calls' Hsplit Hrest]; subst.
      unfold split_call in Hrun. rewrite Hsplit in Hrun. cbn [rbind] in Hrun.
      destruct call as [|name params]; [discriminate Hrun|].
      destruct (modifies_filter name) as [modifies|]; [|discriminate Hrun].
      destruct (DelegateFunctionCall_in_batch B false lf name params w) as [w1 [lf1|e]] eqn:Eb;
        [|discriminate Hrun].
      destruct (in_batch_state B false lf lf1 name params w w1 Eb) as (Hi & out & params' & Hb).
      destruct (IH calls' _ flag lf1 lf' w1 w' Hrest Hrun) as [Hi' Hrun'].
      split; [congruence|]. cbn [for_each]. unfold apply_call at 1. cbn [fst snd].
      rewrite Hb. cbn [rbind fst snd]. now rewrite <- Hi.
Qed.

(** X15 -- A batch runs its lines in order.  When run_batch returns, the
    profile state and the filter it leaves are those obtained by running
    the branches of the executed lines (the lines that strip() does not
    empty) one after the other in the order of the input file, each on
    the state the previous one left. *)
Theorem run_batch_in_order (B : Backend) (lf lf' : option (LootFilter B))
  (w : World B) (calls : list (list string)) :
  Forall2 (fun line call => shlex_split line = Ok call)
          (executed_lines (input_file w)) calls ->
  snd (DelegateFunctionCall B lf "run_batch" [] w) = Ok lf' ->
  for_each calls (apply_call B (input_file w)) (env w, lf)
  = Ok (env (fst (DelegateFunctionCall B lf "run_batch" [] w)), lf').
Proof.
  intros H2. rewrite DelegateFunctionCall_run_batch.
  unfold run_batch. cbn [CheckNumParams List.length Nat.eqb].
  set (w0 := log_event B (WriteOutput B "") w).
  change (input_file w0) with (input_file w).
  destruct (run_batch_loop B (input_file w) false lf w0) as [w' [[flag lf1]|e]] eqn:Hrun;
    [|discriminate].
  destruct (run_batch_loop_in_order B (input_file w) calls false flag lf lf1 w0 w' H2 Hrun)
    as [_ Hfor].
  change (input_file w0) with (input_file w) in Hfor.
  change (env w0) with (env w) in Hfor.
  destruct flag.
  - unfold save_filter. destruct lf1 as [saved|]; cbn [the_filter fst snd rbind];
      [|discriminate].
    intros [= <-]. exact Hfor.
  - cbn [fst snd]. intros [= <-]. exact Hfor.
Qed.

Lemma run_batch_in_order_witness :
  for_each [["set_gem_min_quality"; "10"]; ["get_gem_min_quality"];
            ["set_lowest_visible_oil"; "Violet Oil"]]
    (apply_call (toy_backend no_currency)
       ["set_gem_min_quality 10"; ""; "get_gem_min_quality";
        JoinParams ["set_lowest_visible_oil"; "Violet Oil"]])
    (tt, Some [])
  = Ok (tt, Some ["SetGemMinQuality 10"; "SetLowestVisibleOil Violet Oil"]).
Proof.
  refine (run_batch_in_order (toy_backend no_currency) (Some []) _
            (toy_world (toy_backend no_currency) tt []
               ["set_gem_min_quality 10"; ""; "get_gem_min_quality";
                JoinParams ["set_lowest_visible_oil"; "Violet Oil"]])
            [["set_gem_min_quality"; "10"]; ["get_gem_min_quality"];
             ["set_lowest_visible_oil"; "Violet Oil"]] _ eq_refl).
  repeat constructor.
Defined.

(** ** Replaying writes nothing but the filter *)

Lemma replay_changes_silent (B : Backend) (lines : list string) :
  forall (lf : option (LootFilter B)) (w : World B),
    changes_file (fst (replay_changes B lines lf w)) = changes_file w /\
    input_file (fst (replay_changes B lines lf w)) = input_file w /\
    events (fst (replay_changes B lines lf w)) = events w.
Proof.
  induction lines as [|line lines IH]; intros lf w; [auto|].
  cbn [replay_changes]. destruct (split_call line) as [[name params]|e]; [|auto].
  rewrite in_batch_suppressed.
  destruct (command_body B (input_file w) (env w) lf name params)
    as [[[[e' lf'] out] params']|e]; [|auto].
  destruct (IH lf' (with_env B e' w)) as (H1 & H2 & H3).
  destruct (replay_changes B lines lf' (with_env B e' w)) as [w' [lf2|e]];
    cbn [fst] in *; auto.
Qed.

(** X16 -- Import and load write nothing but the filter.
    import_downloaded_filter and load_input_filter never write the
    changes file; when they return they have saved the filter once and
    then written the empty output, and when they raise they have neither
    saved nor written anything. *)
Theorem import_effects (B : Backend) (lf : option (LootFilter B)) (name : string)
  (params : list string) (w : World B) :
  In name ["import_downloaded_filter"; "load_input_filter"] ->
  changes_file (fst (DelegateFunctionCall B lf name params w)) = changes_file w /\
  input_file (fst (DelegateFunctionCall B lf name params w)) = input_file w /\
  match snd (DelegateFunctionCall B lf name params w) with
  | Ok (Some saved) =>
      events (fst (DelegateFunctionCall B lf name params w))
      = events w ++ [SaveToFile B saved; WriteOutput B ""]
  | Ok None => False
  | Raise _ => events (fst (DelegateFunctionCall B lf name params w)) = events w
  end.
Proof.
  intros Hin.
  assert (E : DelegateFunctionCall B lf name params w =
              match import_or_load B lf params w with
              | (w', Ok lf') => (log_event B (WriteOutput B "") w', Ok lf')
              | (w', Raise e) => (w', Raise e)
              end).
  { unfold DelegateFunctionCall. destruct Hin as [<-|[<-|[]]];
      cbn [String.eqb Ascii.eqb Bool.eqb orb andb];
      destruct (import_or_load B lf params w) as [w' [lf'|e]]; reflexivity. }
  rewrite E. clear E. unfold import_or_load.
  destruct (CheckNumParams params 0); [|cbn [fst snd]; auto].
  destruct (the_config B lf); [|cbn [fst snd]; auto].
  destruct (replay_changes_silent B (changes_file w) lf w) as (H1 & H2 & H3).
  destruct (replay_changes B (changes_file w) lf w) as [w' [lf'|e]]; cbn [fst snd] in *;
    [|auto].
  unfold save_filter. destruct lf' as [saved|]; cbn [the_filter fst snd rbind].
  - unfold log_event. cbn [changes_file input_file events fst snd].
    rewrite H3, <- app_assoc. auto.
  - auto.
Qed.

Lemma import_effects_witness :
  events (fst (DelegateFunctionCall (toy_backend no_currency) (Some []) "load_input_filter" []
                 (toy_world (toy_backend no_currency) tt
                    ["set_gem_min_quality 10"; "set_gem_min_quality ten"] [])))
  = [].
Proof.
  exact (proj2 (proj2 (import_effects (toy_backend no_currency) (Some []) "load_input_filter"
                         [] (toy_world (toy_backend no_currency) tt
                               ["set_gem_min_quality 10"; "set_gem_min_quality ten"] [])
                         (or_intror (or_introl eq_refl))))).
Defined.

(** ** The arguments of the command line *)

(** X17 -- The command line.  ValidateAndParseArguments returns
    (function_name, function_params, profile_name) exactly when sys.argv
    is the script name, the function name, the parameters and, for a
    command with HasProfileParam true and only then, the profile name as
    last argument; the number of parameters is one of the
    NumParamsOptions of the command; and the profile, when there is one,
    exists. *)
Theorem ValidateAndParseArguments_spec (B : Backend) (argv : list string) (e : Env B)
  (function_name : string) (function_params : list string) (profile_name : option string) :
  ValidateAndParseArguments B argv e = Ok (function_name, function_params, profile_name) <->
  exists script info,
    argv = script :: function_name :: function_params ++ profile_part profile_name /\
    dict_get function_name kFunctionInfoMap = Some info /\
    HasProfileParam info = has_profile profile_name /\
    existsb (Nat.eqb (List.length function_params)) (NumParamsOptions info) = true /\
    match profile_name with
    | Some name => ProfileExists B name e = true
    | None => True
    end.
Proof.
  split.
  - unfold ValidateAndParseArguments, dict_item.
    destruct argv as [|script [|name remaining]]; try discriminate.
    destruct (dict_get name kFunctionInfoMap) as [info|] eqn:Hget; [|discriminate].
    cbn [rbind]. destruct (HasProfileParam info) eqn:Hp.
    + destruct remaining as [|r remaining]; [discriminate|]. cbn [rbind].
      destruct (existsb _ _) eqn:Hopts; [|discriminate]. cbn [negb].
      destruct (ProfileExists B _ e) eqn:Hex; [|discriminate].
      intros [= <- <- <-]. exists script, info.
      cbn [profile_part has_profile].
      assert (Happ : r :: remaining
                     = removelast (r :: remaining) ++ [last (r :: remaining) ""])
        by (apply app_removelast_last; discriminate).
      cbn [removelast last] in Happ. rewrite <- Happ. auto.
    + cbn [rbind]. destruct (existsb _ _) eqn:Hopts; [|discriminate]. cbn [negb].
      intros [= <- <- <-]. exists script, info.
      cbn [profile_part has_profile]. rewrite app_nil_r. auto.
  - intros (script & info & -> & Hget & Hp & Hopts & Hex).
    unfold ValidateAndParseArguments, dict_item. rewrite Hget. cbn [rbind]. rewrite Hp.
    destruct profile_name as [name|]; cbn [has_profile profile_part].
    + destruct (function_params ++ [name]) as [|r remaining] eqn:E.
      { apply app_eq_nil in E. destruct E; discriminate. }
      rewrite <- E. cbn [rbind]. rewrite removelast_last, last_last, Hopts. cbn [negb].
      now rewrite Hex.
    + rewrite app_nil_r. cbn [rbind]. now rewrite Hopts.
Qed.

(** ** Default parameters *)

(** X18 -- Default parameters.  set_basetype_visibility and
    set_flask_visibility called with two parameters behave in every
    respect, the line recorded in the changes file included, as with the
    third parameter '0'; add_remove_socket_rule called with two
    parameters behaves as with the item slot 'any' in second place. *)
Theorem default_parameters_recorded (B : Backend) (lf : option (LootFilter B))
  (w : World B) (a b : string) :
  (DelegateFunctionCall B lf "set_basetype_visibility" [a; b] w
   = DelegateFunctionCall B lf "set_basetype_visibility" [a; b; "0"] w /\
   DelegateFunctionCall B lf "set_flask_visibility" [a; b] w
   = DelegateFunctionCall B lf "set_flask_visibility" [a; b; "0"] w /\
   DelegateFunctionCall B lf "add_remove_socket_rule" [a; b] w
   = DelegateFunctionCall B lf "add_remove_socket_rule" [a; "any"; b] w) /\
  (forall suppress_output,
      DelegateFunctionCall_in_batch B suppress_output lf "set_basetype_visibility" [a; b] w
      = DelegateFunctionCall_in_batch B suppress_output lf "set_basetype_visibility"
          [a; b; "0"] w /\
      DelegateFunctionCall_in_batch B suppress_output lf "set_flask_visibility" [a; b] w
      = DelegateFunctionCall_in_batch B suppress_output lf "set_flask_visibility"
          [a; b; "0"] w /\
      DelegateFunctionCall_in_batch B suppress_output lf "add_remove_socket_rule" [a; b] w
      = DelegateFunctionCall_in_batch B suppress_output lf "add_remove_socket_rule"
          [a; "any"; b] w) /\
  (forall e' lf' out params',
      command_body B (input_file w) (env w) lf "set_basetype_visibility" [a; b]
      = Ok (e', lf', out, params') ->
      params' = [a; b; "0"]).
Proof.
  split; [repeat split; reflexivity|]. split; [intros; repeat split; reflexivity|].
  intros e' lf' out params' H.
  change (command_body B (input_file w) (env w) lf "set_basetype_visibility" [a; b])
    with (set_two_flag_visibility B (env w) lf [a; b] (SetBaseTypeRuleEnabledFor B)) in H.
  unfold set_two_flag_visibility in H. cbn [List.length Nat.eqb app] in H.
  unfold rbind in H.
  repeat match type of H with
         | context [match ?x with _ => _ end] =>
             lazymatch x with
             | setter _ _ _ _ _ => fail
             | _ => let E := fresh "E" in destruct x eqn:E; try discriminate H
             end
         end.
  now apply setter_params in H.
Qed.

Lemma for_each_blocks {A : Type} (l : list A) (block : A -> string)
  (step : string -> A -> result string) :
  (forall out x, In x l -> step out x = Ok (out +++ block x)) ->
  forall init, for_each l step init = Ok (init +++ concat_strings (map block l)).
Proof.
  induction l as [|x l IH]; intros Hstep init; simpl.
  - now rewrite append_nil_r.
  - rewrite (Hstep init x) by now left. simpl.
    rewrite IH by (intros; apply Hstep; now right).
    now rewrite append_assoc.
Qed.

Lemma drop_last_append (a b : string) : b <> "" -> drop_last (a +++ b) = a +++ drop_last b.
Proof.
  intros Hb. induction a as [|c a IH]; [reflexivity|].
  simpl. rewrite IH. destruct (a +++ b) eqn:E; [|reflexivity].
  destruct a; simpl in E; [congruence | discriminate].
Qed.

Lemma concat_strings_lines (lines : list string) :
  lines <> [] ->
  last_char (concat_strings (map (fun l => l +++ newline) lines)) = Ok line_feed /\
  drop_last (concat_strings (map (fun l => l +++ newline) lines)) = join_lines lines.
Proof.
  induction lines as [|x lines IH]; [congruence|]. intros _.
  destruct lines as [|y lines].
  - simpl. rewrite append_nil_r.
    rewrite last_char_append, drop_last_append by discriminate.
    simpl. now rewrite append_nil_r.
  - destruct IH as [IH1 IH2]; [discriminate|].
    cbn [map concat_strings] in *.
    assert (Hne : (y +++ newline) +++
                  concat_strings (map (fun l => l +++ newline) lines) <> "").
    { destruct y; discriminate. }
    rewrite last_char_append, drop_last_append by exact Hne.
    split; [exact IH1|]. rewrite IH2.
    unfold join_lines. cbn [String.concat]. now rewrite append_assoc.
Qed.

Lemma remove_final_newline_lines (lines : list string) :
  lines <> [] ->
  remove_final_newline (concat_strings (map (fun l => l +++ newline) lines))
  = Ok (join_lines lines).
Proof.
  intros H. destruct (concat_strings_lines lines H) as [H1 H2].
  unfold remove_final_newline. rewrite H1. simpl. now rewrite H2.
Qed.

Lemma remove_final_newline_guarded_lines (lines : list string) :
  remove_final_newline_guarded (concat_strings (map (fun l => l +++ newline) lines))
  = Ok (join_lines lines).
Proof.
  destruct lines as [|x lines]; [reflexivity|].
  unfold remove_final_newline_guarded.
  destruct (0 <? String.length _) eqn:E.
  - now apply remove_final_newline_lines.
  - exfalso. simpl in E. destruct x; simpl in E; discriminate.
Qed.

Lemma tier_visibilities_report (B : Backend) (e : Env B) (lf : LootFilter B)
  (num_tiers : nat) (visibility : nat -> LootFilter B -> result (RuleVisibility B))
  (vis : nat -> RuleVisibility B) :
  (forall tier, In tier (seq 1 num_tiers) -> visibility tier lf = Ok (vis tier)) ->
  tier_visibilities B e (Some lf) [] num_tiers visibility
  = if num_tiers =? 0 then Raise IndexError
    else Ok (e, Some lf, join_lines (map (tier_line B vis) (seq 1 num_tiers)), []).
Proof.
  intros H. unfold tier_visibilities. cbn [CheckNumParams List.length Nat.eqb rbind].
  rewrite (for_each_blocks (seq 1 num_tiers) (fun tier => tier_line B vis tier +++ newline)).
  - cbn [rbind String.append].
    rewrite <- (map_map (tier_line B vis) (fun l => l +++ newline)).
    destruct num_tiers as [|n]; [reflexivity|].
    rewrite remove_final_newline_lines by discriminate. reflexivity.
  - intros out tier Hin. cbn [the_filter rbind]. rewrite (H tier Hin). cbn [rbind].
    unfold tier_line. now rewrite !append_assoc.
Qed.


(** X19 -- Tier reports.  When the visibility of every tier can be read,
    each of the four get_all_*_tier_visibilities commands returns one
    line `<tier>;<flag>` per tier from 1 to the number of tiers, in
    order, joined by newlines with no newline at the end, the flag being
    1 exactly for the visibility kShow; with no tier at all it raises
    IndexError. *)
Theorem tier_reports_format (B : Backend) (input : list string) (e : Env B)
  (lf : LootFilter B) (vis : nat -> RuleVisibility B) :
  ((forall tier, In tier (seq 1 (kNumEssenceTiers B)) ->
                 GetEssenceTierVisibility B tier lf = Ok (vis tier)) ->
   command_body B input e (Some lf) "get_all_essence_tier_visibilities" []
   = tier_report B e lf (kNumEssenceTiers B) vis) /\
  ((forall tier, In tier (seq 1 (kNumDivCardTiers B)) ->
                 GetDivCardTierVisibility B tier lf = Ok (vis tier)) ->
   command_body B input e (Some lf) "get_all_div_card_tier_visibilities" []
   = tier_report B e lf (kNumDivCardTiers B) vis) /\
  ((forall tier, In tier (seq 1 (kNumUniqueItemTiers B)) ->
                 GetUniqueItemTierVisibility B tier lf = Ok (vis tier)) ->
   command_body B input e (Some lf) "get_all_unique_item_tier_visibilities" []
   = tier_report B e lf (kNumUniqueItemTiers B) vis) /\
  ((forall tier, In tier (seq 1 (kNumUniqueMapTiers B)) ->
                 GetUniqueMapTierVisibility B tier lf = Ok (vis tier)) ->
   command_body B input e (Some lf) "get_all_unique_map_tier_visibilities" []
   = tier_report B e lf (kNumUniqueMapTiers B) vis).
Proof.
  repeat split; intros H;
    cbv beta iota zeta delta [command_body String.eqb Ascii.eqb Bool.eqb];
    now apply tier_visibilities_report.
Qed.

Lemma tier_reports_format_witness :
  command_body (toy_backend no_currency) [] tt (Some [])
    "get_all_unique_map_tier_visibilities" []
  = Ok (tt, Some [], join_lines ["1;1"; "2;1"; "3;1"; "4;1"], []).
Proof.
  apply (proj2 (proj2 (proj2 (tier_reports_format (toy_backend no_currency) [] tt []
                                (fun _ => 0))))).
  reflexivity.
Defined.

(** X20 -- Chaos recipe statuses.  When the status of every item slot
    can be read, get_all_chaos_recipe_statuses returns one line
    `<item_slot>;<flag>` per item slot of consts.kItemSlots, in order,
    joined by newlines; with no item slot it raises IndexError. *)
Theorem chaos_recipe_report_format (B : Backend) (input : list string) (e : Env B)
  (lf : LootFilter B) (enabled : string -> bool) :
  (forall item_slot, In item_slot (kItemSlots B) ->
                     IsChaosRecipeEnabledFor B item_slot lf = Ok (enabled item_slot)) ->
  command_body B input e (Some lf) "get_all_chaos_recipe_statuses" []
  = match kItemSlots B with
    | [] => Raise IndexError
    | _ :: _ =>
        Ok (e, Some lf,
            join_lines (map (fun item_slot => item_slot +++ ";" +++ str_flag (enabled item_slot))
                            (kItemSlots B)),
            [])
    end.
Proof.
  intros H. cbv beta iota zeta delta [command_body String.eqb Ascii.eqb Bool.eqb].
  unfold get_all_chaos_recipe_statuses. cbn [CheckNumParams List.length Nat.eqb rbind].
  rewrite (for_each_blocks (kItemSlots B)
             (fun item_slot => (item_slot +++ ";" +++ str_flag (enabled item_slot)) +++ newline)).
  - cbn [rbind String.append].
    rewrite <- (map_map (fun item_slot => item_slot +++ ";" +++ str_flag (enabled item_slot))
                        (fun l => l +++ newline)).
    destruct (kItemSlots B) as [|s slots] eqn:E; [reflexivity|].
    rewrite remove_final_newline_lines by discriminate. reflexivity.
  - intros out slot Hin. cbn [the_filter rbind]. rewrite (H slot Hin). cbn [rbind].
    now rewrite !append_assoc.
Qed.

Lemma chaos_recipe_report_format_witness :
  command_body (toy_backend no_currency) [] tt (Some []) "get_all_chaos_recipe_statuses" []
  = Ok (tt, Some [],
        join_lines ["Weapons;1"; "Body Armours;1"; "Helmets;1"; "Gloves;1";
                    "Boots;1"; "Amulets;1"; "Rings;1"; "Belts;1"],
        []).
Proof.
  apply (chaos_recipe_report_format (toy_backend no_currency) [] tt [] (fun _ => true)).
  reflexivity.
Defined.

Lemma concat_strings_app (l1 l2 : list string) :
  concat_strings (l1 ++ l2) = concat_strings l1 +++ concat_strings l2.
Proof. induction l1 as [|x l1 IH]; simpl; [reflexivity|]. now rewrite IH, append_assoc. Qed.

Lemma concat_strings_flat_map {A : Type} (f : A -> list string) (l : list A) :
  concat_strings (flat_map f l) = concat_strings (map (fun x => concat_strings (f x)) l).
Proof. induction l as [|x l IH]; simpl; [reflexivity|]. now rewrite concat_strings_app, IH. Qed.

(** X21 -- Currency report.  When every tier can be read,
    get_all_currency_tiers returns the lines `<currency_name>;<tier>` of
    tier 1, then those of tier 2, and so on, joined by newlines, and
    raises IndexError when there is no line at all. *)
Theorem currency_report_format (B : Backend) (input : list string) (e : Env B)
  (lf : LootFilter B) (names : nat -> list string) :
  (forall tier, In tier (seq 1 (kNumCurrencyTiersExcludingScrolls B)) ->
                GetAllCurrencyInTier B tier lf = Ok (names tier)) ->
  command_body B input e (Some lf) "get_all_currency_tiers" []
  = match currency_lines names (kNumCurrencyTiersExcludingScrolls B) with
    | [] => Raise IndexError
    | lines => Ok (e, Some lf, join_lines lines, [])
    end.
Proof.
  intros H. cbv beta iota zeta delta [command_body String.eqb Ascii.eqb Bool.eqb].
  unfold get_all_currency_tiers. cbn [CheckNumParams List.length Nat.eqb rbind].
  rewrite (for_each_blocks (seq 1 (kNumCurrencyTiersExcludingScrolls B))
             (fun tier => concat_strings
                            (map (fun l => l +++ newline)
                                 (map (fun currency_name => currency_name +++ ";" +++ str_nat tier)
                                      (names tier))))).
  - cbn [rbind String.append].
    rewrite <- (concat_strings_flat_map
                  (fun tier => map (fun l => l +++ newline)
                                 (map (fun currency_name => currency_name +++ ";" +++ str_nat tier)
                                      (names tier)))).
    assert (E : flat_map
                  (fun tier => map (fun l => l +++ newline)
                                 (map (fun currency_name => currency_name +++ ";" +++ str_nat tier)
                                      (names tier)))
                  (seq 1 (kNumCurrencyTiersExcludingScrolls B))
                = map (fun l => l +++ newline)
                      (currency_lines names (kNumCurrencyTiersExcludingScrolls B))).
    { unfold currency_lines. now rewrite map_flat_map. }
    rewrite E.
    destruct (currency_lines names (kNumCurrencyTiersExcludingScrolls B)) as [|l ls];
      [reflexivity|].
    rewrite remove_final_newline_lines by discriminate. reflexivity.
  - intros out tier Hin. cbn [the_filter rbind]. rewrite (H tier Hin). cbn [rbind].
    rewrite map_map. do 3 f_equal. apply map_ext. intros name. now rewrite !append_assoc.
Qed.

Lemma currency_report_format_witness :
  command_body (toy_backend some_currency) [] tt (Some []) "get_all_currency_tiers" []
  = Ok (tt, Some [], "Chromatic Orb;5", []).
Proof.
  apply (currency_report_format (toy_backend some_currency) [] tt [] some_currency).
  reflexivity.
Defined.

(** X22 -- Visible base types and flasks.  get_all_visible_basetypes
    returns the lines `<base_type>;0` of the base types visible for any
    rarity followed by the lines `<base_type>;1` of those visible for
    rares only (the set difference), joined by newlines;
    get_all_visible_flasks returns the lines `<flask>;0` of the first
    list followed by the lines `<flask>;1` of the whole second list.  Both
    return the empty string when there is no line. *)
Theorem visible_items_report_format (B : Backend) (input : list string) (e : Env B)
  (lf : LootFilter B) (any narrow : list string) :
  (GetAllVisibleBaseTypes B false lf = Ok any ->
   GetAllVisibleBaseTypes B true lf = Ok narrow ->
   command_body B input e (Some lf) "get_all_visible_basetypes" []
   = Ok (e, Some lf,
         join_lines (tagged "0" any ++ tagged "1" (set_difference_list B narrow any)),
         [])) /\
  (GetAllVisibleFlaskTypes B false lf = Ok any ->
   GetAllVisibleFlaskTypes B true lf = Ok narrow ->
   command_body B input e (Some lf) "get_all_visible_flasks" []
   = Ok (e, Some lf, join_lines (tagged "0" any ++ tagged "1" narrow), [])).
Proof.
  assert (Hlines : forall a b,
             remove_final_newline_guarded (flag_lines "0" a +++ flag_lines "1" b)
             = Ok (join_lines (tagged "0" a ++ tagged "1" b))).
  { intros a b.
    assert (Hf : forall flag l,
               flag_lines flag l
               = concat_strings (map (fun x => x +++ newline) (tagged flag l))).
    { intros flag l. unfold flag_lines, tagged. rewrite map_map. f_equal.
      apply map_ext. intros x. now rewrite !append_assoc. }
    rewrite !Hf, <- concat_strings_app, <- map_app.
    apply remove_final_newline_guarded_lines. }
  split; intros Ha Hn.
  - rewrite command_body_basetypes. unfold get_all_visible_basetypes, getter.
    cbn [CheckNumParams List.length Nat.eqb rbind the_filter]. rewrite Ha, Hn.
    cbn [rbind]. now rewrite Hlines.
  - rewrite command_body_flasks. unfold get_all_visible_flasks, getter.
    cbn [CheckNumParams List.length Nat.eqb rbind the_filter]. rewrite Ha, Hn.
    cbn [rbind]. now rewrite Hlines.
Qed.

Lemma visible_items_report_format_witness :
  command_body (toy_backend no_currency) [] tt (Some []) "get_all_visible_flasks" []
  = Ok (tt, Some [], "", []).
Proof.
  exact (proj2 (visible_items_report_format (toy_backend no_currency) [] tt [] [] [])
           eq_refl eq_refl).
Defined.
